(** * facil.io Base64 codec ([lib/facil/core/types/fiobj/fio_base64.c])

    A shallow embedding of the encoder [fio_base64_encode_internal] (with its
    two entry points), of the decoder [fio_base64_decode] and of the
    self-test [fio_base64_test], over a flat byte-addressed memory,
    followed by the properties of the codec.

    The C functions work on raw pointers: the encoder walks both buffers
    backwards and may be run in place, the decoder looks at bytes around
    the window it is given.  The embedding therefore keeps one memory for
    everything and represents pointers by addresses. *)

From Stdlib Require Import ZArith List Bool Lia String Ascii.
Import ListNotations.
Local Open Scope Z_scope.

(* ------------------------------------------------------------------ *)
(** ** Machine integers *)

Definition INT_MAX : Z := 2147483647.
Definition INT_MIN : Z := -2147483648.

(** A C [int] is 32 bits wide; arithmetic that leaves the range wraps. *)
Definition wrap_int (z : Z) : Z := (z + 2 ^ 31) mod 2 ^ 32 - 2 ^ 31.

Definition int_add (a b : Z) : Z := wrap_int (a + b).
Definition int_sub (a b : Z) : Z := wrap_int (a - b).
Definition int_mul (a b : Z) : Z := wrap_int (a * b).

(** [(size_t)c] for a [char] value [c] on a 64-bit target. *)
Definition size_t_of (c : Z) : Z := c mod 2 ^ 64.

(* ------------------------------------------------------------------ *)
(** ** Memory *)

Module CMem.

(** One cell per address; only the low eight bits of a cell are its byte. *)
Definition mem : Type := Z -> Z.

(** [*(uint8_t * )a] *)
Definition load8 (m : mem) (a : Z) : Z := m a mod 256.

(** [*(char * )a = v]: the stored value is cut to eight bits. *)
Definition store8 (m : mem) (a v : Z) : mem :=
  fun x => if x =? a then v mod 256 else m x.

(** A memory holding the same byte everywhere. *)
Definition blank (v : Z) : mem := fun _ => v.

(** Lay the bytes [bs] out from address [a] on. *)
Fixpoint place (m : mem) (a : Z) (bs : list Z) : mem :=
  match bs with
  | [] => m
  | b :: bs' => place (store8 m a b) (a + 1) bs'
  end.

(** The [n] bytes stored from address [a] on. *)
Fixpoint bytes_at (m : mem) (a : Z) (n : nat) : list Z :=
  match n with
  | O => []
  | S n' => load8 m a :: bytes_at m (a + 1) n'
  end.

End CMem.
Import CMem.

(** The bytes of a string literal. *)
Definition bytes_of_string (s : string) : list Z :=
  map (fun c => Z.of_N (N_of_ascii c)) (list_ascii_of_string s).

(** Option sequencing for loops that may run out of fuel. *)
Notation "'let*' p ':=' a 'in' b" :=
  (match a with Some p => b | None => None end)
  (at level 10, p pattern, a at level 100, b at level 200, only parsing).

(* ------------------------------------------------------------------ *)
(** ** Lookup tables *)

(** [base64_encodes_original] *)
Definition base64_encodes_original : list Z :=
  bytes_of_string
    "ABCDEFGHIJKLMNOPQRSTUVWXYZabcdefghijklmnopqrstuvwxyz0123456789+/=".

(** [base64_encodes_url] *)
Definition base64_encodes_url : list Z :=
  bytes_of_string
    "ABCDEFGHIJKLMNOPQRSTUVWXYZabcdefghijklmnopqrstuvwxyz0123456789-_=".

(** [base64_encodes[i]]; index 65 is the literal's terminating zero. *)
Definition char_at (tbl : list Z) (i : Z) : Z := nth (Z.to_nat i) tbl 0.

(** [base64_decodes], row by row as in the source. *)
Definition base64_decodes : list Z :=
  [ 0; 0; 0; 0; 0; 0; 0; 0; 0; 0; 0; 0; 0; 0; 0; 0; 0; 0; 0;
    0; 0; 0; 0; 0; 0; 0; 0; 0; 0; 0; 0; 0; 0; 0; 0; 0; 0; 0;
    0; 0; 0; 0; 0; 62; 63; 62; 0; 63; 52; 53; 54; 55; 56; 57; 58; 59; 60;
    61; 0; 0; 0; 64; 0; 0; 0; 0; 1; 2; 3; 4; 5; 6; 7; 8; 9; 10;
    11; 12; 13; 14; 15; 16; 17; 18; 19; 20; 21; 22; 23; 24; 25; 0; 0; 0; 0;
    63; 0; 26; 27; 28; 29; 30; 31; 32; 33; 34; 35; 36; 37; 38; 39; 40; 41; 42;
    43; 44; 45; 46; 47; 48; 49; 50; 51; 0; 0; 0; 0; 0; 0; 0; 0; 0; 0;
    0; 0; 0; 0; 0; 0; 0; 0; 0; 0; 0; 0; 0; 0; 0; 0; 0; 0; 0;
    0; 0; 0; 0; 0; 0; 0; 0; 0; 0; 0; 0; 0; 0; 0; 0; 0; 0; 0;
    0; 0; 0; 0; 0; 0; 0; 0; 0; 0; 0; 0; 0; 0; 0; 0; 0; 0; 0;
    0; 0; 0; 0; 0; 0; 0; 0; 0; 0; 0; 0; 0; 0; 0; 0; 0; 0; 0;
    0; 0; 0; 0; 0; 0; 0; 0; 0; 0; 0; 0; 0; 0; 0; 0; 0; 0; 0;
    0; 0; 0; 0; 0; 0; 0; 0; 0; 0; 0; 0; 0; 0; 0; 0; 0; 0; 0;
    0; 0; 0; 0; 0; 0; 0; 0; 0 ].

(** Character codes used below. *)
Definition ch_eq : Z := 61.      (* '=' *)
Definition ch_A : Z := 65.       (* 'A' *)
Definition ch_a : Z := 97.       (* 'a' *)
Definition ch_nl : Z := 10.      (* newline *)

(* ------------------------------------------------------------------ *)
(** ** The codec *)

Section Codec.

(** Whether plain [char] is signed on the target (it is on x86, it is
    not on ARM). *)
Variable char_signed : bool.

(** What a read of [base64_decodes] outside its 256 entries yields; the
    decoder indexes the table with [(size_t)tmp] for a [char tmp]. *)
Variable decodes_oob : Z -> Z.

(** The value of a [char] holding byte [b]. *)
Definition to_char (b : Z) : Z :=
  if char_signed && (128 <=? b) then b - 256 else b.

(** [*p] for a [char *p]. *)
Definition load_char (m : mem) (a : Z) : Z := to_char (load8 m a).

(** [base64_decodes[i]] *)
Definition decodes_at (i : Z) : Z :=
  if (0 <=? i) && (i <? 256) then nth (Z.to_nat i) base64_decodes 0
  else decodes_oob i.

(** [BITVAL(x)] *)
Definition BITVAL (x : Z) : Z := Z.land (decodes_at x) 63.

(** *** Encoder *)

(** The [switch (mod)] of the encoder: the partial group at the end of
    the data.  Yields the memory and the two cursors. *)
Definition encode_partial (tbl : list Z) (m : mem) (md reader writer : Z)
  : mem * Z * Z :=
  if md =? 2 then
    let tmp2 := load_char m reader in
    let tmp1 := load_char m (reader - 1) in
    let m := store8 m writer ch_eq in
    let m := store8 m (writer - 1)
               (char_at tbl (Z.shiftl (Z.land tmp2 15) 2)) in
    let m := store8 m (writer - 2)
               (char_at tbl (Z.lor (Z.shiftl (Z.land tmp1 3) 4)
                                   (Z.land (Z.shiftr tmp2 4) 15))) in
    let m := store8 m (writer - 3)
               (char_at tbl (Z.land (Z.shiftr tmp1 2) 63)) in
    (m, reader - 2, writer - 4)
  else if md =? 1 then
    let tmp1 := load_char m reader in
    let m := store8 m writer ch_eq in
    let m := store8 m (writer - 1) ch_eq in
    let m := store8 m (writer - 2)
               (char_at tbl (Z.shiftl (Z.land tmp1 3) 4)) in
    let m := store8 m (writer - 3)
               (char_at tbl (Z.land (Z.shiftr tmp1 2) 63)) in
    (m, reader - 1, writer - 4)
  else (m, reader, writer).

(** One turn of [while (groups)]: three bytes read, four characters
    written, both right to left. *)
Definition encode_group (tbl : list Z) (m : mem) (reader writer : Z) : mem :=
  let tmp3 := load_char m reader in
  let tmp2 := load_char m (reader - 1) in
  let tmp1 := load_char m (reader - 2) in
  let m := store8 m writer (char_at tbl (Z.land tmp3 63)) in
  let m := store8 m (writer - 1)
             (char_at tbl (Z.lor (Z.shiftl (Z.land tmp2 15) 2)
                                 (Z.land (Z.shiftr tmp3 6) 3))) in
  let m := store8 m (writer - 2)
             (char_at tbl (Z.lor (Z.shiftl (Z.land tmp1 3) 4)
                                 (Z.land (Z.shiftr tmp2 4) 15))) in
  store8 m (writer - 3) (char_at tbl (Z.land (Z.shiftr tmp1 2) 63)).

(** [while (groups) { groups--; ... }] *)
Fixpoint encode_groups (fuel : nat) (tbl : list Z) (m : mem)
         (groups reader writer : Z) : option mem :=
  if groups =? 0 then Some m
  else
    match fuel with
    | O => None
    | S fuel' =>
        encode_groups fuel' tbl (encode_group tbl m reader writer)
                      (int_sub groups 1) (reader - 3) (writer - 4)
    end.

(** [fio_base64_encode_internal]: the memory afterwards and the value
    returned. *)
Definition fio_base64_encode_internal (fuel : nat) (m : mem)
           (target data len : Z) (base64_encodes : list Z)
  : option (mem * Z) :=
  let groups := Z.quot len 3 in
  let md := int_sub len (int_mul groups 3) in
  let target_size :=
    int_mul (int_add groups (if md =? 0 then 0 else 1)) 4 in
  let writer := target + target_size - 1 in
  let reader := data + len - 1 in
  let m := store8 m (writer + 1) 0 in
  let '(m, reader, writer) :=
    encode_partial base64_encodes m md reader writer in
  let* m := encode_groups fuel base64_encodes m groups reader writer in
  Some (m, target_size).

(** [fio_base64_encode] *)
Definition fio_base64_encode (fuel : nat) (m : mem) (target data len : Z) :=
  fio_base64_encode_internal fuel m target data len base64_encodes_original.

(** [fio_base64url_encode] *)
Definition fio_base64url_encode (fuel : nat) (m : mem)
           (target data len : Z) :=
  fio_base64_encode_internal fuel m target data len base64_encodes_url.

(** *** Decoder *)

(** The condition shared by every skip loop:
    [base64_len && !base64_decodes[*(uint8_t * )encoded]]. *)
Definition skip_test (m : mem) (base64_len encoded : Z) : bool :=
  negb (base64_len =? 0) && (decodes_at (load8 m encoded) =? 0).

(** The first skip loop of the decoder: its body only counts down. *)
Fixpoint skip_at_start (fuel : nat) (m : mem) (base64_len encoded : Z)
  : option (Z * Z) :=
  if skip_test m base64_len encoded then
    match fuel with
    | O => None
    | S fuel' => skip_at_start fuel' m (int_sub base64_len 1) encoded
    end
  else Some (base64_len, encoded).

(** The other skip loops: count down and move the cursor on. *)
Fixpoint skip_unknown (fuel : nat) (m : mem) (base64_len encoded : Z)
  : option (Z * Z) :=
  if skip_test m base64_len encoded then
    match fuel with
    | O => None
    | S fuel' => skip_unknown fuel' m (int_sub base64_len 1) (encoded + 1)
    end
  else Some (base64_len, encoded).

(** The three early exits; none of them stores a terminator. *)
Definition oops1 (m : mem) (target written tmp1 : Z) : mem * Z :=
  let m := store8 m target (BITVAL (size_t_of tmp1)) in
  (m, int_add written 1).

Definition oops2 (m : mem) (target written tmp1 tmp2 : Z) : mem * Z :=
  let m := store8 m target
             (Z.lor (Z.shiftl (BITVAL (size_t_of tmp1)) 2)
                    (Z.shiftr (BITVAL (size_t_of tmp2)) 6)) in
  let m := store8 m (target + 1) (Z.shiftl (BITVAL (size_t_of tmp2)) 4) in
  (m, int_add written 2).

Definition oops3 (m : mem) (target written tmp1 tmp2 tmp3 : Z) : mem * Z :=
  let m := store8 m target
             (Z.lor (Z.shiftl (BITVAL (size_t_of tmp1)) 2)
                    (Z.shiftr (BITVAL (size_t_of tmp2)) 6)) in
  let m := store8 m (target + 1)
             (Z.lor (Z.shiftl (BITVAL (size_t_of tmp2)) 4)
                    (Z.shiftr (BITVAL (size_t_of tmp3)) 2)) in
  let m := store8 m (target + 2) (Z.shiftl (BITVAL (size_t_of tmp3)) 6) in
  (m, int_add written 3).

(** How [while (base64_len >= 4)] is left. *)
Inductive loop_exit : Type :=
| Returned (m : mem) (written : Z)
| Tail (m : mem) (target encoded base64_len written : Z).

(** [while (base64_len >= 4) { ... }]; [sfuel] bounds each skip loop. *)
Fixpoint decode_groups (fuel sfuel : nat) (m : mem)
         (target encoded base64_len written : Z) : option loop_exit :=
  if 4 <=? base64_len then
    match fuel with
    | O => None
    | S fuel' =>
        let* (base64_len, encoded) :=
          skip_unknown sfuel m base64_len encoded in
        if base64_len =? 0 then Some (Returned m written)
        else
          let tmp1 := load_char m encoded in
          let encoded := encoded + 1 in
          let* (base64_len, encoded) :=
            skip_unknown sfuel m base64_len encoded in
          if base64_len =? 0 then
            let '(m, w) := oops1 m target written tmp1 in
            Some (Returned m w)
          else
            let tmp2 := load_char m encoded in
            let encoded := encoded + 1 in
            let* (base64_len, encoded) :=
              skip_unknown sfuel m base64_len encoded in
            if base64_len =? 0 then
              let '(m, w) := oops2 m target written tmp1 tmp2 in
              Some (Returned m w)
            else
              let tmp3 := load_char m encoded in
              let encoded := encoded + 1 in
              let* (base64_len, encoded) :=
                skip_unknown sfuel m base64_len encoded in
              if base64_len =? 0 then
                let '(m, w) := oops3 m target written tmp1 tmp2 tmp3 in
                Some (Returned m w)
              else
                let tmp4 := load_char m encoded in
                let encoded := encoded + 1 in
                let m := store8 m target
                           (Z.lor (Z.shiftl (BITVAL (size_t_of tmp1)) 2)
                                  (Z.shiftr (BITVAL (size_t_of tmp2)) 4)) in
                let m := store8 m (target + 1)
                           (Z.lor (Z.shiftl (BITVAL (size_t_of tmp2)) 4)
                                  (Z.shiftr (BITVAL (size_t_of tmp3)) 2)) in
                let m := store8 m (target + 2)
                           (Z.lor (Z.shiftl (BITVAL (size_t_of tmp3)) 6)
                                  (BITVAL (size_t_of tmp4))) in
                let target := target + 3 in
                let base64_len := int_sub base64_len 4 in
                let written := int_add written 3 in
                let* (base64_len, encoded) :=
                  skip_unknown sfuel m base64_len encoded in
                decode_groups fuel' sfuel m target encoded base64_len written
    end
  else Some (Tail m target encoded base64_len written).

(** [switch (base64_len)] after the loop: the tail of a stream whose
    length is no multiple of four.  Yields memory, [target], [encoded]
    and [written]. *)
Definition decode_tail (m : mem) (target encoded base64_len written : Z)
  : mem * Z * Z * Z :=
  if base64_len =? 1 then
    let tmp1 := load_char m encoded in
    let m := store8 m target (BITVAL (size_t_of tmp1)) in
    (m, target + 1, encoded + 1, int_add written 1)
  else if base64_len =? 2 then
    let tmp1 := load_char m encoded in
    let tmp2 := load_char m (encoded + 1) in
    let m := store8 m target
               (Z.lor (Z.shiftl (BITVAL (size_t_of tmp1)) 2)
                      (Z.shiftr (BITVAL (size_t_of tmp2)) 6)) in
    let m := store8 m (target + 1) (Z.shiftl (BITVAL (size_t_of tmp2)) 4) in
    (m, target + 2, encoded + 2, int_add written 2)
  else if base64_len =? 3 then
    let tmp1 := load_char m encoded in
    let tmp2 := load_char m (encoded + 1) in
    let tmp3 := load_char m (encoded + 2) in
    let m := store8 m target
               (Z.lor (Z.shiftl (BITVAL (size_t_of tmp1)) 2)
                      (Z.shiftr (BITVAL (size_t_of tmp2)) 6)) in
    let m := store8 m (target + 1)
               (Z.lor (Z.shiftl (BITVAL (size_t_of tmp2)) 4)
                      (Z.shiftr (BITVAL (size_t_of tmp3)) 2)) in
    let m := store8 m (target + 2) (Z.shiftl (BITVAL (size_t_of tmp3)) 6) in
    (m, target + 3, encoded + 3, int_add written 3)
  else (m, target, encoded, written).

(** The padding test on [encoded[-1]] and [encoded[-2]], then the
    terminator and the normal return. *)
Definition decode_finish (m : mem) (target encoded written : Z) : mem * Z :=
  let '(target, written) :=
    if load_char m (encoded - 1) =? ch_eq then
      if load_char m (encoded - 2) =? ch_eq
      then (target - 2, int_sub (int_sub written 1) 1)
      else (target - 1, int_sub written 1)
    else (target, written) in
  (store8 m target 0, written).

(** [fio_base64_decode]; a [target] of 0 is the null pointer. *)
Definition fio_base64_decode (fuel : nat) (m : mem)
           (target encoded base64_len : Z) : option (mem * Z) :=
  let target := if target =? 0 then encoded else target in
  if base64_len <=? 0 then Some (store8 m target 0, 0)
  else
    let written := 0 in
    let* (base64_len, encoded) :=
      skip_at_start fuel m base64_len encoded in
    let* ex := decode_groups fuel fuel m target encoded base64_len written in
    match ex with
    | Returned m written => Some (m, written)
    | Tail m target encoded base64_len written =>
        let '(m, target, encoded, written) :=
          decode_tail m target encoded base64_len written in
        Some (decode_finish m target encoded written)
    end.

End Codec.

(** What a caller sees of a run: the value returned and the [n] bytes at
    address [a] afterwards. *)
Definition observe (n : nat) (a : Z) (r : option (mem * Z))
  : option (Z * list Z) :=
  match r with
  | Some (m, w) => Some (w, bytes_at m a n)
  | None => None
  end.


(** The round trip of [fio_base64_test]: encode [len] bytes at [data]
    into [buffer], then decode what was written there into [out]. *)
Definition encode_then_decode (char_signed : bool) (decodes_oob : Z -> Z)
           (fuel : nat) (m : mem) (data len buffer out : Z)
  : option (mem * Z) :=
  let* (m, b64_len) := fio_base64_encode char_signed fuel m buffer data len in
  fio_base64_decode char_signed decodes_oob fuel m out buffer b64_len.

(* ------------------------------------------------------------------ *)
(** ** Vocabulary of the properties *)

(** [4 * ceil(len / 3)] *)
Definition encoded_size (len : Z) : Z := 4 * ((len + 2) / 3).

(** The number of ['='] a length asks for: none, two or one. *)
Definition padding (len : Z) : Z :=
  if len mod 3 =? 0 then 0 else if len mod 3 =? 1 then 2 else 1.

(** [c] is one of the 64 symbols of a forward table. *)
Definition is_symbol (tbl : list Z) (c : Z) : bool :=
  existsb (Z.eqb c) (firstn 64 tbl).

(** Each of the 64 entries of [tbl] is a byte, and none is ['=']. *)
Definition alphabet_ok (tbl : list Z) : bool :=
  forallb (fun i => let c := char_at tbl (Z.of_nat i) mod 256 in
                    is_symbol tbl c && negb (c =? ch_eq))
          (seq 0 64).

(** A cell that holds one of the 64 symbols of [tbl]. *)
Definition symbol_cell (tbl : list Z) (m : mem) (a : Z) : Prop :=
  exists i, 0 <= i < 64 /\ load8 m a = char_at tbl i mod 256.

(** [c] belongs to the standard or to the URL-safe alphabet. *)
Definition in_alphabets (c : Z) : bool :=
  is_symbol base64_encodes_original c || is_symbol base64_encodes_url c.

Definition ch_comma : Z := 44.   (* ',' *)

(** The bytes the backward table sends to 0, in words: ['A'], and every
    byte outside both alphabets other than ['='] and [',']. *)
Definition zero_valued (c : Z) : bool :=
  (c =? ch_A)
  || (negb (in_alphabets c) && negb (c =? ch_eq) && negb (c =? ch_comma)).

(** *** Texts in memory *)

(** The bytes [l] stand in [m] from address [a] on. *)
Fixpoint text_at (m : mem) (a : Z) (l : list Z) : Prop :=
  match l with
  | [] => True
  | b :: l' => load8 m a = b /\ text_at m (a + 1) l'
  end.

Definition len_of (l : list Z) : Z := Z.of_nat (List.length l).

(** *** Texts as the decoder reads them *)

(** A byte the skip loops stop at, and a byte they run over. *)
Definition symbol_byte (decodes_oob : Z -> Z) (x : Z) : Prop :=
  0 <= x < 256 /\ decodes_at decodes_oob x <> 0.

Definition junk_byte (decodes_oob : Z -> Z) (j : Z) : Prop :=
  0 <= j < 256 /\ decodes_at decodes_oob j = 0.

(** A text is given by its symbols, each with the junk that stands
    between it and the next symbol: [symbols_of] is the text without
    the junk, [flatten] the text with it.  No junk stands in front of
    the first symbol. *)
Definition symbols_of (its : list (Z * list Z)) : list Z := map fst its.

Definition flatten (its : list (Z * list Z)) : list Z :=
  flat_map (fun it => fst it :: snd it) its.

Definition bare (its : list (Z * list Z)) : list (Z * list Z) :=
  map (fun it => (fst it, @nil Z)) its.

Definition well_formed (decodes_oob : Z -> Z) (it : Z * list Z) : Prop :=
  symbol_byte decodes_oob (fst it) /\ Forall (junk_byte decodes_oob) (snd it).

(** No junk directly behind a ['=']. *)
Definition pad_clean (it : Z * list Z) : Prop :=
  fst it = ch_eq -> snd it = [].

(** The six bits a character stands for: [BITVAL((size_t)tmp)]. *)
Definition sextet (char_signed : bool) (decodes_oob : Z -> Z) (x : Z) : Z :=
  BITVAL decodes_oob (size_t_of (to_char char_signed x)).

(** The three bytes the loop of the decoder stores for four symbols. *)
Definition decoded_group (char_signed : bool) (decodes_oob : Z -> Z)
           (x1 x2 x3 x4 : Z) : list Z :=
  [ Z.lor (Z.shiftl (sextet char_signed decodes_oob x1) 2)
          (Z.shiftr (sextet char_signed decodes_oob x2) 4) mod 256;
    Z.lor (Z.shiftl (sextet char_signed decodes_oob x2) 4)
          (Z.shiftr (sextet char_signed decodes_oob x3) 2) mod 256;
    Z.lor (Z.shiftl (sextet char_signed decodes_oob x3) 6)
          (sextet char_signed decodes_oob x4) mod 256 ].

Fixpoint decoded (char_signed : bool) (decodes_oob : Z -> Z)
         (syms : list Z) : list Z :=
  match syms with
  | x1 :: x2 :: x3 :: x4 :: tl =>
      decoded_group char_signed decodes_oob x1 x2 x3 x4
      ++ decoded char_signed decodes_oob tl
  | _ => []
  end.

(** The number of bytes the padding test takes back: the ['='] among the
    last two bytes of a text. *)
Definition pads_of (l : list Z) : Z :=
  if last l 0 =? ch_eq then
    if last (removelast l) 0 =? ch_eq then 2 else 1
  else 0.

(** A character of a valid text that is not ['A']: a symbol of one of the
    alphabets, or the pad. *)
Definition clean_symbol (c : Z) : Prop :=
  (in_alphabets c = true \/ c = ch_eq) /\ c <> ch_A.

(** A byte of neither alphabet that is neither ['='] nor [',']. *)
Definition foreign_byte (c : Z) : Prop :=
  0 <= c < 256 /\ in_alphabets c = false /\ c <> ch_eq /\ c <> ch_comma.

(** A character of a text with the foreign bytes inserted behind it. *)
Definition insertion_ok (it : Z * list Z) : Prop :=
  clean_symbol (fst it) /\ Forall foreign_byte (snd it) /\ pad_clean it.

(** *** Texts as the encoder writes them *)

(** The four characters the encoder writes for three bytes. *)
Definition encoded_group (cs : bool) (tbl : list Z) (b1 b2 b3 : Z) : list Z :=
  let tmp1 := to_char cs b1 in
  let tmp2 := to_char cs b2 in
  let tmp3 := to_char cs b3 in
  [ char_at tbl (Z.land (Z.shiftr tmp1 2) 63) mod 256;
    char_at tbl (Z.lor (Z.shiftl (Z.land tmp1 3) 4)
                       (Z.land (Z.shiftr tmp2 4) 15)) mod 256;
    char_at tbl (Z.lor (Z.shiftl (Z.land tmp2 15) 2)
                       (Z.land (Z.shiftr tmp3 6) 3)) mod 256;
    char_at tbl (Z.land tmp3 63) mod 256 ].

(** The four characters it writes for one or two bytes left over. *)
Definition encoded_tail (cs : bool) (tbl : list Z) (bs : list Z) : list Z :=
  match bs with
  | [b1] =>
      let tmp1 := to_char cs b1 in
      [ char_at tbl (Z.land (Z.shiftr tmp1 2) 63) mod 256;
        char_at tbl (Z.shiftl (Z.land tmp1 3) 4) mod 256;
        ch_eq; ch_eq ]
  | [b1; b2] =>
      let tmp1 := to_char cs b1 in
      let tmp2 := to_char cs b2 in
      [ char_at tbl (Z.land (Z.shiftr tmp1 2) 63) mod 256;
        char_at tbl (Z.lor (Z.shiftl (Z.land tmp1 3) 4)
                           (Z.land (Z.shiftr tmp2 4) 15)) mod 256;
        char_at tbl (Z.shiftl (Z.land tmp2 15) 2) mod 256;
        ch_eq ]
  | _ => []
  end.

(** The Base64 text of a byte sequence. *)
Fixpoint encoded (cs : bool) (tbl : list Z) (bs : list Z) : list Z :=
  match bs with
  | b1 :: b2 :: b3 :: tl => encoded_group cs tbl b1 b2 b3 ++ encoded cs tbl tl
  | _ => encoded_tail cs tbl bs
  end.

(** Whole groups of three bytes, laid end to end. *)
Definition groups3 (gs : list (Z * Z * Z)) : list Z :=
  flat_map (fun g => [fst (fst g); snd (fst g); snd g]) gs.

Definition encoded_groups3 (cs : bool) (tbl : list Z) (gs : list (Z * Z * Z))
  : list Z :=
  flat_map (fun g => encoded_group cs tbl (fst (fst g)) (snd (fst g)) (snd g))
           gs.

(** A text without junk, as a list of symbols with nothing behind them. *)
Definition plain (l : list Z) : list (Z * list Z) :=
  map (fun c => (c, @nil Z)) l.

(** *** Texts of any length *)

(** The bytes the [switch] behind the loop of the decoder stores for the
    one, two or three characters left over. *)
Definition decoded_tail (char_signed : bool) (decodes_oob : Z -> Z)
           (tl : list Z) : list Z :=
  match tl with
  | [x1] => [ sextet char_signed decodes_oob x1 mod 256 ]
  | [x1; x2] =>
      [ Z.lor (Z.shiftl (sextet char_signed decodes_oob x1) 2)
              (Z.shiftr (sextet char_signed decodes_oob x2) 6) mod 256;
        Z.shiftl (sextet char_signed decodes_oob x2) 4 mod 256 ]
  | [x1; x2; x3] =>
      [ Z.lor (Z.shiftl (sextet char_signed decodes_oob x1) 2)
              (Z.shiftr (sextet char_signed decodes_oob x2) 6) mod 256;
        Z.lor (Z.shiftl (sextet char_signed decodes_oob x2) 4)
              (Z.shiftr (sextet char_signed decodes_oob x3) 2) mod 256;
        Z.shiftl (sextet char_signed decodes_oob x3) 6 mod 256 ]
  | _ => []
  end.

(** *** Base64 by arithmetic *)

(** The characters RFC 4648 gives three bytes: the 24 bits of
    [b1 * 2^16 + b2 * 2^8 + b3], six at a time from the top. *)
Definition rfc_group (tbl : list Z) (b1 b2 b3 : Z) : list Z :=
  let n := b1 * 65536 + b2 * 256 + b3 in
  [ char_at tbl (n / 262144); char_at tbl ((n / 4096) mod 64);
    char_at tbl ((n / 64) mod 64); char_at tbl (n mod 64) ].

(** The encoding of a byte sequence by that rule; a last group of one or
    two bytes is filled up with zero bits and closed with ['=']. *)
Fixpoint rfc_base64 (tbl : list Z) (bs : list Z) : list Z :=
  match bs with
  | b1 :: b2 :: b3 :: tl => rfc_group tbl b1 b2 b3 ++ rfc_base64 tbl tl
  | [b1; b2] => firstn 3 (rfc_group tbl b1 b2 0) ++ [ch_eq]
  | [b1] => firstn 2 (rfc_group tbl b1 0 0) ++ [ch_eq; ch_eq]
  | [] => []
  end.

(** The character of the URL-safe alphabet that stands where [c] does in
    the standard one: ['-'] for ['+'], ['_'] for ['/']. *)
Definition url_of (c : Z) : Z :=
  if c =? 43 then 45 else if c =? 47 then 95 else c.

(** *** The generation script of the backward table *)

(** [a[i] = v], for an index inside the array. *)
Fixpoint array_set {A : Type} (a : list A) (i : nat) (v : A) : list A :=
  match a, i with
  | [], _ => []
  | _ :: a', O => v :: a'
  | x :: a', S i' => x :: array_set a' i' v
  end.

(** [s.length.times {|i| a[s[i]] = i }] *)
Definition script_pass (a : list (option Z)) (s : list Z) : list (option Z) :=
  fold_left (fun a i => array_set a (Z.to_nat (nth i s 0)) (Some (Z.of_nat i)))
            (seq 0 (List.length s)) a.

(** The Ruby script quoted in the source above [base64_decodes]:
    [a = []; a[255] = 0], one pass for each of the three alphabets, and
    [a.map!{ |i| i.to_i }], which turns the entries never set into 0. *)
Definition script_table : list Z :=
  let a := repeat None 255 ++ [Some 0] in
  let a := script_pass a (bytes_of_string
    "ABCDEFGHIJKLMNOPQRSTUVWXYZabcdefghijklmnopqrstuvwxyz0123456789+/=") in
  let a := script_pass a (bytes_of_string
    "ABCDEFGHIJKLMNOPQRSTUVWXYZabcdefghijklmnopqrstuvwxyz0123456789+,") in
  let a := script_pass a (bytes_of_string
    "ABCDEFGHIJKLMNOPQRSTUVWXYZabcdefghijklmnopqrstuvwxyz0123456789-_") in
  map (fun o => match o with Some v => v | None => 0 end) a.

(* ------------------------------------------------------------------ *)
(** ** The self-test [fio_base64_test] *)

(** [strlen]: the number of bytes in front of the first zero. *)
Fixpoint strlen (fuel : nat) (m : mem) (s : Z) : option Z :=
  if load8 m s =? 0 then Some 0
  else
    match fuel with
    | O => None
    | S fuel' => let* n := strlen fuel' m (s + 1) in Some (n + 1)
    end.

(** [strcmp]: the difference of the first two bytes that differ, read as
    [unsigned char]; 0 when the strings end without any. *)
Fixpoint strcmp (fuel : nat) (m : mem) (a b : Z) : option Z :=
  if negb (load8 m a =? load8 m b) then Some (load8 m a - load8 m b)
  else if load8 m a =? 0 then Some 0
  else
    match fuel with
    | O => None
    | S fuel' => strcmp fuel' m (a + 1) (b + 1)
    end.

(** What the test writes to [stderr]: a fixed text, the failure message
    of the first or of the second loop for the set of index [i], or the
    line with the time taken. *)
Inductive report : Type :=
| Say (s : string)
| EncodeFailed (i : nat)
| DecodeFailed (i : nat)
| Timing.

Definition newline : string := String (ascii_of_nat 10) EmptyString.

(** The entries of [sets], up to the [{NULL, NULL}] that stops the
    loops. *)
Definition test_vectors : list (string * string) :=
  [ ("Man is distinguished, not only by his reason, but by this singular passion from other animals, which is a lust of the mind, that by a perseverance of delight in the continued and indefatigable generation of knowledge, exceeds the short vehemence of any carnal pleasure."%string,
     "TWFuIGlzIGRpc3Rpbmd1aXNoZWQsIG5vdCBvbmx5IGJ5IGhpcyByZWFzb24sIGJ1dCBieSB0aGlzIHNpbmd1bGFyIHBhc3Npb24gZnJvbSBvdGhlciBhbmltYWxzLCB3aGljaCBpcyBhIGx1c3Qgb2YgdGhlIG1pbmQsIHRoYXQgYnkgYSBwZXJzZXZlcmFuY2Ugb2YgZGVsaWdodCBpbiB0aGUgY29udGludWVkIGFuZCBpbmRlZmF0aWdhYmxlIGdlbmVyYXRpb24gb2Yga25vd2xlZGdlLCBleGNlZWRzIHRoZSBzaG9ydCB2ZWhlbWVuY2Ugb2YgYW55IGNhcm5hbCBwbGVhc3VyZS4="%string);
    ("any carnal pleasure."%string, "YW55IGNhcm5hbCBwbGVhc3VyZS4="%string);
    ("any carnal pleasure"%string, "YW55IGNhcm5hbCBwbGVhc3VyZQ=="%string);
    ("any carnal pleasur"%string, "YW55IGNhcm5hbCBwbGVhc3Vy"%string);
    (""%string, ""%string);
    ("f"%string, "Zg=="%string);
    ("fo"%string, "Zm8="%string);
    ("foo"%string, "Zm9v"%string);
    ("foob"%string, "Zm9vYg=="%string);
    ("fooba"%string, "Zm9vYmE="%string);
    ("foobar"%string, "Zm9vYmFy"%string) ].

(** The string literals in memory, each with its terminating zero, from
    address [a] on, and the pointers [sets] holds to them. *)
Fixpoint lay_out (m : mem) (a : Z) (vs : list (string * string))
  : mem * list (Z * Z) :=
  match vs with
  | [] => (m, [])
  | (s, b) :: vs' =>
      let ls := bytes_of_string s ++ [0] in
      let lb := bytes_of_string b ++ [0] in
      let m := place (place m a ls) (a + len_of ls) lb in
      let '(m', sets) := lay_out m (a + len_of ls + len_of lb) vs' in
      (m', (a, a + len_of ls) :: sets)
  end.

(** Where the test's data lie: [char buffer[1024]], the 21 bytes of
    [buff_b64] behind it, and the literals. *)
Definition at_buffer : Z := 1024.
Definition at_buff_b64 : Z := 2048.
Definition at_literals : Z := 4096.

Section SelfTest.
Variable char_signed : bool.
Variable decodes_oob : Z -> Z.

(** The first loop: encode every [str] into [buffer] and compare with
    [base64]; [Some i] is the index the loop broke at. *)
Fixpoint test_encode_sets (fuel : nat) (m : mem) (sets : list (Z * Z))
         (i : nat) : option (mem * option nat) :=
  match sets with
  | [] => Some (m, None)
  | (str, base64) :: rest =>
      let* len := strlen fuel m str in
      let* (m, _) := fio_base64_encode char_signed fuel m at_buffer str len in
      let* c := strcmp fuel m at_buffer base64 in
      if negb (c =? 0) then Some (m, Some i)
      else test_encode_sets fuel m rest (S i)
  end.

(** The second loop: decode every [base64] into [buffer] and compare
    with [str]. *)
Fixpoint test_decode_sets (fuel : nat) (m : mem) (sets : list (Z * Z))
         (i : nat) : option (mem * option nat) :=
  match sets with
  | [] => Some (m, None)
  | (str, base64) :: rest =>
      let* len := strlen fuel m base64 in
      let* (m, _) := fio_base64_decode char_signed decodes_oob fuel m
                                       at_buffer base64 len in
      let* c := strcmp fuel m at_buffer str in
      if negb (c =? 0) then Some (m, Some i)
      else test_decode_sets fuel m rest (S i)
  end.

(** Both loops with what they print; the flag tells whether the
    function goes on to the timing block (it returns from the second
    loop when a set fails there). *)
Definition test_sets (fuel : nat) (m : mem) (sets : list (Z * Z))
  : option (mem * list report * bool) :=
  let out := [Say "+ fio"] in
  let* (m, broke) := test_encode_sets fuel m sets 0 in
  let out :=
    out ++ match broke with
           | Some i => [EncodeFailed i]
           | None => [Say (String.append " Base64 encode passed." newline)]
           end in
  let out := out ++ [Say "+ fio"] in
  let* (m, broke) := test_decode_sets fuel m sets 0 in
  match broke with
  | Some i => Some (m, out ++ [DecodeFailed i], false)
  | None => Some (m, out ++ [Say (String.append " Base64 decode passed." newline)], true)
  end.

(** The body of the timing loop, [n] times: encode the 20 bytes of
    [buff_b64] into [buffer] and decode them back into [buff_b64]. *)
Fixpoint test_rounds (fuel : nat) (n : nat) (m : mem) : option mem :=
  match n with
  | O => Some m
  | S n' =>
      let* (m, b64_len) :=
        fio_base64_encode char_signed fuel m at_buffer at_buff_b64 20 in
      let* (m, _) :=
        fio_base64_decode char_signed decodes_oob fuel m
                          at_buff_b64 at_buffer b64_len in
      test_rounds fuel n' m
  end.

(** [fio_base64_test]: what it prints.  [m] is the memory it finds, the
    contents of its uninitialised [buffer] included. *)
Definition fio_base64_test (fuel : nat) (m : mem) : option (list report) :=
  let '(m, sets) := lay_out m at_literals test_vectors in
  let* (m, out, go_on) := test_sets fuel m sets in
  if go_on then
    let m := place m at_buff_b64
                   (bytes_of_string "any carnal pleasure." ++ [0]) in
    let* _ := test_rounds fuel (Z.to_nat 100000) m in
    Some (out ++ [Timing])
  else Some out.

End SelfTest.

(* ------------------------------------------------------------------ *)
(** ** Fixtures *)

(** A memory whose every cell holds 0xAA, so that a cell no run has
    written stands out. *)
Definition scratch : mem := blank 170.

(** A target without out-of-table reads to fix. *)
Definition no_oob : Z -> Z := fun _ => 0.

(** Addresses used by the examples: raw data, Base64 text, output. *)
Definition at_data : Z := 100.
Definition at_text : Z := 200.
Definition at_out : Z := 300.

(** [s] laid out at [a] in [scratch]. *)
Definition with_text (a : Z) (s : string) : mem :=
  place scratch a (bytes_of_string s).

(** Encoding the string [s] with the standard alphabet: value returned
    and the bytes written, terminator slot included. *)
Definition encode_string (char_signed : bool) (s : string)
  : option (Z * list Z) :=
  let len := Z.of_nat (String.length s) in
  observe (S (Z.to_nat (encoded_size len))) at_text
          (fio_base64_encode char_signed (String.length s)
                             (with_text at_data s) at_text at_data len).

(** Decoding the string [s]: value returned and the first [n] bytes of
    the output buffer. *)
Definition decode_string (char_signed : bool) (s : string) (n : nat)
  : option (Z * list Z) :=
  observe n at_out
          (fio_base64_decode char_signed no_oob (String.length s)
                             (with_text at_text s) at_out at_text
                             (Z.of_nat (String.length s))).

(** Decoding the bytes [l], laid out at [at_text], into [target]. *)
Definition decode_text (char_signed : bool) (l : list Z) (target : Z)
  : option (mem * Z) :=
  fio_base64_decode char_signed no_oob (List.length l)
                    (place scratch at_text l) target at_text (len_of l).

(** "Zm9v" with a newline behind 'Z' and a blank and a newline behind
    '9'. *)
Definition foo_with_breaks : list (Z * list Z) :=
  [ (90, [ch_nl]); (109, []); (57, [32; ch_nl]); (118, []) ].

(** "Zm9vYg==" with a newline behind every fourth character and "Zm9vYmE"
    without its pad: the symbols in groups of four, and what is left. *)
Definition foob_with_breaks : list (Z * list Z) :=
  [ (90, []); (109, []); (57, []); (118, [ch_nl]);
    (89, []); (103, []); (ch_eq, []); (ch_eq, []) ].

Definition fooba_groups : list (Z * list Z) :=
  [ (90, []); (109, []); (57, []); (118, []) ].

Definition fooba_rest : list Z := [89; 109; 69].

(** Four bytes with their top bits set; their Base64 text is "----_w==" in
    the URL-safe alphabet. *)
Definition high_bytes : list Z := [251; 239; 190; 255].

(* ------------------------------------------------------------------ *)
(** ** Proof automation *)

(** Reads of a memory built by stores: compare the addresses. *)
Ltac cells :=
  unfold load8, store8;
  repeat match goal with
         | |- context [?x =? ?y] => destruct (Z.eqb_spec x y); try lia
         end.

(** Range side conditions of [wrap_int] at the head of the encoder. *)
Ltac in_int_range :=
  unfold INT_MIN, INT_MAX in *;
  repeat match goal with
         | H : context [if ?b then _ else _] |- _ => destruct b
         | |- context [if ?b then _ else _] => destruct b
         end;
  Z.to_euclidean_division_equations; lia.

(* ------------------------------------------------------------------ *)
(** ** Arithmetic, memory and table lemmas *)

Lemma wrap_int_id z : INT_MIN <= z <= INT_MAX -> wrap_int z = z.
Proof.
  unfold wrap_int, INT_MIN, INT_MAX. intros H.
  change (2 ^ 31) with 2147483648. change (2 ^ 32) with 4294967296.
  rewrite Z.mod_small; lia.
Qed.

Lemma load8_store8 m a v x :
  load8 (store8 m a v) x = if x =? a then v mod 256 else load8 m x.
Proof.
  unfold load8, store8. destruct (x =? a); [apply Z.mod_mod; lia | reflexivity].
Qed.

Lemma load8_range m a : 0 <= load8 m a < 256.
Proof. unfold load8. apply Z.mod_pos_bound. lia. Qed.

Lemma land_low_bound t n : 0 <= n -> 0 <= Z.land t (Z.ones n) < 2 ^ n.
Proof.
  intros Hn. rewrite Z.land_ones by assumption. apply Z.mod_pos_bound.
  apply Z.pow_pos_nonneg; lia.
Qed.

Lemma land63 t : 0 <= Z.land t 63 < 64.
Proof. exact (land_low_bound t 6 ltac:(lia)). Qed.
Lemma land15 t : 0 <= Z.land t 15 < 16.
Proof. exact (land_low_bound t 4 ltac:(lia)). Qed.
Lemma land3 t : 0 <= Z.land t 3 < 4.
Proof. exact (land_low_bound t 2 ltac:(lia)). Qed.

Lemma lor_below a b n :
  0 <= n -> 0 <= a < 2 ^ n -> 0 <= b < 2 ^ n -> 0 <= Z.lor a b < 2 ^ n.
Proof.
  intros Hn Ha Hb. split; [apply Z.lor_nonneg; lia|].
  destruct (Z.eq_dec a 0) as [->|Na]; [rewrite Z.lor_0_l; lia|].
  destruct (Z.eq_dec b 0) as [->|Nb]; [rewrite Z.lor_0_r; lia|].
  apply Z.log2_lt_pow2; [|rewrite Z.log2_lor by lia].
  - assert (0 <= Z.lor a b) by (apply Z.lor_nonneg; lia).
    assert (Z.lor a b <> 0) by (rewrite Z.lor_eq_0_iff; lia). lia.
  - apply Z.max_lub_lt; apply Z.log2_lt_pow2; lia.
Qed.

Lemma idx_hi t : 0 <= Z.land (Z.shiftr t 2) 63 < 64.
Proof. apply land63. Qed.
Lemma idx_mid1 t1 t2 :
  0 <= Z.lor (Z.shiftl (Z.land t1 3) 4) (Z.land (Z.shiftr t2 4) 15) < 64.
Proof.
  apply (lor_below _ _ 6); [lia| |pose proof (land15 (Z.shiftr t2 4)); simpl; lia].
  rewrite Z.shiftl_mul_pow2 by lia. pose proof (land3 t1).
  change (2 ^ 4) with 16. change (2 ^ 6) with 64. lia.
Qed.
Lemma idx_mid2 t2 t3 :
  0 <= Z.lor (Z.shiftl (Z.land t2 15) 2) (Z.land (Z.shiftr t3 6) 3) < 64.
Proof.
  apply (lor_below _ _ 6); [lia| |pose proof (land3 (Z.shiftr t3 6)); simpl; lia].
  rewrite Z.shiftl_mul_pow2 by lia. pose proof (land15 t2).
  change (2 ^ 2) with 4. change (2 ^ 6) with 64. lia.
Qed.
Lemma idx_pad2 t2 : 0 <= Z.shiftl (Z.land t2 15) 2 < 64.
Proof.
  rewrite Z.shiftl_mul_pow2 by lia. pose proof (land15 t2).
  change (2 ^ 2) with 4. lia.
Qed.
Lemma idx_pad1 t1 : 0 <= Z.shiftl (Z.land t1 3) 4 < 64.
Proof.
  rewrite Z.shiftl_mul_pow2 by lia. pose proof (land3 t1).
  change (2 ^ 4) with 16. lia.
Qed.


Lemma alphabet_ok_at tbl i :
  alphabet_ok tbl = true -> 0 <= i < 64 ->
  is_symbol tbl (char_at tbl i mod 256) = true /\ char_at tbl i mod 256 <> ch_eq.
Proof.
  intros Hok Hi. unfold alphabet_ok in Hok. rewrite forallb_forall in Hok.
  specialize (Hok (Z.to_nat i)). rewrite Z2Nat.id in Hok by lia.
  assert (Hin : In (Z.to_nat i) (seq 0 64)) by (apply in_seq; lia).
  apply Hok in Hin. apply andb_true_iff in Hin. destruct Hin as [H1 H2].
  split; [assumption|]. apply negb_true_iff in H2. apply Z.eqb_neq. assumption.
Qed.

Lemma original_ok : alphabet_ok base64_encodes_original = true.
Proof. vm_compute. reflexivity. Qed.
Lemma url_ok : alphabet_ok base64_encodes_url = true.
Proof. vm_compute. reflexivity. Qed.

Section EncoderFacts.
Variable cs : bool.
Variable tbl : list Z.


Lemma encode_group_at m r w a :
  encode_group cs tbl m r w a =
  let tmp3 := load_char cs m r in
  let tmp2 := load_char cs m (r - 1) in
  let tmp1 := load_char cs m (r - 2) in
  if a =? w - 3 then char_at tbl (Z.land (Z.shiftr tmp1 2) 63) mod 256
  else if a =? w - 2 then
    char_at tbl (Z.lor (Z.shiftl (Z.land tmp1 3) 4)
                       (Z.land (Z.shiftr tmp2 4) 15)) mod 256
  else if a =? w - 1 then
    char_at tbl (Z.lor (Z.shiftl (Z.land tmp2 15) 2)
                       (Z.land (Z.shiftr tmp3 6) 3)) mod 256
  else if a =? w then char_at tbl (Z.land tmp3 63) mod 256
  else m a.
Proof. reflexivity. Qed.

Lemma encode_group_frame m r w a :
  a < w - 3 \/ w < a -> encode_group cs tbl m r w a = m a.
Proof.
  intros H. rewrite encode_group_at. cbv zeta.
  repeat match goal with
         | |- context [?x =? ?y] => destruct (Z.eqb_spec x y); [lia|]
         end.
  reflexivity.
Qed.

Lemma mod256_idem v : (v mod 256) mod 256 = v mod 256.
Proof. apply Z.mod_mod. lia. Qed.

Lemma encode_group_cells m r w a :
  w - 3 <= a <= w -> symbol_cell tbl (encode_group cs tbl m r w) a.
Proof.
  intros H. unfold symbol_cell, load8. rewrite encode_group_at. cbv zeta.
  repeat match goal with
         | |- context [?x =? ?y] => destruct (Z.eqb_spec x y)
         end; try lia;
    rewrite mod256_idem; eexists; (split; [|reflexivity]).
  - apply idx_hi.
  - apply idx_mid1.
  - apply idx_mid2.
  - apply land63.
Qed.

Lemma symbol_cell_ext m m' a :
  m' a = m a -> symbol_cell tbl m a -> symbol_cell tbl m' a.
Proof. unfold symbol_cell, load8. intros ->. trivial. Qed.

Lemma int_pred_of_nat g :
  Z.of_nat (S g) <= INT_MAX -> int_sub (Z.of_nat (S g)) 1 = Z.of_nat g.
Proof.
  intros H. unfold int_sub. rewrite wrap_int_id; unfold INT_MIN, INT_MAX in *; lia.
Qed.

Lemma encode_groups_step fuel m g r w :
  Z.of_nat (S g) <= INT_MAX ->
  encode_groups cs (S fuel) tbl m (Z.of_nat (S g)) r w =
  encode_groups cs fuel tbl (encode_group cs tbl m r w) (Z.of_nat g) (r - 3) (w - 4).
Proof.
  intros H. cbn [encode_groups].
  destruct (Z.eqb_spec (Z.of_nat (S g)) 0); [lia|].
  rewrite int_pred_of_nat by assumption. reflexivity.
Qed.

Lemma encode_groups_done fuel m r w :
  encode_groups cs fuel tbl m 0 r w = Some m.
Proof. destruct fuel; reflexivity. Qed.

(** The loop over [g] whole groups ends, leaves everything outside the
    [4 * g] cells below [w] alone and fills these with symbols. *)
Lemma encode_groups_cells : forall (g fuel : nat) m r w,
  (g <= fuel)%nat -> Z.of_nat g <= INT_MAX ->
  exists m',
    encode_groups cs fuel tbl m (Z.of_nat g) r w = Some m' /\
    (forall a, a <= w - 4 * Z.of_nat g \/ w < a -> m' a = m a) /\
    (forall a, w - 4 * Z.of_nat g < a <= w -> symbol_cell tbl m' a).
Proof.
  induction g as [|g IH]; intros fuel m r w Hf Hg.
  - exists m. rewrite encode_groups_done.
    split; [reflexivity|]. split; [reflexivity|]. intros a Ha. lia.
  - destruct fuel as [|fuel]; [lia|].
    rewrite encode_groups_step by assumption.
    destruct (IH fuel (encode_group cs tbl m r w) (r - 3) (w - 4))
      as (m' & E & F & C); [lia|lia|].
    exists m'. split; [exact E|]. split.
    + intros a Ha. rewrite F by lia. apply encode_group_frame. lia.
    + intros a Ha. destruct (Z_le_gt_dec a (w - 4)) as [L|L].
      * apply C. lia.
      * apply symbol_cell_ext with (m := encode_group cs tbl m r w).
        -- apply F. lia.
        -- apply encode_group_cells. lia.
Qed.

End EncoderFacts.

Lemma encoded_size_split len :
  0 <= len ->
  encoded_size len = 4 * (len / 3) + (if len mod 3 =? 0 then 0 else 4).
Proof.
  intros H. unfold encoded_size.
  destruct (Z.eqb_spec (len mod 3) 0); Z.to_euclidean_division_equations; lia.
Qed.

Section EncoderTop.
Variable cs : bool.
Variable tbl : list Z.

(** The integer arithmetic at the head of the encoder, for a length
    whose encoded size fits an [int]. *)
Lemma encode_internal_unfold fuel m target data len :
  0 <= len -> encoded_size len <= INT_MAX ->
  fio_base64_encode_internal cs fuel m target data len tbl =
  let '(m1, r, w) :=
    encode_partial cs tbl (store8 m (target + encoded_size len) 0)
                   (len mod 3) (data + len - 1)
                   (target + encoded_size len - 1) in
  match encode_groups cs fuel tbl m1 (len / 3) r w with
  | Some m2 => Some (m2, encoded_size len)
  | None => None
  end.
Proof.
  intros H0 Hs. pose proof (encoded_size_split len H0) as Hsz.
  unfold fio_base64_encode_internal.
  rewrite Z.quot_div_nonneg by lia.
  assert (Hmd : int_sub len (int_mul (len / 3) 3) = len mod 3).
  { unfold int_sub, int_mul.
    rewrite (wrap_int_id (len / 3 * 3)) by in_int_range.
    rewrite wrap_int_id by in_int_range.
    Z.to_euclidean_division_equations; lia. }
  rewrite Hmd.
  assert (Hts : int_mul (int_add (len / 3) (if len mod 3 =? 0 then 0 else 1)) 4
                = encoded_size len).
  { unfold int_mul, int_add.
    rewrite (wrap_int_id (len / 3 + _)) by in_int_range.
    rewrite wrap_int_id by in_int_range.
    rewrite Hsz. destruct (len mod 3 =? 0); lia. }
  rewrite Hts.
  replace (target + encoded_size len - 1 + 1) with (target + encoded_size len)
    by lia.
  reflexivity.
Qed.

End EncoderTop.


Lemma symbol_cell_good tbl m a :
  alphabet_ok tbl = true -> symbol_cell tbl m a ->
  is_symbol tbl (load8 m a) = true /\ load8 m a <> ch_eq.
Proof.
  intros Hok (i & Hi & E). rewrite E. apply alphabet_ok_at; assumption.
Qed.

Section InPlace.
Variable cs : bool.
Variable tbl : list Z.

Lemma load_char_ext (mA mB : mem) a b :
  load8 mA a = load8 mB b -> load_char cs mA a = load_char cs mB b.
Proof. unfold load_char. intros ->. reflexivity. Qed.

(** Two runs of the group loop over the same data at [buf], one writing
    over the data itself, one writing at [out]: as long as the unread
    data is the same in both memories, so is what the runs write. *)
Lemma encode_groups_sim : forall (g fuel : nat) (mA mB : mem) (buf out : Z),
  (g <= fuel)%nat -> Z.of_nat g <= INT_MAX ->
  out + 4 * Z.of_nat g <= buf \/ buf + 3 * Z.of_nat g <= out ->
  (forall j, 0 <= j < 3 * Z.of_nat g ->
             load8 mA (buf + j) = load8 mB (buf + j)) ->
  exists mA' mB',
    encode_groups cs fuel tbl mA (Z.of_nat g)
                  (buf + 3 * Z.of_nat g - 1) (buf + 4 * Z.of_nat g - 1)
      = Some mA' /\
    encode_groups cs fuel tbl mB (Z.of_nat g)
                  (buf + 3 * Z.of_nat g - 1) (out + 4 * Z.of_nat g - 1)
      = Some mB' /\
    (forall a, a < buf \/ buf + 4 * Z.of_nat g <= a -> mA' a = mA a) /\
    (forall a, a < out \/ out + 4 * Z.of_nat g <= a -> mB' a = mB a) /\
    (forall i, 0 <= i < 4 * Z.of_nat g ->
               load8 mA' (buf + i) = load8 mB' (out + i)).
Proof.
  induction g as [|g IH]; intros fuel mA mB buf out Hf Hg Hd Hsame.
  - exists mA, mB. rewrite !encode_groups_done.
    repeat (split; [reflexivity|]). intros i Hi. lia.
  - destruct fuel as [|fuel]; [lia|].
    rewrite !encode_groups_step by assumption.
    set (r := buf + 3 * Z.of_nat (S g) - 1).
    set (wA := buf + 4 * Z.of_nat (S g) - 1).
    set (wB := out + 4 * Z.of_nat (S g) - 1).
    replace (r - 3) with (buf + 3 * Z.of_nat g - 1) by (unfold r; lia).
    replace (wA - 4) with (buf + 4 * Z.of_nat g - 1) by (unfold wA; lia).
    replace (wB - 4) with (out + 4 * Z.of_nat g - 1) by (unfold wB; lia).
    assert (L3 : load_char cs mA r = load_char cs mB r).
    { apply load_char_ext.
      replace r with (buf + (3 * Z.of_nat g + 2)) by (unfold r; lia).
      apply Hsame. lia. }
    assert (L2 : load_char cs mA (r - 1) = load_char cs mB (r - 1)).
    { apply load_char_ext.
      replace (r - 1) with (buf + (3 * Z.of_nat g + 1)) by (unfold r; lia).
      apply Hsame. lia. }
    assert (L1 : load_char cs mA (r - 2) = load_char cs mB (r - 2)).
    { apply load_char_ext.
      replace (r - 2) with (buf + 3 * Z.of_nat g) by (unfold r; lia).
      apply Hsame. lia. }
    destruct (IH fuel (encode_group cs tbl mA r wA)
                 (encode_group cs tbl mB r wB) buf out)
      as (mA' & mB' & EA & EB & FA & FB & S); [lia|lia|lia| |].
    { intros j Hj. unfold load8.
      rewrite !encode_group_frame by (unfold wA, wB; lia).
      apply Hsame. lia. }
    exists mA', mB'. split; [exact EA|]. split; [exact EB|].
    split; [|split].
    + intros a Ha. rewrite FA by lia. apply encode_group_frame.
      unfold wA. lia.
    + intros a Ha. rewrite FB by lia. apply encode_group_frame.
      unfold wB. lia.
    + intros i Hi.
      destruct (Z_lt_ge_dec i (4 * Z.of_nat g)) as [L|L]; [apply S; lia|].
      unfold load8. rewrite FA, FB by lia.
      rewrite !encode_group_at. cbv zeta. rewrite L1, L2, L3.
      unfold wA, wB.
      repeat match goal with
             | |- context [?x =? ?y] => destruct (Z.eqb_spec x y); try lia
             end; reflexivity.
Qed.

End InPlace.

(* ------------------------------------------------------------------ *)
(** ** Decoder lemmas *)

Lemma decodes_at_byte oob c :
  0 <= c < 256 -> decodes_at oob c = nth (Z.to_nat c) base64_decodes 0.
Proof.
  intros H. unfold decodes_at.
  destruct (Z.leb_spec 0 c); [|lia]. destruct (Z.ltb_spec c 256); [|lia].
  reflexivity.
Qed.

Lemma zero_valued_table :
  forallb (fun n => Bool.eqb (nth n base64_decodes 0 =? 0)
                             (zero_valued (Z.of_nat n)))
          (seq 0 256) = true.
Proof. vm_compute. reflexivity. Qed.

Lemma zero_valued_bytes oob c :
  0 <= c < 256 -> (decodes_at oob c =? 0) = zero_valued c.
Proof.
  intros H. rewrite decodes_at_byte by assumption.
  pose proof zero_valued_table as T. rewrite forallb_forall in T.
  specialize (T (Z.to_nat c)). rewrite Z2Nat.id in T by lia.
  apply eqb_prop. apply T. apply in_seq. lia.
Qed.

Section DecoderFacts.
Variable cs : bool.
Variable oob : Z -> Z.

Lemma skip_at_start_done fuel m encoded :
  skip_at_start oob fuel m 0 encoded = Some (0, encoded).
Proof. destruct fuel; reflexivity. Qed.

Lemma skip_test_zero_valued m len encoded :
  len <> 0 -> decodes_at oob (load8 m encoded) = 0 ->
  skip_test oob m len encoded = true.
Proof.
  intros Hl Hz. unfold skip_test. rewrite Hz.
  destruct (Z.eqb_spec len 0); [contradiction|reflexivity].
Qed.

(** The first skip loop looks at the same byte again and again: when
    that byte has table value 0 the whole length is counted away. *)
Lemma skip_at_start_exhausts : forall (fuel : nat) m len encoded,
  0 <= len <= INT_MAX ->
  decodes_at oob (load8 m encoded) = 0 ->
  (Z.to_nat len <= fuel)%nat ->
  skip_at_start oob fuel m len encoded = Some (0, encoded).
Proof.
  induction fuel as [|fuel IH]; intros m len encoded Hl Hz Hf.
  - replace len with 0 by lia. reflexivity.
  - destruct (Z.eq_dec len 0) as [->|Hn]; [apply skip_at_start_done|].
    cbn [skip_at_start]. rewrite skip_test_zero_valued by assumption.
    unfold int_sub. rewrite wrap_int_id by (unfold INT_MIN, INT_MAX in *; lia).
    apply IH; [lia|assumption|lia].
Qed.

Lemma decode_groups_short fuel sfuel m target encoded len written :
  len < 4 ->
  decode_groups cs oob fuel sfuel m target encoded len written
  = Some (Tail m target encoded len written).
Proof.
  intros H. destruct fuel; cbn [decode_groups];
    destruct (Z.leb_spec 4 len); try lia; reflexivity.
Qed.

(** What the padding test and the terminator do to a memory. *)
Lemma decode_finish_shape m target encoded :
  exists k, 0 <= k <= 2 /\
    decode_finish cs m target encoded 0 = (store8 m (target - k) 0, - k).
Proof.
  unfold decode_finish.
  destruct (load_char cs m (encoded - 1) =? ch_eq);
    [destruct (load_char cs m (encoded - 2) =? ch_eq)|].
  - exists 2. split; [lia|reflexivity].
  - exists 1. split; [lia|reflexivity].
  - exists 0. split; [lia|]. rewrite Z.sub_0_r. reflexivity.
Qed.

Lemma to_char_eq_pad b : 0 <= b < 256 -> b <> ch_eq -> (to_char cs b =? ch_eq) = false.
Proof.
  intros Hb Hne. unfold to_char, ch_eq in *.
  destruct (cs && (128 <=? b)) eqn:E; apply Z.eqb_neq; [|lia].
  apply andb_true_iff in E. destruct E as [_ E]. apply Z.leb_le in E. lia.
Qed.

Lemma decode_finish_no_pad m target encoded written :
  load8 m (encoded - 1) <> ch_eq ->
  decode_finish cs m target encoded written = (store8 m target 0, written).
Proof.
  intros H. unfold decode_finish, load_char.
  rewrite to_char_eq_pad by (apply load8_range || assumption). reflexivity.
Qed.

Lemma decode_leading_zero_valued fuel m target encoded len :
  1 <= len <= INT_MAX ->
  decodes_at oob (load8 m encoded) = 0 ->
  (Z.to_nat len <= fuel)%nat ->
  fio_base64_decode cs oob fuel m target encoded len
  = Some (decode_finish cs m (if target =? 0 then encoded else target)
                        encoded 0).
Proof.
  intros Hl Hz Hf. unfold fio_base64_decode.
  destruct (Z.leb_spec len 0); [lia|].
  rewrite skip_at_start_exhausts by (assumption || lia).
  rewrite decode_groups_short by lia. reflexivity.
Qed.

End DecoderFacts.

(** What a run of the encoder leaves behind, for either alphabet: the
    value returned, symbols followed by the pads, a zero right behind
    them, and nothing else touched. *)
Lemma encode_internal_layout :
  forall (cs : bool) (fuel : nat) (m : mem) (target data len : Z)
         (tbl : list Z),
    tbl = base64_encodes_original \/ tbl = base64_encodes_url ->
    0 <= len -> encoded_size len <= INT_MAX ->
    (Z.to_nat (len / 3) <= fuel)%nat ->
    exists m',
      fio_base64_encode_internal cs fuel m target data len tbl
        = Some (m', encoded_size len) /\
      (forall i, 0 <= i < encoded_size len - padding len ->
         is_symbol tbl (load8 m' (target + i)) = true /\
         load8 m' (target + i) <> ch_eq) /\
      (forall i, encoded_size len - padding len <= i < encoded_size len ->
         load8 m' (target + i) = ch_eq) /\
      load8 m' (target + encoded_size len) = 0 /\
      (forall a, a < target \/ target + encoded_size len < a -> m' a = m a).
Proof.
  intros cs fuel m target data len tbl Htbl H0 Hs Hf.
  assert (Hok : alphabet_ok tbl = true)
    by (destruct Htbl as [-> | ->]; [apply original_ok | apply url_ok]).
  rewrite encode_internal_unfold by assumption.
  pose proof (encoded_size_split len H0) as Hsz.
  assert (Hg : Z.of_nat (Z.to_nat (len / 3)) = len / 3)
    by (apply Z2Nat.id; Z.to_euclidean_division_equations; lia).
  assert (Hgm : Z.of_nat (Z.to_nat (len / 3)) <= INT_MAX)
    by (rewrite Hg; destruct (len mod 3 =? 0); lia).
  assert (Hmd : len mod 3 = 0 \/ len mod 3 = 1 \/ len mod 3 = 2)
    by (Z.to_euclidean_division_equations; lia).
  unfold padding, encode_partial.
  destruct Hmd as [E | [E | E]]; rewrite E in *; cbn [Z.eqb Pos.eqb] in *.
  - (* no partial group *)
    destruct (encode_groups_cells cs tbl (Z.to_nat (len / 3)) fuel
                (store8 m (target + encoded_size len) 0)
                (data + len - 1) (target + encoded_size len - 1) Hf Hgm)
      as (m' & R & F & C).
    rewrite Hg in *. rewrite R. exists m'. split; [reflexivity|]. split.
    + intros i Hi. apply symbol_cell_good; [assumption|]. apply C. lia.
    + split; [intros i Hi; lia|]. split.
      * unfold load8. rewrite F by lia. cells; reflexivity.
      * intros a Ha. rewrite F by lia. cells; reflexivity.
  - (* one byte left over: two symbols, two pads *)
    match goal with
    | |- context [encode_groups cs fuel tbl ?m1 _ ?r ?w] =>
        destruct (encode_groups_cells cs tbl (Z.to_nat (len / 3)) fuel
                    m1 r w Hf Hgm) as (m' & R & F & C)
    end.
    rewrite Hg in *. rewrite R. exists m'. split; [reflexivity|]. split.
    + intros i Hi. apply symbol_cell_good; [assumption|].
      destruct (Z_lt_ge_dec i (4 * (len / 3))) as [L|L]; [apply C; lia|].
      unfold symbol_cell. unfold load8 at 1. rewrite F by lia.
      assert (Hi' : i = 4 * (len / 3) \/ i = 4 * (len / 3) + 1) by lia.
      destruct Hi' as [-> | ->]; cells; rewrite Z.mod_mod by lia;
        eexists; (split; [|reflexivity]); [apply idx_hi | apply idx_pad1].
    + split; [|split].
      * intros i Hi. unfold load8 at 1. rewrite F by lia. cells; reflexivity.
      * unfold load8. rewrite F by lia. cells; reflexivity.
      * intros a Ha. rewrite F by lia. cells; reflexivity.
  - (* two bytes left over: three symbols, one pad *)
    match goal with
    | |- context [encode_groups cs fuel tbl ?m1 _ ?r ?w] =>
        destruct (encode_groups_cells cs tbl (Z.to_nat (len / 3)) fuel
                    m1 r w Hf Hgm) as (m' & R & F & C)
    end.
    rewrite Hg in *. rewrite R. exists m'. split; [reflexivity|]. split.
    + intros i Hi. apply symbol_cell_good; [assumption|].
      destruct (Z_lt_ge_dec i (4 * (len / 3))) as [L|L]; [apply C; lia|].
      unfold symbol_cell. unfold load8 at 1. rewrite F by lia.
      assert (Hi' : i = 4 * (len / 3) \/ i = 4 * (len / 3) + 1
                    \/ i = 4 * (len / 3) + 2) by lia.
      destruct Hi' as [-> | [-> | ->]]; cells; rewrite Z.mod_mod by lia;
        eexists; (split; [|reflexivity]);
        [apply idx_hi | apply idx_mid1 | apply idx_pad2].
    + split; [|split].
      * intros i Hi. unfold load8 at 1. rewrite F by lia. cells; reflexivity.
      * unfold load8. rewrite F by lia. cells; reflexivity.
      * intros a Ha. rewrite F by lia. cells; reflexivity.
Qed.


(** An empty (or negative) length: a lone terminator, nothing counted. *)
Lemma decode_empty cs oob fuel m target encoded len :
  len <= 0 ->
  fio_base64_decode cs oob fuel m target encoded len
  = Some (store8 m (if target =? 0 then encoded else target) 0, 0).
Proof.
  intros H. unfold fio_base64_decode.
  destruct (Z.leb_spec len 0); [reflexivity|lia].
Qed.

(** A text starting with a byte of table value 0, the byte in front of it
    not being ['=']: again a lone terminator, nothing counted. *)
Lemma decode_unknown_only cs oob fuel m target encoded len :
  1 <= len <= INT_MAX ->
  decodes_at oob (load8 m encoded) = 0 ->
  load8 m (encoded - 1) <> ch_eq ->
  (Z.to_nat len <= fuel)%nat ->
  fio_base64_decode cs oob fuel m target encoded len
  = Some (store8 m (if target =? 0 then encoded else target) 0, 0).
Proof.
  intros Hl Hz Hp Hf. rewrite decode_leading_zero_valued by assumption.
  rewrite decode_finish_no_pad by assumption. reflexivity.
Qed.

(* ------------------------------------------------------------------ *)
(** ** The decoder on symbols with junk between them *)

Lemma text_at_app m l1 : forall a l2,
  text_at m a (l1 ++ l2) <-> text_at m a l1 /\ text_at m (a + len_of l1) l2.
Proof.
  unfold len_of. induction l1 as [|b l1 IH]; intros a l2; cbn [app text_at List.length].
  - rewrite Z.add_0_r. tauto.
  - rewrite IH. replace (a + 1 + Z.of_nat (List.length l1))
      with (a + Z.of_nat (S (List.length l1))) by lia. tauto.
Qed.

Lemma text_at_frame m m' l : forall a,
  (forall x, a <= x < a + len_of l -> m' x = m x) ->
  text_at m a l -> text_at m' a l.
Proof.
  unfold len_of. induction l as [|b l IH]; intros a Hsame;
    cbn [text_at List.length] in *; [trivial|].
  intros [Hb Hl]. split.
  - unfold load8 in *. rewrite Hsame by lia. exact Hb.
  - apply IH; [|exact Hl]. intros x Hx. apply Hsame. lia.
Qed.

Section Skips.
Variable oob : Z -> Z.

Lemma skip_unknown_stop fuel m len enc :
  skip_test oob m len enc = false ->
  skip_unknown oob fuel m len enc = Some (len, enc).
Proof. intros H. destruct fuel; cbn [skip_unknown]; rewrite H; reflexivity. Qed.

Lemma skip_at_start_stop fuel m len enc :
  skip_test oob m len enc = false ->
  skip_at_start oob fuel m len enc = Some (len, enc).
Proof. intros H. destruct fuel; cbn [skip_at_start]; rewrite H; reflexivity. Qed.

Lemma skip_test_symbol m len enc :
  decodes_at oob (load8 m enc) <> 0 -> skip_test oob m len enc = false.
Proof.
  intros H. unfold skip_test.
  destruct (Z.eqb_spec (decodes_at oob (load8 m enc)) 0); [contradiction|].
  apply andb_false_r.
Qed.

Lemma skip_test_end m enc : skip_test oob m 0 enc = false.
Proof. reflexivity. Qed.

(** A skip loop runs over a stretch of junk and stops behind it, either
    because the length is used up or because a symbol follows. *)
Lemma skip_unknown_junk : forall (J : list Z) (fuel : nat) m len enc,
  Forall (junk_byte oob) J -> text_at m enc J ->
  len_of J <= len <= INT_MAX -> (List.length J <= fuel)%nat ->
  len = len_of J \/ decodes_at oob (load8 m (enc + len_of J)) <> 0 ->
  skip_unknown oob fuel m len enc = Some (len - len_of J, enc + len_of J).
Proof.
  unfold len_of. induction J as [|j J IH]; intros fuel m len enc HJ Ht Hl Hf Hend;
    cbn [List.length text_at] in *.
  - rewrite Z.sub_0_r, Z.add_0_r in *. apply skip_unknown_stop.
    destruct Hend as [-> | Hs]; [apply skip_test_end|].
    apply skip_test_symbol. exact Hs.
  - destruct fuel as [|fuel]; [lia|]. destruct Ht as [Hj Ht].
    inversion HJ as [|? ? [_ Hz] HJ']; subst.
    cbn [skip_unknown]. rewrite skip_test_zero_valued by (lia || congruence).
    unfold int_sub. rewrite wrap_int_id by (unfold INT_MIN, INT_MAX in *; lia).
    rewrite IH; try assumption; try lia.
    + f_equal. f_equal; lia.
    + destruct Hend as [-> | Hs]; [left; lia|right].
      replace (enc + 1 + Z.of_nat (List.length J))
        with (enc + Z.of_nat (S (List.length J))) by lia. exact Hs.
Qed.

End Skips.


Section Groups.
Variable cs : bool.
Variable oob : Z -> Z.

Lemma load_char_of m a x : load8 m a = x -> load_char cs m a = to_char cs x.
Proof. unfold load_char. intros ->. reflexivity. Qed.

Lemma decode_groups_group fuel sf m t e written x1 J1 x2 J2 x3 J3 x4 J4 tl :
  text_at m e (x1 :: J1 ++ x2 :: J2 ++ x3 :: J3 ++ x4 :: J4 ++ tl) ->
  symbol_byte oob x1 -> symbol_byte oob x2 ->
  symbol_byte oob x3 -> symbol_byte oob x4 ->
  Forall (junk_byte oob) J1 -> Forall (junk_byte oob) J2 ->
  Forall (junk_byte oob) J3 -> Forall (junk_byte oob) J4 ->
  (tl = [] \/ exists y tl', tl = y :: tl' /\ symbol_byte oob y) ->
  len_of (x1 :: J1 ++ x2 :: J2 ++ x3 :: J3 ++ x4 :: J4 ++ tl) <= INT_MAX ->
  (List.length (x1 :: J1 ++ x2 :: J2 ++ x3 :: J3 ++ x4 :: J4 ++ tl) <= sf)%nat ->
  0 <= written <= INT_MAX - 3 ->
  t + 3 <= e \/
  e + len_of (x1 :: J1 ++ x2 :: J2 ++ x3 :: J3 ++ x4 :: J4 ++ tl) <= t ->
  exists m2,
    decode_groups cs oob (S fuel) sf m t e
      (len_of (x1 :: J1 ++ x2 :: J2 ++ x3 :: J3 ++ x4 :: J4 ++ tl)) written
    = decode_groups cs oob fuel sf m2 (t + 3)
        (e + len_of (x1 :: J1 ++ x2 :: J2 ++ x3 :: J3 ++ x4 :: J4) )
        (len_of tl) (written + 3)
    /\ text_at m2 t (decoded_group cs oob x1 x2 x3 x4)
    /\ (forall a, a < t \/ t + 3 <= a -> m2 a = m a).
Proof.
  intros Ht S1 S2 S3 S4 HJ1 HJ2 HJ3 HJ4 Htl Hmax Hsf Hw Hd.
  unfold len_of in *.
  repeat (cbn [text_at] in Ht || rewrite text_at_app in Ht).
  unfold len_of in Ht.
  destruct Ht as (L1 & T1 & L2 & T2 & L3 & T3 & L4 & T4 & Ttl).
  repeat (rewrite ?length_app in * || cbn [List.length] in * ).
  set (n1 := List.length J1) in *. set (n2 := List.length J2) in *.
  set (n3 := List.length J3) in *. set (n4 := List.length J4) in *.
  set (nt := List.length tl) in *.
  eexists. split; [|split].
  - cbn [decode_groups].
    match goal with |- context [4 <=? ?l] =>
      destruct (Z.leb_spec 4 l); [|lia] end.
    rewrite skip_unknown_stop
      by (apply skip_test_symbol; rewrite L1; apply S1).
    match goal with |- context [?l =? 0] =>
      destruct (Z.eqb_spec l 0); [lia|] end.
    rewrite (load_char_of _ _ _ L1).
    rewrite (skip_unknown_junk oob J1); try assumption;
      [|unfold len_of; fold n1; lia|fold n1; lia
       |right; unfold len_of; fold n1; rewrite L2; apply S2].
    unfold len_of; fold n1.
    match goal with |- context [?l =? 0] =>
      destruct (Z.eqb_spec l 0); [lia|] end.
    rewrite (load_char_of _ _ _ L2).
    rewrite (skip_unknown_junk oob J2); try assumption;
      [|unfold len_of; fold n2; lia|fold n2; lia
       |right; unfold len_of; fold n2; rewrite L3; apply S3].
    unfold len_of; fold n2.
    match goal with |- context [?l =? 0] =>
      destruct (Z.eqb_spec l 0); [lia|] end.
    rewrite (load_char_of _ _ _ L3).
    rewrite (skip_unknown_junk oob J3); try assumption;
      [|unfold len_of; fold n3; lia|fold n3; lia
       |right; unfold len_of; fold n3; rewrite L4; apply S4].
    unfold len_of; fold n3.
    match goal with |- context [?l =? 0] =>
      destruct (Z.eqb_spec l 0); [lia|] end.
    rewrite (load_char_of _ _ _ L4).
    unfold int_sub, int_add.
    rewrite !wrap_int_id by (unfold INT_MIN, INT_MAX in *; lia).
    rewrite (skip_unknown_junk oob J4).
    + unfold len_of; fold n4. f_equal; lia.
    + assumption.
    + eapply text_at_frame; [|exact T4]. intros x Hx. unfold len_of in Hx.
      fold n4 in Hx. cells; reflexivity.
    + unfold len_of; fold n4. lia.
    + fold n4. lia.
    + unfold len_of; fold n4.
      destruct Htl as [-> | (y & tl' & -> & Sy)].
      * left. subst nt. cbn [List.length]. lia.
      * right. cbn [text_at] in Ttl. destruct Ttl as [Ly _].
        match goal with
        | |- decodes_at oob (load8 ?mm ?a) <> 0 =>
            replace (load8 mm a) with y; [apply Sy|]
        end.
        rewrite <- Ly. subst nt. cbn [List.length] in *.
        cells; f_equal; lia.
  - cbn [text_at decoded_group]. unfold sextet.
    repeat split; cells; apply Z.mod_mod; lia.
  - intros a Ha. cells; reflexivity.
Qed.

End Groups.


Section Loop.
Variable cs : bool.
Variable oob : Z -> Z.

Lemma flatten_head its :
  Forall (well_formed oob) its ->
  flatten its = [] \/
  exists y tl', flatten its = y :: tl' /\ symbol_byte oob y.
Proof.
  intros H. destruct its as [|[y J] its]; [left; reflexivity|right].
  inversion H as [|? ? [Hy _] _]; subst. cbn in *. eauto.
Qed.

(** The loop over a text of [4 * k] symbols with junk between them:
    every group is decoded, the junk is skipped, and the loop is left
    with the length used up. *)
Lemma decode_groups_items : forall (k : nat) its fuel sf m t e written,
  List.length its = (4 * k)%nat ->
  Forall (well_formed oob) its ->
  text_at m e (flatten its) ->
  len_of (flatten its) <= INT_MAX ->
  (List.length (flatten its) <= sf)%nat -> (k <= fuel)%nat ->
  0 <= written -> written + 3 * Z.of_nat k <= INT_MAX ->
  t + 3 * Z.of_nat k <= e \/ e + len_of (flatten its) <= t ->
  exists m',
    decode_groups cs oob fuel sf m t e (len_of (flatten its)) written
    = Some (Tail m' (t + 3 * Z.of_nat k) (e + len_of (flatten its)) 0
                 (written + 3 * Z.of_nat k))
    /\ text_at m' t (decoded cs oob (symbols_of its))
    /\ (forall a, a < t \/ t + 3 * Z.of_nat k <= a -> m' a = m a).
Proof.
  induction k as [|k IH]; intros its fuel sf m t e written Hlen Hwf Ht Hmax
                                Hsf Hf Hw0 Hw Hd.
  - destruct its; [|discriminate]. exists m. cbn.
    rewrite decode_groups_short by lia.
    rewrite !Z.add_0_r. repeat split; reflexivity.
  - destruct its as [|[x1 J1] [|[x2 J2] [|[x3 J3] [|[x4 J4] rest]]]];
      try (cbn in Hlen; lia).
    destruct fuel as [|fuel]; [lia|].
    inversion Hwf as [|? ? [S1 HJ1] Hwf1]; subst.
    inversion Hwf1 as [|? ? [S2 HJ2] Hwf2]; subst.
    inversion Hwf2 as [|? ? [S3 HJ3] Hwf3]; subst.
    inversion Hwf3 as [|? ? [S4 HJ4] Hwf4]; subst.
    cbn [fst snd] in *.
    assert (Hfl : flatten ((x1, J1) :: (x2, J2) :: (x3, J3) :: (x4, J4) :: rest)
                  = x1 :: J1 ++ x2 :: J2 ++ x3 :: J3 ++ x4 :: J4 ++ flatten rest).
    { reflexivity. }
    rewrite Hfl in *.
    destruct (decode_groups_group cs oob fuel sf m t e written
                x1 J1 x2 J2 x3 J3 x4 J4 (flatten rest))
      as (m2 & E & G & F); try assumption.
    { apply flatten_head. assumption. }
    { lia. }
    { unfold len_of in *. lia. }
    rewrite E.
    assert (Hsplit : len_of (x1 :: J1 ++ x2 :: J2 ++ x3 :: J3 ++ x4 :: J4
                                ++ flatten rest)
                     = len_of (x1 :: J1 ++ x2 :: J2 ++ x3 :: J3 ++ x4 :: J4)
                       + len_of (flatten rest)).
    { unfold len_of.
      repeat (rewrite ?length_app || cbn [List.length]). lia. }
    assert (Hg4 : 4 <= len_of (x1 :: J1 ++ x2 :: J2 ++ x3 :: J3 ++ x4 :: J4)).
    { unfold len_of.
      repeat (rewrite ?length_app || cbn [List.length]). lia. }
    assert (Ttl : text_at m (e + len_of (x1 :: J1 ++ x2 :: J2 ++ x3 :: J3
                                            ++ x4 :: J4)) (flatten rest)).
    { replace (x1 :: J1 ++ x2 :: J2 ++ x3 :: J3 ++ x4 :: J4 ++ flatten rest)
        with ((x1 :: J1 ++ x2 :: J2 ++ x3 :: J3 ++ x4 :: J4) ++ flatten rest)
        in Ht.
      - apply text_at_app in Ht. apply Ht.
      - cbn [app]. repeat (rewrite <- ?app_comm_cons; rewrite <- ?app_assoc).
        reflexivity. }
    destruct (IH rest fuel sf m2 (t + 3)
                 (e + len_of (x1 :: J1 ++ x2 :: J2 ++ x3 :: J3 ++ x4 :: J4))
                 (written + 3))
      as (m' & E' & D & F'); try assumption; try lia.
    { cbn [List.length] in Hlen. lia. }
    { eapply text_at_frame; [|exact Ttl]. intros a Ha. apply F. lia. }
    { unfold len_of in *. lia. }
    rewrite E'. exists m'. split; [|split].
    + f_equal. f_equal; lia.
    + cbn [symbols_of map fst decoded]. apply text_at_app. split.
      * eapply text_at_frame; [|exact G]. intros a Ha.
        unfold len_of, decoded_group in Ha. cbn [List.length] in Ha.
        apply F'. lia.
      * unfold len_of, decoded_group. cbn [List.length]. exact D.
    + intros a Ha. rewrite F' by lia. apply F. lia.
Qed.

End Loop.


Lemma two_last {A : Type} (l : list A) :
  (2 <= List.length l)%nat -> exists l' y x, l = l' ++ [y; x].
Proof.
  intros H. destruct (exists_last (l := l)) as (l1 & x & ->).
  { destruct l; [cbn in H; lia|discriminate]. }
  rewrite length_app in H. cbn in H.
  destruct (exists_last (l := l1)) as (l' & y & ->).
  { destruct l1; [cbn in H; lia|discriminate]. }
  exists l', y, x. rewrite <- app_assoc. reflexivity.
Qed.

Lemma pads_of_two_last l' y x :
  pads_of (l' ++ [y; x]) =
  if x =? ch_eq then if y =? ch_eq then 2 else 1 else 0.
Proof.
  unfold pads_of.
  replace (l' ++ [y; x]) with ((l' ++ [y]) ++ [x])
    by (rewrite <- app_assoc; reflexivity).
  rewrite last_last, removelast_last, last_last. reflexivity.
Qed.

Lemma junk_is_no_pad oob j : junk_byte oob j -> j <> ch_eq.
Proof. intros [_ Hz] ->. vm_compute in Hz. discriminate. Qed.

Section Finish.
Variable cs : bool.
Variable oob : Z -> Z.

Lemma load_char_is_pad m a :
  (load_char cs m a =? ch_eq) = (load8 m a =? ch_eq).
Proof.
  unfold load_char. destruct (Z.eqb_spec (load8 m a) ch_eq) as [E|N].
  - rewrite E. destruct cs; reflexivity.
  - apply to_char_eq_pad; [apply load8_range|exact N].
Qed.

(** The padding test reads the last two bytes in front of the cursor. *)
Lemma decode_finish_text m t e l written :
  (2 <= List.length l)%nat -> text_at m (e - len_of l) l ->
  INT_MIN + 2 <= written <= INT_MAX ->
  decode_finish cs m t e written
  = (store8 m (t - pads_of l) 0, written - pads_of l).
Proof.
  intros H2 Ht Hw. destruct (two_last l H2) as (l' & y & x & ->).
  rewrite pads_of_two_last. apply text_at_app in Ht. destruct Ht as [_ Ht].
  unfold len_of in Ht. rewrite length_app in Ht. cbn [List.length text_at] in Ht.
  destruct Ht as (Hy & Hx & _).
  replace (e - Z.of_nat (List.length l' + 2) + Z.of_nat (List.length l'))
    with (e - 2) in * by lia.
  replace (e - 2 + 1) with (e - 1) in Hx by lia.
  unfold decode_finish. rewrite !load_char_is_pad, Hx, Hy.
  unfold int_sub.
  rewrite (wrap_int_id (written - 1)) by (unfold INT_MIN, INT_MAX in *; lia).
  rewrite (wrap_int_id (written - 1 - 1))
    by (unfold INT_MIN, INT_MAX in *; lia).
  destruct (x =? ch_eq); [destruct (y =? ch_eq)|];
    rewrite ?Z.sub_0_r; f_equal; lia.
Qed.

End Finish.

Lemma pads_of_range l : 0 <= pads_of l <= 2.
Proof.
  unfold pads_of. destruct (_ =? _); [destruct (_ =? _)|]; lia.
Qed.

Lemma text_at_nth m l : forall a i,
  text_at m a l -> 0 <= i < len_of l ->
  load8 m (a + i) = nth (Z.to_nat i) l 0.
Proof.
  unfold len_of. induction l as [|b l IH]; intros a i Ht Hi;
    cbn [List.length text_at] in *; [lia|].
  destruct Ht as [Hb Ht]. destruct (Z.eq_dec i 0) as [->|Hn].
  - rewrite Z.add_0_r. exact Hb.
  - replace (a + i) with (a + 1 + (i - 1)) by lia.
    rewrite IH by (assumption || lia).
    replace (Z.to_nat i) with (S (Z.to_nat (i - 1))) by lia. reflexivity.
Qed.

Section Items.
Variable cs : bool.
Variable oob : Z -> Z.

Lemma flatten_pads its :
  (2 <= List.length its)%nat ->
  Forall (well_formed oob) its -> Forall pad_clean its ->
  pads_of (flatten its) = pads_of (symbols_of its).
Proof.
  intros H2 Hwf Hpc.
  destruct (two_last its H2) as (its' & [y Jy] & [x Jx] & ->).
  apply Forall_app in Hwf. destruct Hwf as [_ Hwf].
  apply Forall_app in Hpc. destruct Hpc as [_ Hpc].
  inversion Hwf as [|? ? [_ HJy] Hwf']; subst.
  inversion Hwf' as [|? ? [_ HJx] _]; subst.
  inversion Hpc as [|? ? Py Hpc']; subst.
  inversion Hpc' as [|? ? Px _]; subst.
  unfold pad_clean in *. cbn [fst snd] in *.
  unfold symbols_of, flatten. rewrite map_app, flat_map_app.
  cbn [map flat_map fst snd]. rewrite app_nil_r.
  rewrite pads_of_two_last.
  destruct Jx as [|j0 Jx0].
  - destruct Jy as [|i0 Jy0].
    + cbn [app]. rewrite pads_of_two_last. reflexivity.
    + assert (Hy : y <> ch_eq) by (intros E; apply Py in E; discriminate).
      destruct (exists_last (l := i0 :: Jy0)) as (Jy' & z & EJ);
        [discriminate|].
      rewrite EJ in *.
      assert (Hz : z <> ch_eq).
      { apply (junk_is_no_pad oob).
        apply Forall_app in HJy. destruct HJy as [_ HJy].
        inversion HJy; assumption. }
      replace (flat_map (fun it : Z * list Z => fst it :: snd it) its'
               ++ (y :: Jy' ++ [z]) ++ [x])
        with ((flat_map (fun it : Z * list Z => fst it :: snd it) its'
               ++ y :: Jy') ++ [z; x]).
      * rewrite pads_of_two_last.
        destruct (Z.eqb_spec z ch_eq); [contradiction|].
        destruct (Z.eqb_spec y ch_eq); [contradiction|]. reflexivity.
      * repeat (rewrite <- app_assoc; cbn [app]). reflexivity.
  - assert (Hx : x <> ch_eq) by (intros E; apply Px in E; discriminate).
    destruct (exists_last (l := j0 :: Jx0)) as (Jx' & z & EJ);
      [discriminate|].
    rewrite EJ in *.
    assert (Hz : z <> ch_eq).
    { apply (junk_is_no_pad oob).
      apply Forall_app in HJx. destruct HJx as [_ HJx].
      inversion HJx; assumption. }
    destruct (Z.eqb_spec x ch_eq); [contradiction|].
    unfold pads_of.
    replace (flat_map (fun it : Z * list Z => fst it :: snd it) its'
             ++ (y :: Jy) ++ x :: Jx' ++ [z])
      with ((flat_map (fun it : Z * list Z => fst it :: snd it) its'
             ++ (y :: Jy) ++ x :: Jx') ++ [z]).
    + rewrite last_last. destruct (Z.eqb_spec z ch_eq); [contradiction|].
      reflexivity.
    + repeat (rewrite <- app_assoc; cbn [app]). reflexivity.
Qed.

End Items.

Lemma length_decoded cs oob : forall (k : nat) (syms : list Z),
  List.length syms = (4 * k)%nat ->
  List.length (decoded cs oob syms) = (3 * k)%nat.
Proof.
  induction k as [|k IH]; intros syms H.
  - destruct syms; [reflexivity|discriminate].
  - destruct syms as [|x1 [|x2 [|x3 [|x4 tl]]]]; try (cbn in H; lia).
    cbn [decoded]. rewrite length_app. cbn [List.length decoded_group] in *.
    rewrite (IH tl) by lia. lia.
Qed.

Section Run.
Variable cs : bool.
Variable oob : Z -> Z.

(** A whole call on a text of [4 * k >= 4] symbols with junk between
    them: what is returned and stored depends on the symbols alone. *)
Lemma decode_items fuel m t e its (k : nat) :
  List.length its = (4 * k)%nat -> (1 <= k)%nat ->
  Forall (well_formed oob) its -> Forall pad_clean its ->
  text_at m e (flatten its) ->
  len_of (flatten its) <= INT_MAX ->
  (List.length (flatten its) <= fuel)%nat ->
  t <> 0 ->
  t + 3 * Z.of_nat k <= e \/ e + len_of (flatten its) <= t ->
  exists m',
    fio_base64_decode cs oob fuel m t e (len_of (flatten its))
    = Some (store8 m' (t + 3 * Z.of_nat k - pads_of (symbols_of its)) 0,
            3 * Z.of_nat k - pads_of (symbols_of its))
    /\ text_at m' t (decoded cs oob (symbols_of its)).
Proof.
  intros Hlen Hk Hwf Hpc Ht Hmax Hf Ht0 Hd.
  assert (Hn : (List.length its <= List.length (flatten its))%nat).
  { clear. induction its as [|[x J] its IH]; [cbn; lia|].
    cbn [flatten flat_map fst snd List.length app] in *.
    rewrite length_app. unfold flatten in IH. lia. }
  destruct (decode_groups_items cs oob k its fuel fuel m t e 0)
    as (m' & E & D & F); try assumption; try lia.
  { unfold len_of in *. lia. }
  exists m'. split; [|exact D].
  unfold fio_base64_decode.
  destruct (Z.eqb_spec t 0); [contradiction|].
  destruct (Z.leb_spec (len_of (flatten its)) 0);
    [unfold len_of in *; lia|].
  rewrite skip_at_start_stop.
  - rewrite E. cbn [decode_tail Z.eqb].
    rewrite (decode_finish_text cs m' _ _ (flatten its)).
    + rewrite (flatten_pads oob) by (assumption || lia). reflexivity.
    + lia.
    + replace (e + len_of (flatten its) - len_of (flatten its)) with e by lia.
      eapply text_at_frame; [|exact Ht]. intros a Ha. apply F. lia.
    + unfold INT_MIN, INT_MAX, len_of in *. lia.
  - apply skip_test_symbol.
    destruct its as [|[x J] its0]; [cbn in Hlen; lia|].
    inversion Hwf as [|? ? [[_ Sx] _] _]; subst.
    cbn in Ht. destruct Ht as [-> _]. exact Sx.
Qed.

End Run.


Lemma flatten_bare its : flatten (bare its) = symbols_of its.
Proof.
  induction its as [|[x J] its IH]; [reflexivity|].
  cbn. f_equal. exact IH.
Qed.

Lemma symbols_of_bare its : symbols_of (bare its) = symbols_of its.
Proof. unfold symbols_of, bare. rewrite map_map. reflexivity. Qed.

Lemma well_formed_bare oob its :
  Forall (well_formed oob) its -> Forall (well_formed oob) (bare its).
Proof.
  intros H. unfold bare. apply Forall_map.
  eapply Forall_impl; [|exact H]. intros [x J] [Hx _]. split; [exact Hx|].
  constructor.
Qed.

Lemma pad_clean_bare its : Forall pad_clean (bare its).
Proof.
  unfold bare. apply Forall_map. apply Forall_forall. intros it _ _.
  reflexivity.
Qed.

(** Two calls, one on a text and one on the same text with junk between
    its symbols, return the same count and store the same bytes. *)
Lemma decode_skips_junk :
  forall (cs : bool) (oob : Z -> Z) (fuel : nat) (m m' : mem)
         (out out' e e' : Z) (its : list (Z * list Z)) (k : nat),
    List.length its = (4 * k)%nat -> (1 <= k)%nat ->
    Forall (well_formed oob) its -> Forall pad_clean its ->
    text_at m e (symbols_of its) ->
    text_at m' e' (flatten its) ->
    len_of (flatten its) <= INT_MAX ->
    (List.length (flatten its) <= fuel)%nat ->
    out <> 0 -> out' <> 0 ->
    out + 3 * Z.of_nat k <= e \/ e + len_of (symbols_of its) <= out ->
    out' + 3 * Z.of_nat k <= e' \/ e' + len_of (flatten its) <= out' ->
    exists m1 m1' w,
      fio_base64_decode cs oob fuel m out e (len_of (symbols_of its))
        = Some (m1, w) /\
      fio_base64_decode cs oob fuel m' out' e' (len_of (flatten its))
        = Some (m1', w) /\
      forall i, 0 <= i <= w -> load8 m1 (out + i) = load8 m1' (out' + i).
Proof.
  intros cs oob fuel m m' out out' e e' its k Hlen Hk Hwf Hpc Ht Ht'
         Hmax Hf Ho Ho' Hd Hd'.
  assert (Hn : (List.length (symbols_of its) <= List.length (flatten its))%nat).
  { clear. induction its as [|[x J] its IH]; [cbn; lia|].
    cbn [symbols_of map flatten flat_map fst snd List.length app] in *.
    rewrite length_app. unfold flatten, symbols_of in IH. lia. }
  destruct (decode_items cs oob fuel m out e (bare its) k)
    as (mA & EA & DA).
  { unfold bare. rewrite length_map. exact Hlen. }
  { exact Hk. }
  { apply well_formed_bare. exact Hwf. }
  { apply pad_clean_bare. }
  { rewrite flatten_bare. exact Ht. }
  { rewrite flatten_bare. unfold len_of in *. lia. }
  { rewrite flatten_bare. lia. }
  { exact Ho. }
  { rewrite flatten_bare. exact Hd. }
  destruct (decode_items cs oob fuel m' out' e' its k)
    as (mB & EB & DB); try assumption.
  rewrite flatten_bare, symbols_of_bare in *.
  pose proof (pads_of_range (symbols_of its)) as Hp.
  assert (HD : len_of (decoded cs oob (symbols_of its)) = 3 * Z.of_nat k).
  { unfold len_of. rewrite (length_decoded cs oob k).
    - lia.
    - unfold symbols_of. rewrite length_map. exact Hlen. }
  eexists _, _, _. split; [exact EA|]. split; [exact EB|].
  intros i Hi. rewrite !load8_store8.
  destruct (Z.eqb_spec (out + i) (out + 3 * Z.of_nat k
                                  - pads_of (symbols_of its)));
    destruct (Z.eqb_spec (out' + i) (out' + 3 * Z.of_nat k
                                     - pads_of (symbols_of its)));
    try lia.
  rewrite (text_at_nth mA _ _ _ DA) by lia.
  rewrite (text_at_nth mB _ _ _ DB) by lia. reflexivity.
Qed.

(** The alphabets in terms of the backward table: the symbols of both
    alphabets other than 'A', and the pad, have a nonzero table value;
    the foreign bytes have the value 0. *)
Lemma alphabet_symbol_value tbl c :
  tbl = base64_encodes_original \/ tbl = base64_encodes_url ->
  is_symbol tbl c = true -> c <> ch_A ->
  0 <= c < 256 /\ nth (Z.to_nat c) base64_decodes 0 <> 0.
Proof.
  intros Htbl Hc HA.
  assert (Hall : forallb (fun x => (x =? ch_A)
                            || ((0 <=? x) && (x <? 256)
                                && negb (nth (Z.to_nat x) base64_decodes 0 =? 0)))
                         (firstn 64 tbl) = true)
    by (destruct Htbl as [-> | ->]; vm_compute; reflexivity).
  unfold is_symbol in Hc. apply existsb_exists in Hc.
  destruct Hc as (x & Hin & Hx). apply Z.eqb_eq in Hx. subst x.
  rewrite forallb_forall in Hall. specialize (Hall c Hin).
  apply orb_true_iff in Hall. destruct Hall as [H|H].
  - apply Z.eqb_eq in H. contradiction.
  - apply andb_true_iff in H. destruct H as [H H3].
    apply andb_true_iff in H. destruct H as [H1 H2].
    apply Z.leb_le in H1. apply Z.ltb_lt in H2. apply negb_true_iff in H3.
    apply Z.eqb_neq in H3. split; [lia|exact H3].
Qed.

Lemma clean_symbol_is_symbol oob c : clean_symbol c -> symbol_byte oob c.
Proof.
  intros [[Hc | ->] HA].
  - unfold in_alphabets in Hc. apply orb_true_iff in Hc.
    assert (H : 0 <= c < 256 /\ nth (Z.to_nat c) base64_decodes 0 <> 0).
    { destruct Hc as [Hc | Hc];
        [apply (alphabet_symbol_value base64_encodes_original)
        |apply (alphabet_symbol_value base64_encodes_url)]; auto. }
    destruct H as [Hr Hv]. split; [exact Hr|].
    rewrite decodes_at_byte by exact Hr. exact Hv.
  - split; [unfold ch_eq; lia|]. vm_compute. discriminate.
Qed.

Lemma foreign_byte_is_junk oob c : foreign_byte c -> junk_byte oob c.
Proof.
  intros (Hr & Hin & He & Hc). split; [exact Hr|].
  apply Z.eqb_eq. rewrite zero_valued_bytes by exact Hr.
  unfold zero_valued. rewrite Hin.
  destruct (Z.eqb_spec c ch_eq); [contradiction|].
  destruct (Z.eqb_spec c ch_comma); [contradiction|].
  apply orb_true_r.
Qed.

Lemma insertion_ok_well_formed oob its :
  Forall insertion_ok its ->
  Forall (well_formed oob) its /\ Forall pad_clean its.
Proof.
  intros H. split; (eapply Forall_impl; [|exact H]); intros [x J] (Hx & HJ & Hp).
  - split; [apply clean_symbol_is_symbol; exact Hx|].
    eapply Forall_impl; [|exact HJ]. apply foreign_byte_is_junk.
  - exact Hp.
Qed.

(* ------------------------------------------------------------------ *)
(** ** Encoding and decoding again *)

Lemma encoded_groups3_tail cs tbl gs tail :
  (List.length tail < 3)%nat ->
  encoded cs tbl (groups3 gs ++ tail)
  = encoded_groups3 cs tbl gs ++ encoded_tail cs tbl tail.
Proof.
  intros Ht. induction gs as [|[[a b] c] gs IH].
  - cbn [groups3 encoded_groups3 flat_map app].
    destruct tail as [|x [|y [|z tl]]]; try reflexivity. cbn in Ht. lia.
  - change (groups3 ((a, b, c) :: gs)) with (a :: b :: c :: groups3 gs).
    change (encoded_groups3 cs tbl ((a, b, c) :: gs))
      with (encoded_group cs tbl a b c ++ encoded_groups3 cs tbl gs).
    cbn [app encoded]. rewrite IH. rewrite app_assoc. reflexivity.
Qed.

Lemma split_groups3 : forall (n : nat) (bs : list Z),
  (List.length bs <= n)%nat ->
  exists gs tail, bs = groups3 gs ++ tail /\ (List.length tail < 3)%nat.
Proof.
  induction n as [|n IH]; intros bs Hn; destruct bs as [|a [|b [|c tl]]];
    try (cbn in Hn; lia).
  - exists [], []. split; [reflexivity|cbn; lia].
  - exists [], []. split; [reflexivity|cbn; lia].
  - exists [], [a]. split; [reflexivity|cbn; lia].
  - exists [], [a; b]. split; [reflexivity|cbn; lia].
  - destruct (IH tl) as (gs & tail & E & Ht); [cbn in Hn; lia|].
    exists ((a, b, c) :: gs), tail. split; [|exact Ht].
    change (groups3 ((a, b, c) :: gs)) with (a :: b :: c :: groups3 gs).
    rewrite E. reflexivity.
Qed.

Lemma length_groups3 gs : len_of (groups3 gs) = 3 * Z.of_nat (List.length gs).
Proof.
  unfold len_of. induction gs as [|g gs IH]; [reflexivity|].
  change (groups3 (g :: gs))
    with (fst (fst g) :: snd (fst g) :: snd g :: groups3 gs).
  cbn [List.length]. lia.
Qed.

Lemma length_encoded_groups3 cs tbl gs :
  len_of (encoded_groups3 cs tbl gs) = 4 * Z.of_nat (List.length gs).
Proof.
  unfold len_of. induction gs as [|g gs IH]; [reflexivity|].
  change (encoded_groups3 cs tbl (g :: gs))
    with (encoded_group cs tbl (fst (fst g)) (snd (fst g)) (snd g)
          ++ encoded_groups3 cs tbl gs).
  rewrite length_app. cbn [List.length encoded_group]. lia.
Qed.

Section EncoderText.
Variable cs : bool.
Variable tbl : list Z.

(** The group loop writes the text of the groups it is given, as long
    as it does not write over them. *)
Lemma encode_groups_text : forall gs (fuel : nat) m data target,
  (List.length gs <= fuel)%nat -> Z.of_nat (List.length gs) <= INT_MAX ->
  text_at m data (groups3 gs) ->
  target + 4 * Z.of_nat (List.length gs) <= data
  \/ data + 3 * Z.of_nat (List.length gs) <= target ->
  exists m',
    encode_groups cs fuel tbl m (Z.of_nat (List.length gs))
                  (data + 3 * Z.of_nat (List.length gs) - 1)
                  (target + 4 * Z.of_nat (List.length gs) - 1)
    = Some m'
    /\ text_at m' target (encoded_groups3 cs tbl gs)
    /\ (forall a, a < target \/ target + 4 * Z.of_nat (List.length gs) <= a ->
                  m' a = m a).
Proof.
  induction gs as [|[[a b] c] gs IH] using rev_ind;
    intros fuel m data target Hf Hg Ht Hd.
  - exists m. cbn [List.length]. rewrite encode_groups_done.
    repeat split; reflexivity.
  - rewrite length_app in *. cbn [List.length] in *.
    replace (List.length gs + 1)%nat with (S (List.length gs)) in * by lia.
    destruct fuel as [|fuel]; [lia|].
    rewrite encode_groups_step by assumption.
    set (n := List.length gs) in *.
    unfold groups3 in Ht. rewrite flat_map_app in Ht. fold (groups3 gs) in Ht.
    cbn [flat_map fst snd app] in Ht. apply text_at_app in Ht.
    rewrite length_groups3 in Ht. fold n in Ht.
    destruct Ht as (Tgs & La & Lb & Lc & _).
    set (r := data + 3 * Z.of_nat (S n) - 1) in *.
    set (w := target + 4 * Z.of_nat (S n) - 1) in *.
    destruct (IH fuel (encode_group cs tbl m r w) data target)
      as (m' & E & T & F); try lia.
    { eapply text_at_frame; [|exact Tgs]. intros x Hx.
      rewrite length_groups3 in Hx. fold n in Hx.
      apply encode_group_frame. unfold w. lia. }
    replace (r - 3) with (data + 3 * Z.of_nat n - 1) by (unfold r; lia).
    replace (w - 4) with (target + 4 * Z.of_nat n - 1) by (unfold w; lia).
    rewrite E. exists m'. split; [reflexivity|]. split.
    + unfold encoded_groups3. rewrite flat_map_app.
      fold (encoded_groups3 cs tbl gs). cbn [flat_map fst snd app].
      rewrite app_nil_r. apply text_at_app. split; [exact T|].
      rewrite length_encoded_groups3. fold n.
      assert (Hc : load_char cs m r = to_char cs c).
      { apply load_char_of. rewrite <- Lc. f_equal. unfold r. lia. }
      assert (Hb : load_char cs m (r - 1) = to_char cs b).
      { apply load_char_of. rewrite <- Lb. f_equal. unfold r. lia. }
      assert (Ha : load_char cs m (r - 2) = to_char cs a).
      { apply load_char_of. rewrite <- La. f_equal. unfold r. lia. }
      unfold encoded_group. cbn [text_at]. unfold load8.
      rewrite !F by lia. rewrite !encode_group_at. cbv zeta.
      rewrite Ha, Hb, Hc. unfold w.
      repeat split;
        repeat match goal with
               | |- context [?x =? ?y] => destruct (Z.eqb_spec x y); try lia
               end; apply Z.mod_mod; lia.
    + intros x Hx. rewrite F by lia. apply encode_group_frame. unfold w. lia.
Qed.

End EncoderText.

Section EncoderWhole.
Variable cs : bool.
Variable tbl : list Z.

(** A whole call of the encoder on the bytes [bs], the target (with the
    cell behind the text) not overlapping them: the text of [bs],
    a zero behind it, nothing else touched. *)
Lemma encode_text fuel m data target bs :
  text_at m data bs ->
  encoded_size (len_of bs) <= INT_MAX ->
  target + encoded_size (len_of bs) < data \/ data + len_of bs <= target ->
  (List.length bs <= fuel)%nat ->
  exists m',
    fio_base64_encode_internal cs fuel m target data (len_of bs) tbl
    = Some (m', encoded_size (len_of bs))
    /\ text_at m' target (encoded cs tbl bs)
    /\ load8 m' (target + encoded_size (len_of bs)) = 0
    /\ (forall a, a < target \/ target + encoded_size (len_of bs) < a ->
                  m' a = m a).
Proof.
  intros Ht Hs Hd Hf.
  destruct (split_groups3 (List.length bs) bs (le_n _))
    as (gs & tail & -> & Htl).
  assert (Hlen : len_of (groups3 gs ++ tail)
                 = 3 * Z.of_nat (List.length gs) + Z.of_nat (List.length tail)).
  { unfold len_of. rewrite length_app. fold (len_of (groups3 gs)).
    rewrite Nat2Z.inj_add. fold (len_of (groups3 gs)).
    rewrite length_groups3. reflexivity. }
  set (n := List.length gs) in *. set (len := len_of (groups3 gs ++ tail)) in *.
  assert (H0 : 0 <= len) by lia.
  assert (Hq : len / 3 = Z.of_nat n) by (Z.to_euclidean_division_equations; lia).
  assert (Hr : len mod 3 = Z.of_nat (List.length tail))
    by (Z.to_euclidean_division_equations; lia).
  pose proof (encoded_size_split len H0) as Hsz.
  rewrite encode_internal_unfold by assumption.
  rewrite encoded_groups3_tail by assumption.
  apply text_at_app in Ht. rewrite length_groups3 in Ht. fold n in Ht.
  destruct Ht as [Tgs Ttl].
  rewrite Hq, Hr in *. unfold encode_partial.
  assert (Hfn : (n <= fuel)%nat).
  { rewrite length_app in Hf. pose proof (length_groups3 gs) as HL.
    unfold len_of in HL. lia. }
  destruct tail as [|x [|y [|z tl]]]; cbn [List.length] in *; try lia;
    cbn [Z.of_nat Pos.of_succ_nat Pos.succ Z.eqb Pos.eqb] in *.
  - (* whole groups only *)
    replace (data + len - 1) with (data + 3 * Z.of_nat n - 1) by lia.
    replace (target + encoded_size len - 1)
      with (target + 4 * Z.of_nat n - 1) by lia.
    destruct (encode_groups_text cs tbl gs fuel
                (store8 m (target + encoded_size len) 0) data target)
      as (m' & E & T & F); try lia.
    { eapply text_at_frame; [|exact Tgs]. intros a Ha.
      rewrite length_groups3 in Ha. fold n in Ha. cells; reflexivity. }
    fold n in E. rewrite E. exists m'. split; [reflexivity|].
    cbn [encoded_tail]. rewrite app_nil_r. split; [exact T|]. split.
    + unfold load8. rewrite F by (fold n; lia). cells; reflexivity.
    + intros a Ha. rewrite F by (fold n; lia). cells; reflexivity.
  - (* one byte left over *)
    cbn [text_at] in Ttl. destruct Ttl as [Lx _].
    replace (data + len - 1 - 1) with (data + 3 * Z.of_nat n - 1) by lia.
    replace (target + encoded_size len - 1 - 4)
      with (target + 4 * Z.of_nat n - 1) by lia.
    assert (Hx : load_char cs (store8 m (target + encoded_size len) 0)
                           (data + len - 1) = to_char cs x).
    { apply load_char_of. rewrite <- Lx. rewrite load8_store8.
      destruct (Z.eqb_spec (data + len - 1) (target + encoded_size len));
        [lia|f_equal; lia]. }
    rewrite Hx.
    match goal with
    | |- context [encode_groups cs fuel tbl ?m1 _ _ _] =>
        destruct (encode_groups_text cs tbl gs fuel m1 data target)
          as (m' & E & T & F); try lia
    end.
    { eapply text_at_frame; [|exact Tgs]. intros a Ha.
      rewrite length_groups3 in Ha. fold n in Ha. cells; reflexivity. }
    fold n in E. rewrite E. exists m'. split; [reflexivity|]. split; [|split].
    + apply text_at_app. split; [exact T|].
      rewrite length_encoded_groups3. fold n.
      cbn [encoded_tail text_at]. unfold load8. rewrite !F by (fold n; lia).
      repeat split; cells; try reflexivity; apply Z.mod_mod; lia.
    + unfold load8. rewrite F by (fold n; lia). cells; reflexivity.
    + intros a Ha. rewrite F by (fold n; lia). cells; reflexivity.
  - (* two bytes left over *)
    cbn [text_at] in Ttl. destruct Ttl as (Lx & Ly & _).
    replace (data + len - 1 - 2) with (data + 3 * Z.of_nat n - 1) by lia.
    replace (target + encoded_size len - 1 - 4)
      with (target + 4 * Z.of_nat n - 1) by lia.
    assert (Hy : load_char cs (store8 m (target + encoded_size len) 0)
                           (data + len - 1) = to_char cs y).
    { apply load_char_of. rewrite <- Ly. rewrite load8_store8.
      destruct (Z.eqb_spec (data + len - 1) (target + encoded_size len));
        [lia|f_equal; lia]. }
    assert (Hx : load_char cs (store8 m (target + encoded_size len) 0)
                           (data + len - 1 - 1) = to_char cs x).
    { apply load_char_of. rewrite <- Lx. rewrite load8_store8.
      destruct (Z.eqb_spec (data + len - 1 - 1) (target + encoded_size len));
        [lia|f_equal; lia]. }
    rewrite Hx, Hy.
    match goal with
    | |- context [encode_groups cs fuel tbl ?m1 _ _ _] =>
        destruct (encode_groups_text cs tbl gs fuel m1 data target)
          as (m' & E & T & F); try lia
    end.
    { eapply text_at_frame; [|exact Tgs]. intros a Ha.
      rewrite length_groups3 in Ha. fold n in Ha. cells; reflexivity. }
    fold n in E. rewrite E. exists m'. split; [reflexivity|]. split; [|split].
    + apply text_at_app. split; [exact T|].
      rewrite length_encoded_groups3. fold n.
      cbn [encoded_tail text_at]. unfold load8. rewrite !F by (fold n; lia).
      repeat split; cells; try reflexivity; apply Z.mod_mod; lia.
    + unfold load8. rewrite F by (fold n; lia). cells; reflexivity.
    + intros a Ha. rewrite F by (fold n; lia). cells; reflexivity.
Qed.

End EncoderWhole.

(** ** Finite checks *)

Lemma check_below (n : nat) (P : Z -> bool) :
  forallb P (map Z.of_nat (seq 0 n)) = true ->
  forall x, 0 <= x < Z.of_nat n -> P x = true.
Proof.
  intros H x Hx. rewrite forallb_forall in H. apply H.
  replace x with (Z.of_nat (Z.to_nat x)) by lia.
  apply in_map. apply in_seq. lia.
Qed.

Lemma check_below2 (n1 n2 : nat) (P : Z -> Z -> bool) :
  forallb (fun x => forallb (P x) (map Z.of_nat (seq 0 n2)))
          (map Z.of_nat (seq 0 n1)) = true ->
  forall x y, 0 <= x < Z.of_nat n1 -> 0 <= y < Z.of_nat n2 -> P x y = true.
Proof.
  intros H x y Hx Hy.
  apply (check_below n2 (P x)); [|exact Hy].
  apply (check_below n1 (fun x => forallb (P x) (map Z.of_nat (seq 0 n2))));
    assumption.
Qed.

Section Bits.
Variable cs : bool.

(** The first byte comes back from the first two sextets. *)
Lemma first_byte_back b1 y :
  0 <= b1 < 256 -> 0 <= y < 16 ->
  Z.lor (Z.shiftl (Z.land (Z.shiftr (to_char cs b1) 2) 63) 2)
        (Z.shiftr (Z.lor (Z.shiftl (Z.land (to_char cs b1) 3) 4) y) 4)
  mod 256 = b1.
Proof.
  intros Hb Hy. apply Z.eqb_eq.
  apply (check_below2 256 16
           (fun b1 y =>
              Z.lor (Z.shiftl (Z.land (Z.shiftr (to_char cs b1) 2) 63) 2)
                    (Z.shiftr (Z.lor (Z.shiftl (Z.land (to_char cs b1) 3) 4) y)
                              4)
              mod 256 =? b1)); [|lia|lia].
  destruct cs; vm_compute; reflexivity.
Qed.

(** The second byte comes back from the second and third sextets,
    whatever the two bits [h] above and the two bits [x] below it. *)
Lemma second_byte_back h b2 x :
  0 <= h < 4 -> 0 <= b2 < 256 -> 0 <= x < 4 ->
  Z.lor (Z.shiftl (Z.lor (Z.shiftl h 4)
                         (Z.land (Z.shiftr (to_char cs b2) 4) 15)) 4)
        (Z.shiftr (Z.lor (Z.shiftl (Z.land (to_char cs b2) 15) 2) x) 2)
  mod 256 = b2.
Proof.
  intros Hh Hb Hx.
  assert (Hall :
    forallb (fun b2 => forallb (fun hx =>
      Z.lor (Z.shiftl (Z.lor (Z.shiftl (hx / 4) 4)
                             (Z.land (Z.shiftr (to_char cs b2) 4) 15)) 4)
            (Z.shiftr (Z.lor (Z.shiftl (Z.land (to_char cs b2) 15) 2)
                             (hx mod 4)) 2)
      mod 256 =? b2) (map Z.of_nat (seq 0 16))) (map Z.of_nat (seq 0 256))
    = true) by (destruct cs; vm_compute; reflexivity).
  assert (Hr : 0 <= 4 * h + x < Z.of_nat 16) by lia.
  assert (Hb' : 0 <= b2 < Z.of_nat 256) by lia.
  pose proof (check_below2 256 16 _ Hall b2 (4 * h + x) Hb' Hr) as H.
  cbv beta in H.
  replace ((4 * h + x) / 4) with h in H
    by (Z.to_euclidean_division_equations; lia).
  replace ((4 * h + x) mod 4) with x in H
    by (Z.to_euclidean_division_equations; lia).
  apply Z.eqb_eq. exact H.
Qed.

(** The third byte comes back from the last two sextets. *)
Lemma third_byte_back l b3 :
  0 <= l < 16 -> 0 <= b3 < 256 ->
  Z.lor (Z.shiftl (Z.lor (Z.shiftl l 2)
                         (Z.land (Z.shiftr (to_char cs b3) 6) 3)) 6)
        (Z.land (to_char cs b3) 63)
  mod 256 = b3.
Proof.
  intros Hl Hb. apply Z.eqb_eq.
  apply (check_below2 16 256
           (fun l b3 =>
              Z.lor (Z.shiftl (Z.lor (Z.shiftl l 2)
                                     (Z.land (Z.shiftr (to_char cs b3) 6) 3))
                              6)
                    (Z.land (to_char cs b3) 63)
              mod 256 =? b3)); [|lia|lia].
  destruct cs; vm_compute; reflexivity.
Qed.

End Bits.

Lemma shifted_out x n k :
  0 <= n -> 0 <= k -> n + k = 8 ->
  Z.lor (Z.shiftl (Z.shiftl x n) k) 0 mod 256 = 0.
Proof.
  intros Hn Hk E. rewrite Z.lor_0_r, Z.shiftl_shiftl by lia. rewrite E.
  rewrite Z.shiftl_mul_pow2 by lia. change (2 ^ 8) with 256.
  apply Z.mod_mul. lia.
Qed.

Section Inverse.
Variable cs : bool.
Variable oob : Z -> Z.
Variable tbl : list Z.
Hypothesis Htbl : tbl = base64_encodes_original \/ tbl = base64_encodes_url.

(** The backward table gives every character of a forward table its
    index back; the pad stands for 0. *)
Lemma sextet_of_symbol i :
  0 <= i < 64 -> sextet cs oob (char_at tbl i mod 256) = i.
Proof.
  intros Hi. apply Z.eqb_eq.
  apply (check_below 64 (fun i => sextet cs oob (char_at tbl i mod 256) =? i));
    [|lia].
  destruct cs; destruct Htbl as [-> | ->]; vm_compute; reflexivity.
Qed.

Lemma sextet_of_pad : sextet cs oob ch_eq = 0.
Proof. destruct cs; vm_compute; reflexivity. Qed.

Lemma decoded_encoded_group b1 b2 b3 :
  0 <= b1 < 256 -> 0 <= b2 < 256 -> 0 <= b3 < 256 ->
  decoded_group cs oob
    (char_at tbl (Z.land (Z.shiftr (to_char cs b1) 2) 63) mod 256)
    (char_at tbl (Z.lor (Z.shiftl (Z.land (to_char cs b1) 3) 4)
                        (Z.land (Z.shiftr (to_char cs b2) 4) 15)) mod 256)
    (char_at tbl (Z.lor (Z.shiftl (Z.land (to_char cs b2) 15) 2)
                        (Z.land (Z.shiftr (to_char cs b3) 6) 3)) mod 256)
    (char_at tbl (Z.land (to_char cs b3) 63) mod 256)
  = [b1; b2; b3].
Proof.
  intros H1 H2 H3. unfold decoded_group.
  rewrite !sextet_of_symbol
    by (apply idx_hi || apply idx_mid1 || apply idx_mid2 || apply land63).
  rewrite first_byte_back by (assumption || apply land15).
  rewrite second_byte_back by (assumption || apply land3).
  rewrite third_byte_back by (assumption || apply land15).
  reflexivity.
Qed.

Lemma decoded_encoded_two b1 b2 :
  0 <= b1 < 256 -> 0 <= b2 < 256 ->
  decoded cs oob (encoded_tail cs tbl [b1; b2]) = [b1; b2; 0].
Proof.
  intros H1 H2. cbn [encoded_tail decoded app]. unfold decoded_group.
  rewrite sextet_of_pad.
  rewrite !sextet_of_symbol
    by (apply idx_hi || apply idx_mid1 || apply idx_pad2).
  rewrite first_byte_back by (assumption || apply land15).
  rewrite <- (Z.lor_0_r (Z.shiftl (Z.land (to_char cs b2) 15) 2)) at 1.
  rewrite second_byte_back by (assumption || apply land3 || lia).
  rewrite shifted_out by lia. reflexivity.
Qed.

Lemma decoded_encoded_one b1 :
  0 <= b1 < 256 ->
  decoded cs oob (encoded_tail cs tbl [b1]) = [b1; 0; 0].
Proof.
  intros H1. cbn [encoded_tail decoded app]. unfold decoded_group.
  rewrite sextet_of_pad.
  rewrite !sextet_of_symbol by (apply idx_hi || apply idx_pad1).
  rewrite <- (Z.lor_0_r (Z.shiftl (Z.land (to_char cs b1) 3) 4)) at 1.
  rewrite first_byte_back by (assumption || lia).
  change (Z.shiftr 0 2) with 0.
  rewrite shifted_out by lia. reflexivity.
Qed.

End Inverse.

Lemma text_at_bytes m l : forall a,
  text_at m a l -> Forall (fun b => 0 <= b < 256) l.
Proof.
  induction l as [|b l IH]; intros a H; [constructor|].
  cbn [text_at] in H. destruct H as [Hb Hl]. constructor.
  - rewrite <- Hb. apply load8_range.
  - eapply IH. exact Hl.
Qed.

Lemma flatten_plain l : flatten (plain l) = l.
Proof. induction l as [|c l IH]; [reflexivity|]. cbn. f_equal. exact IH. Qed.

Lemma symbols_of_plain l : symbols_of (plain l) = l.
Proof.
  unfold symbols_of, plain. rewrite map_map. cbn [fst]. apply map_id.
Qed.

Section EncodedText.
Variable cs : bool.
Variable tbl : list Z.
Hypothesis Htbl : tbl = base64_encodes_original \/ tbl = base64_encodes_url.

Lemma table_ok : alphabet_ok tbl = true.
Proof. destruct Htbl as [-> | ->]; [apply original_ok | apply url_ok]. Qed.

Lemma table_char_in_alphabets i :
  0 <= i < 64 -> in_alphabets (char_at tbl i mod 256) = true.
Proof.
  intros Hi. destruct (alphabet_ok_at tbl i table_ok Hi) as [H _].
  unfold in_alphabets. destruct Htbl as [-> | ->]; rewrite H;
    [reflexivity|apply orb_true_r].
Qed.

Lemma table_char_no_pad i : 0 <= i < 64 -> char_at tbl i mod 256 <> ch_eq.
Proof. intros Hi. apply (alphabet_ok_at tbl i table_ok Hi). Qed.

Lemma encoded_chars bs :
  Forall (fun c => in_alphabets c = true \/ c = ch_eq) (encoded cs tbl bs).
Proof.
  destruct (split_groups3 (List.length bs) bs (le_n _))
    as (gs & tail & -> & Htl).
  rewrite encoded_groups3_tail by assumption. apply Forall_app. split.
  - induction gs as [|[[a b] c] gs IH]; [constructor|].
    change (encoded_groups3 cs tbl ((a, b, c) :: gs))
      with (encoded_group cs tbl a b c ++ encoded_groups3 cs tbl gs).
    apply Forall_app. split; [|exact IH]. unfold encoded_group.
    repeat (apply Forall_cons;
            [left; apply table_char_in_alphabets;
             (apply idx_hi || apply idx_mid1 || apply idx_mid2
              || apply land63)|]).
    apply Forall_nil.
  - destruct tail as [|x [|y [|z tl]]]; cbn [encoded_tail];
      repeat (apply Forall_cons;
              [first [ right; reflexivity
                     | left; apply table_char_in_alphabets;
                       (apply idx_hi || apply idx_mid1 || apply idx_pad1
                        || apply idx_pad2) ]|]);
      apply Forall_nil.
Qed.

Lemma length_encoded bs :
  len_of (encoded cs tbl bs) = encoded_size (len_of bs).
Proof.
  destruct (split_groups3 (List.length bs) bs (le_n _))
    as (gs & tail & -> & Htl).
  rewrite encoded_groups3_tail by assumption.
  unfold len_of at 1. rewrite length_app.
  rewrite Nat2Z.inj_add. fold (len_of (encoded_groups3 cs tbl gs)).
  rewrite length_encoded_groups3.
  unfold len_of. rewrite length_app. rewrite Nat2Z.inj_add.
  fold (len_of (groups3 gs)). rewrite length_groups3.
  unfold encoded_size.
  destruct tail as [|x [|y [|z tl]]]; cbn [List.length encoded_tail] in *;
    try lia; Z.to_euclidean_division_equations; lia.
Qed.

Lemma pads_of_encoded bs :
  bs <> [] -> pads_of (encoded cs tbl bs) = padding (len_of bs).
Proof.
  intros Hne.
  destruct (split_groups3 (List.length bs) bs (le_n _))
    as (gs & tail & -> & Htl).
  rewrite encoded_groups3_tail by assumption.
  assert (Hlen : len_of (groups3 gs ++ tail)
                 = 3 * Z.of_nat (List.length gs) + Z.of_nat (List.length tail)).
  { unfold len_of. rewrite length_app, Nat2Z.inj_add.
    fold (len_of (groups3 gs)). rewrite length_groups3. reflexivity. }
  unfold padding. rewrite Hlen.
  destruct tail as [|x [|y [|z tl]]]; cbn [List.length encoded_tail] in *;
    try lia.
  - (* whole groups: the last symbol is no pad *)
    destruct (exists_last (l := gs)) as (gs' & [[a b] c] & ->).
    { intros ->. apply Hne. reflexivity. }
    unfold encoded_groups3. rewrite flat_map_app. cbn [flat_map fst snd].
    rewrite !app_nil_r. unfold encoded_group.
    match goal with
    | |- pads_of (?l ++ [?s1; ?s2; ?s3; ?s4]) = _ =>
        replace (l ++ [s1; s2; s3; s4]) with ((l ++ [s1; s2]) ++ [s3; s4])
          by (rewrite <- app_assoc; reflexivity)
    end.
    rewrite pads_of_two_last.
    match goal with
    | |- context [?s =? ch_eq] =>
        destruct (Z.eqb_spec s ch_eq) as [E|_];
          [exfalso; revert E; apply table_char_no_pad; apply land63|]
    end.
    replace ((3 * Z.of_nat (List.length (gs' ++ [(a, b, c)])) + Z.of_nat 0)
             mod 3) with 0 by (Z.to_euclidean_division_equations; lia).
    reflexivity.
  - (* one byte left over *)
    match goal with
    | |- pads_of (?l ++ [?s1; ?s2; ?s3; ?s4]) = _ =>
        replace (l ++ [s1; s2; s3; s4]) with ((l ++ [s1; s2]) ++ [s3; s4])
          by (rewrite <- app_assoc; reflexivity)
    end.
    rewrite pads_of_two_last.
    replace ((3 * Z.of_nat (List.length gs) + Z.of_nat 1) mod 3) with 1
      by (Z.to_euclidean_division_equations; lia).
    reflexivity.
  - (* two bytes left over *)
    match goal with
    | |- pads_of (?l ++ [?s1; ?s2; ?s3; ?s4]) = _ =>
        replace (l ++ [s1; s2; s3; s4]) with ((l ++ [s1; s2]) ++ [s3; s4])
          by (rewrite <- app_assoc; reflexivity)
    end.
    rewrite pads_of_two_last.
    match goal with
    | |- context [?s =? ch_eq] =>
        lazymatch s with
        | ch_eq => fail
        | _ => destruct (Z.eqb_spec s ch_eq) as [E|_];
               [exfalso; revert E; apply table_char_no_pad; apply idx_pad2|]
        end
    end.
    replace ((3 * Z.of_nat (List.length gs) + Z.of_nat 2) mod 3) with 2
      by (Z.to_euclidean_division_equations; lia).
    reflexivity.
Qed.

End EncodedText.

Section RoundTripTop.
Variable cs : bool.
Variable oob : Z -> Z.
Variable tbl : list Z.
Hypothesis Htbl : tbl = base64_encodes_original \/ tbl = base64_encodes_url.

Lemma decoded_encoded_groups3 gs rest :
  Forall (fun b => 0 <= b < 256) (groups3 gs) ->
  decoded cs oob (encoded_groups3 cs tbl gs ++ rest)
  = groups3 gs ++ decoded cs oob rest.
Proof.
  induction gs as [|[[a b] c] gs IH]; intros H; [reflexivity|].
  change (groups3 ((a, b, c) :: gs)) with (a :: b :: c :: groups3 gs) in *.
  change (encoded_groups3 cs tbl ((a, b, c) :: gs))
    with (encoded_group cs tbl a b c ++ encoded_groups3 cs tbl gs).
  inversion H as [|? ? Ha H1]; subst. inversion H1 as [|? ? Hb H2]; subst.
  inversion H2 as [|? ? Hc H3]; subst.
  unfold encoded_group. cbn [app decoded].
  rewrite (decoded_encoded_group cs oob tbl Htbl) by assumption.
  rewrite IH by assumption. reflexivity.
Qed.

(** Decoding the symbols of an encoded text gives the bytes back, with
    up to two zeros behind them for the pads. *)
Lemma decoded_encoded bs :
  Forall (fun b => 0 <= b < 256) bs ->
  exists zs, decoded cs oob (encoded cs tbl bs) = bs ++ zs.
Proof.
  intros Hb.
  destruct (split_groups3 (List.length bs) bs (le_n _))
    as (gs & tail & -> & Htl).
  rewrite encoded_groups3_tail by assumption.
  apply Forall_app in Hb. destruct Hb as [Hg Ht].
  rewrite decoded_encoded_groups3 by assumption.
  destruct tail as [|x [|y [|z tl]]]; cbn [List.length] in Htl; try lia.
  - exists []. cbn [encoded_tail decoded]. rewrite !app_nil_r. reflexivity.
  - inversion Ht; subst.
    rewrite (decoded_encoded_one cs oob tbl Htbl) by assumption.
    exists [0; 0]. rewrite <- app_assoc. reflexivity.
  - inversion Ht as [|? ? Hx Ht']; subst. inversion Ht'; subst.
    rewrite (decoded_encoded_two cs oob tbl Htbl) by assumption.
    exists [0]. rewrite <- app_assoc. reflexivity.
Qed.

(** Encoding and decoding again gives the bytes back whenever the text
    in between holds no 'A'. *)
Lemma round_trip_without_A fuel m data buffer out bs :
  text_at m data bs ->
  encoded_size (len_of bs) <= INT_MAX ->
  Forall (fun c => c <> ch_A) (encoded cs tbl bs) ->
  buffer + encoded_size (len_of bs) < data \/ data + len_of bs <= buffer ->
  out <> 0 ->
  out + 3 * (encoded_size (len_of bs) / 4) <= buffer
  \/ buffer + encoded_size (len_of bs) <= out ->
  (Z.to_nat (encoded_size (len_of bs)) <= fuel)%nat ->
  exists m1 m2,
    fio_base64_encode_internal cs fuel m buffer data (len_of bs) tbl
    = Some (m1, encoded_size (len_of bs))
    /\ fio_base64_decode cs oob fuel m1 out buffer (encoded_size (len_of bs))
       = Some (m2, len_of bs)
    /\ text_at m2 out bs
    /\ load8 m2 (out + len_of bs) = 0.
Proof.
  intros Ht Hs HA Hd Ho Hdo Hf.
  assert (Hsz := length_encoded cs tbl bs).
  assert (Hsn : Z.of_nat (List.length (encoded cs tbl bs))
                = encoded_size (len_of bs)) by exact Hsz.
  assert (Hlen0 : 0 <= len_of bs) by (unfold len_of; lia).
  assert (Hfe : (List.length bs <= fuel)%nat).
  { unfold encoded_size, len_of in *.
    Z.to_euclidean_division_equations; lia. }
  destruct (encode_text cs tbl fuel m data buffer bs Ht Hs Hd Hfe)
    as (m1 & E1 & T1 & _ & _).
  exists m1. destruct bs as [|b0 bs0] eqn:Ebs.
  - (* nothing to encode *)
    exists (store8 m1 out 0). split; [exact E1|].
    change (len_of []) with 0 in *. change (encoded_size 0) with 0 in *.
    rewrite decode_empty by lia.
    destruct (Z.eqb_spec out 0); [contradiction|].
    split; [reflexivity|]. split; [exact I|].
    rewrite Z.add_0_r, load8_store8, Z.eqb_refl. reflexivity.
  - rewrite <- Ebs in *.
    assert (Hne : bs <> []) by (rewrite Ebs; discriminate).
    clear Ebs b0 bs0.
    set (k := Z.to_nat (encoded_size (len_of bs) / 4)).
    assert (Hk : 4 * Z.of_nat k = encoded_size (len_of bs)).
    { unfold k, encoded_size. rewrite Z2Nat.id;
        Z.to_euclidean_division_equations; lia. }
    assert (Hk1 : (1 <= k)%nat).
    { assert (0 < len_of bs)
        by (unfold len_of; destruct bs; [contradiction|cbn; lia]).
      unfold encoded_size in Hk. Z.to_euclidean_division_equations; lia. }
    destruct (decode_items cs oob fuel m1 out buffer
                (plain (encoded cs tbl bs)) k) as (m' & E2 & T2).
    + unfold plain. rewrite length_map. lia.
    + exact Hk1.
    + unfold plain. apply Forall_map. apply Forall_forall. intros c Hc.
      split; [|constructor]. cbn [fst].
      apply clean_symbol_is_symbol. split.
      * pose proof (encoded_chars cs tbl Htbl bs) as Hch.
        rewrite Forall_forall in Hch. apply Hch. exact Hc.
      * rewrite Forall_forall in HA. apply HA. exact Hc.
    + unfold plain. apply Forall_map. apply Forall_forall. intros c _ _.
      reflexivity.
    + rewrite flatten_plain. exact T1.
    + rewrite flatten_plain. lia.
    + rewrite flatten_plain. lia.
    + exact Ho.
    + rewrite flatten_plain. rewrite Hsz.
      replace (3 * Z.of_nat k) with (3 * (encoded_size (len_of bs) / 4))
        by (rewrite <- Hk; Z.to_euclidean_division_equations; lia).
      exact Hdo.
    + rewrite flatten_plain, symbols_of_plain in *.
      rewrite (pads_of_encoded cs tbl Htbl bs Hne) in E2.
      rewrite Hsz in E2.
      assert (Hback : 3 * Z.of_nat k - padding (len_of bs) = len_of bs).
      { unfold padding. unfold encoded_size in Hk.
        destruct (Z.eqb_spec (len_of bs mod 3) 0);
          [|destruct (Z.eqb_spec (len_of bs mod 3) 1)];
          Z.to_euclidean_division_equations; lia. }
      replace (out + 3 * Z.of_nat k - padding (len_of bs))
        with (out + len_of bs) in E2 by lia.
      rewrite Hback in E2.
      eexists. split; [exact E1|]. split; [exact E2|].
      destruct (decoded_encoded bs (text_at_bytes _ _ _ Ht)) as (zs & Hz).
      rewrite Hz in T2. apply text_at_app in T2. destruct T2 as [T2 _].
      split.
      * eapply text_at_frame; [|exact T2]. intros a Ha. cells; reflexivity.
      * rewrite load8_store8, Z.eqb_refl. reflexivity.
Qed.

End RoundTripTop.

(** The lemma at the bytes of "foobar", whose text "Zm9vYmFy" holds no
    'A'. *)
Example round_trip_foobar :
  exists m1 m2,
    fio_base64_encode_internal true 8 (with_text at_data "foobar")
                               at_text at_data 6 base64_encodes_original
    = Some (m1, 8)
    /\ fio_base64_decode true no_oob 8 m1 at_out at_text 8 = Some (m2, 6)
    /\ text_at m2 at_out (bytes_of_string "foobar")
    /\ load8 m2 (at_out + 6) = 0.
Proof.
  apply (round_trip_without_A true no_oob base64_encodes_original
           (or_introl eq_refl) 8 (with_text at_data "foobar")
           at_data at_text at_out (bytes_of_string "foobar")).
  - vm_compute. repeat split.
  - vm_compute. discriminate.
  - vm_compute. repeat (apply Forall_cons; [discriminate|]). apply Forall_nil.
  - right. vm_compute. discriminate.
  - vm_compute. discriminate.
  - right. vm_compute. discriminate.
  - vm_compute. lia.
Qed.

(* ------------------------------------------------------------------ *)
(** ** The vectors of [fio_base64_test] *)

Example encode_f : forall cs,
  encode_string cs "f" = Some (4, bytes_of_string "Zg==" ++ [0]).
Proof. intros [|]; vm_compute; reflexivity. Qed.

Example encode_fo : forall cs,
  encode_string cs "fo" = Some (4, bytes_of_string "Zm8=" ++ [0]).
Proof. intros [|]; vm_compute; reflexivity. Qed.

Example encode_foo : forall cs,
  encode_string cs "foo" = Some (4, bytes_of_string "Zm9v" ++ [0]).
Proof. intros [|]; vm_compute; reflexivity. Qed.

Example encode_foobar : forall cs,
  encode_string cs "foobar" = Some (8, bytes_of_string "Zm9vYmFy" ++ [0]).
Proof. intros [|]; vm_compute; reflexivity. Qed.

Example encode_pleasure : forall cs,
  encode_string cs "any carnal pleasure."
  = Some (28, bytes_of_string "YW55IGNhcm5hbCBwbGVhc3VyZS4=" ++ [0]).
Proof. intros [|]; vm_compute; reflexivity. Qed.

Example decode_Zg : forall cs,
  decode_string cs "Zg==" 2 = Some (1, bytes_of_string "f" ++ [0]).
Proof. intros [|]; vm_compute; reflexivity. Qed.

Example decode_Zm8 : forall cs,
  decode_string cs "Zm8=" 3 = Some (2, bytes_of_string "fo" ++ [0]).
Proof. intros [|]; vm_compute; reflexivity. Qed.

Example decode_Zm9vYmFy : forall cs,
  decode_string cs "Zm9vYmFy" 7 = Some (6, bytes_of_string "foobar" ++ [0]).
Proof. intros [|]; vm_compute; reflexivity. Qed.

Example decode_pleasure : forall cs,
  decode_string cs "YW55IGNhcm5hbCBwbGVhc3VyZS4=" 21
  = Some (20, bytes_of_string "any carnal pleasure." ++ [0]).
Proof. intros [|]; vm_compute; reflexivity. Qed.

(* ------------------------------------------------------------------ *)
(** ** Properties of the codec *)

(** C1, at an input where the round trip breaks.  The three zero bytes
    encode to the text "AAAA"; decoding that text gives none of them
    back: the first skip loop takes 'A', whose table value is 0, for an
    unknown byte, the value returned is 0 and only a terminator is
    stored. *)
Theorem round_trip_loses_zero_bytes :
  forall (cs : bool) (oob : Z -> Z),
    observe 4 at_text
            (fio_base64_encode cs 4 (place scratch at_data [0; 0; 0])
                               at_text at_data 3)
    = Some (4, bytes_of_string "AAAA")
    /\ observe 3 at_out
               (encode_then_decode cs oob 4 (place scratch at_data [0; 0; 0])
                                   at_data 3 at_text at_out)
       = Some (0, [0; 170; 170]).
Proof. intros [|] oob; split; vm_compute; reflexivity. Qed.

(** C2, at an input that overruns the documented buffer.  For the text
    "BBB" the documented size is 3 / 4 * 3 + 3 = 3 bytes; the tail of the
    decoder stores three bytes and then the terminator, at offset 3. *)
Theorem decode_tail_overruns_documented_size :
  forall cs : bool,
    3 / 4 * 3 + 3 = 3
    /\ bytes_at (with_text at_text "BBB") at_out 4 = [170; 170; 170; 170]
    /\ decode_string cs "BBB" 4 = Some (3, [4; 16; 64; 0]).
Proof. intros [|]; repeat split; vm_compute; reflexivity. Qed.

(** C3, at an input that shows the extra store.  Encoding "foo" returns
    4, and the cell at offset 4 of the target, 0xAA before the call,
    holds 0 after it. *)
Theorem encode_stores_terminator :
  forall cs : bool,
    bytes_at (with_text at_data "foo") (at_text + 4) 1 = [170]
    /\ encode_string cs "foo" = Some (4, bytes_of_string "Zm9v" ++ [0]).
Proof. intros [|]; split; vm_compute; reflexivity. Qed.

(** C4, at an input that leaves through an early exit.  For the C string
    made of 'B' and three newlines, with a length of 4, the skip loop
    after the first symbol runs over the newlines and the string's own
    terminator, the decoder leaves through [oops1], returns 1, and the
    cell at offset 1 of the target is still 0xAA: no terminator. *)
Theorem decode_early_exit_stores_no_terminator :
  forall (cs : bool) (oob : Z -> Z),
    observe 2 at_out
            (fio_base64_decode cs oob 8
               (place scratch at_text
                      (bytes_of_string "B" ++ [ch_nl; ch_nl; ch_nl; 0]))
               at_out at_text 4)
    = Some (1, [1; 170]).
Proof. intros [|] oob; vm_compute; reflexivity. Qed.

(** C5, amended.  Take a text [s] of [4 * k >= 4] characters, each a
    symbol of one of the alphabets other than 'A' or a pad (every valid
    Base64 text without 'A' is one), and put bytes of neither alphabet
    other than '=' and ',' into it, anywhere but in front of its first
    character and directly behind a '=': [its] lists the characters of
    [s], each with the bytes put behind it, so [symbols_of its] is [s]
    and [flatten its] the text with the insertions.  Decoded into a
    buffer that does not overlap the text, both texts give the same
    count and the same output bytes, terminator included. *)
Theorem junk_between_symbols_is_skipped :
  forall (cs : bool) (oob : Z -> Z) (fuel : nat) (m m' : mem)
         (out out' e e' : Z) (its : list (Z * list Z)) (k : nat),
    List.length its = (4 * k)%nat -> (1 <= k)%nat ->
    Forall insertion_ok its ->
    text_at m e (symbols_of its) ->
    text_at m' e' (flatten its) ->
    len_of (flatten its) <= INT_MAX ->
    (List.length (flatten its) <= fuel)%nat ->
    out <> 0 -> out' <> 0 ->
    out + 3 * Z.of_nat k <= e \/ e + len_of (symbols_of its) <= out ->
    out' + 3 * Z.of_nat k <= e' \/ e' + len_of (flatten its) <= out' ->
    exists m1 m1' w,
      fio_base64_decode cs oob fuel m out e (len_of (symbols_of its))
        = Some (m1, w) /\
      fio_base64_decode cs oob fuel m' out' e' (len_of (flatten its))
        = Some (m1', w) /\
      forall i, 0 <= i <= w -> load8 m1 (out + i) = load8 m1' (out' + i).
Proof.
  intros cs oob fuel m m' out out' e e' its k Hlen Hk Hok.
  destruct (insertion_ok_well_formed oob its Hok) as [Hwf Hpc].
  apply decode_skips_junk; assumption.
Qed.

Lemma junk_between_symbols_is_skipped_witness :
  List.length foo_with_breaks = (4 * 1)%nat /\ (1 <= 1)%nat
  /\ Forall insertion_ok foo_with_breaks
  /\ text_at (place scratch at_text (symbols_of foo_with_breaks)) at_text
             (symbols_of foo_with_breaks)
  /\ text_at (place scratch at_text (flatten foo_with_breaks)) at_text
             (flatten foo_with_breaks)
  /\ len_of (flatten foo_with_breaks) <= INT_MAX
  /\ (List.length (flatten foo_with_breaks) <= 8)%nat
  /\ at_out <> 0 /\ at_out <> 0
  /\ (at_out + 3 * Z.of_nat 1 <= at_text
      \/ at_text + len_of (symbols_of foo_with_breaks) <= at_out)
  /\ (at_out + 3 * Z.of_nat 1 <= at_text
      \/ at_text + len_of (flatten foo_with_breaks) <= at_out)
  /\ exists m1 m1' w,
      fio_base64_decode true no_oob 8
        (place scratch at_text (symbols_of foo_with_breaks))
        at_out at_text (len_of (symbols_of foo_with_breaks))
        = Some (m1, w) /\
      fio_base64_decode true no_oob 8
        (place scratch at_text (flatten foo_with_breaks))
        at_out at_text (len_of (flatten foo_with_breaks))
        = Some (m1', w) /\
      forall i, 0 <= i <= w -> load8 m1 (at_out + i) = load8 m1' (at_out + i).
Proof.
  assert (H1 : List.length foo_with_breaks = (4 * 1)%nat) by reflexivity.
  assert (H2 : (1 <= 1)%nat) by lia.
  assert (H3 : Forall insertion_ok foo_with_breaks).
  { unfold foo_with_breaks, insertion_ok, clean_symbol, foreign_byte, pad_clean.
    repeat constructor; cbn [fst snd];
      try (left; vm_compute; reflexivity);
      try (vm_compute; discriminate);
      try (vm_compute; reflexivity);
      try (intros E; vm_compute in E; discriminate E). }
  assert (H4 : text_at (place scratch at_text (symbols_of foo_with_breaks))
                       at_text (symbols_of foo_with_breaks))
    by (vm_compute; repeat split).
  assert (H5 : text_at (place scratch at_text (flatten foo_with_breaks))
                       at_text (flatten foo_with_breaks))
    by (vm_compute; repeat split).
  assert (H6 : len_of (flatten foo_with_breaks) <= INT_MAX)
    by (vm_compute; discriminate).
  assert (H7 : (List.length (flatten foo_with_breaks) <= 8)%nat)
    by (vm_compute; lia).
  assert (H8 : at_out <> 0) by (vm_compute; discriminate).
  assert (H9 : at_out + 3 * Z.of_nat 1 <= at_text
               \/ at_text + len_of (symbols_of foo_with_breaks) <= at_out)
    by (right; vm_compute; discriminate).
  assert (H10 : at_out + 3 * Z.of_nat 1 <= at_text
                \/ at_text + len_of (flatten foo_with_breaks) <= at_out)
    by (right; vm_compute; discriminate).
  repeat (split; [assumption|]).
  exact (junk_between_symbols_is_skipped true no_oob 8 _ _ at_out at_out
           at_text at_text foo_with_breaks 1 H1 H2 H3 H4 H5 H6 H7 H8 H8
           H9 H10).
Defined.

(** C5 as stated fails in five ways, each at a valid text and an
    insertion of one byte of neither alphabet that is not '='.  A comma
    is decoded as the symbol of value 63: "Zm,9v" gives four bytes where
    "Zm9v" gives the three of "foo".  A newline in front of the text
    makes the decoder return 0.  A newline between the two pads of
    "Zg==" makes it return 2 instead of 1.  In "BABBQQ==", which holds an
    'A', a newline in front of the pads makes it return 6 instead of 4.
    And decoding in place (null target), "Zg==" gives 2 where the same
    text with a newline behind 'Z' gives 1. *)
Lemma junk_insertion_changes_decode :
  observe 4 at_out (decode_text true (bytes_of_string "Zm9v") at_out)
  = Some (3, bytes_of_string "foo" ++ [0])
  /\ observe 5 at_out (decode_text true (bytes_of_string "Zm,9v") at_out)
     = Some (4, [102; 111; 253; 47; 0])
  /\ observe 1 at_out
             (decode_text true (ch_nl :: bytes_of_string "Zm9v") at_out)
     = Some (0, [0])
  /\ observe 2 at_out (decode_text true (bytes_of_string "Zg==") at_out)
     = Some (1, [102; 0])
  /\ observe 3 at_out
             (decode_text true
                (bytes_of_string "Zg=" ++ ch_nl :: bytes_of_string "=")
                at_out)
     = Some (2, [102; 0; 0])
  /\ observe 5 at_out (decode_text true (bytes_of_string "BABBQQ==") at_out)
     = Some (4, [4; 16; 80; 64; 0])
  /\ observe 6 at_out
             (decode_text true
                (bytes_of_string "BABBQQ" ++ ch_nl :: bytes_of_string "==")
                at_out)
     = Some (6, [4; 16; 80; 64; 0; 0])
  /\ observe 3 at_text (decode_text true (bytes_of_string "Zg==") 0)
     = Some (2, [102; 0; 0])
  /\ observe 2 at_text
             (decode_text true
                (bytes_of_string "Z" ++ ch_nl :: bytes_of_string "g==") 0)
     = Some (1, [102; 0]).
Proof. repeat split; vm_compute; reflexivity. Qed.

(** C6, at a degenerate input that is not answered by 0.  The text is a
    single newline, and the byte in front of it in memory is '='.  The
    padding test reads that byte although nothing was consumed: the
    decoder returns -1 and stores the terminator one cell in front of the
    target, whose own first cell stays 0xAA. *)
Theorem decode_unknown_after_pad_returns_negative :
  forall (cs : bool) (oob : Z -> Z),
    observe 2 (at_out - 1)
            (fio_base64_decode cs oob 8
               (place scratch (at_text - 1) [ch_eq; ch_nl])
               at_out at_text 1)
    = Some (-1, [0; 170]).
Proof. intros [|] oob; vm_compute; reflexivity. Qed.

(** C7, amended.  For every length [len >= 0] whose encoded size
    [4 * ceil(len / 3)] fits an [int] (that is, [len <= 1610612733]),
    any layout of the buffers and either alphabet, the encoder returns
    [4 * ceil(len / 3)]; the characters it leaves in the target are
    symbols of the alphabet, none of them '=', followed by exactly
    [padding len] characters '=': none, two or one as [len mod 3] is 0, 1
    or 2. *)
Theorem encode_length_and_padding :
  forall (cs : bool) (fuel : nat) (m : mem) (target data len : Z)
         (tbl : list Z),
    tbl = base64_encodes_original \/ tbl = base64_encodes_url ->
    0 <= len -> encoded_size len <= INT_MAX ->
    (Z.to_nat (len / 3) <= fuel)%nat ->
    exists m',
      fio_base64_encode_internal cs fuel m target data len tbl
        = Some (m', encoded_size len) /\
      (forall i, 0 <= i < encoded_size len - padding len ->
         is_symbol tbl (load8 m' (target + i)) = true /\
         load8 m' (target + i) <> ch_eq) /\
      (forall i, encoded_size len - padding len <= i < encoded_size len ->
         load8 m' (target + i) = ch_eq).
Proof.
  intros cs fuel m target data len tbl Htbl H0 Hs Hf.
  destruct (encode_internal_layout cs fuel m target data len tbl
              Htbl H0 Hs Hf) as (m' & E & S & P & _).
  exists m'. repeat split; auto; apply S; assumption.
Qed.

Lemma encode_length_and_padding_witness :
  (base64_encodes_original = base64_encodes_original
   \/ base64_encodes_original = base64_encodes_url)
  /\ 0 <= 4 /\ encoded_size 4 <= INT_MAX /\ (Z.to_nat (4 / 3) <= 1)%nat
  /\ exists m',
      fio_base64_encode_internal true 1 (with_text at_data "foob")
                                 at_text at_data 4 base64_encodes_original
        = Some (m', encoded_size 4) /\
      (forall i, 0 <= i < encoded_size 4 - padding 4 ->
         is_symbol base64_encodes_original (load8 m' (at_text + i)) = true /\
         load8 m' (at_text + i) <> ch_eq) /\
      (forall i, encoded_size 4 - padding 4 <= i < encoded_size 4 ->
         load8 m' (at_text + i) = ch_eq).
Proof.
  assert (H1 : base64_encodes_original = base64_encodes_original
               \/ base64_encodes_original = base64_encodes_url)
    by (left; reflexivity).
  assert (H2 : 0 <= 4) by lia.
  assert (H3 : encoded_size 4 <= INT_MAX) by (vm_compute; discriminate).
  assert (H4 : (Z.to_nat (4 / 3) <= 1)%nat) by (vm_compute; lia).
  repeat (split; [assumption|]).
  exact (encode_length_and_padding true 1 (with_text at_data "foob")
           at_text at_data 4 base64_encodes_original H1 H2 H3 H4).
Defined.

(** C7 as stated fails where [4 * ceil(len / 3)] no longer fits the
    [int] the encoder computes it in.  The largest length that fits is
    1610612733; at 1610612736, with data and target far apart, the
    encoder goes through its 536870912 groups and returns -2147483648
    where the law asks for 2147483648. *)
Lemma encode_size_overflows_int :
  encoded_size 1610612733 <= INT_MAX
  /\ INT_MAX < encoded_size 1610612734
  /\ encoded_size 1610612736 = 2147483648
  /\ exists m',
      fio_base64_encode_internal true (Z.to_nat 536870912) scratch
        8589934592 at_data 1610612736 base64_encodes_original
      = Some (m', -2147483648).
Proof.
  split; [vm_compute; discriminate|].
  split; [vm_compute; reflexivity|].
  split; [vm_compute; reflexivity|].
  remember (Z.to_nat 536870912) as g eqn:Eg.
  assert (Hg : Z.of_nat g = 536870912) by (subst g; apply Z2Nat.id; lia).
  clear Eg.
  unfold fio_base64_encode_internal.
  replace (Z.quot 1610612736 3) with 536870912 by reflexivity.
  replace (int_mul 536870912 3) with 1610612736 by reflexivity.
  replace (int_sub 1610612736 1610612736) with 0 by reflexivity.
  cbn zeta. cbn [Z.eqb].
  replace (int_add 536870912 0) with 536870912 by reflexivity.
  replace (int_mul 536870912 4) with (-2147483648) by reflexivity.
  unfold encode_partial. cbn [Z.eqb].
  rewrite <- Hg.
  match goal with
  | |- context [encode_groups true g ?tbl ?m (Z.of_nat g) ?r ?w] =>
      destruct (encode_groups_cells true tbl g g m r w (le_n g))
        as (m' & E & _); [unfold INT_MAX; lia|]
  end.
  rewrite E. exists m'. reflexivity.
Qed.

(** X18.  Encoding in place.  For every [n >= 0] bytes at [buf] whose
    encoded size fits an [int], running the encoder in place (target and
    data both [buf]) returns the same value and leaves the same encoded
    bytes as running it into a separate target [out], when the cells
    from [out] up to and including the one behind the encoded output
    (where the encoder stores a zero) do not overlap the data. *)
Theorem encode_in_place_equiv :
  forall (cs : bool) (fuel : nat) (m : mem) (buf out n : Z) (tbl : list Z),
    0 <= n -> encoded_size n <= INT_MAX ->
    out + encoded_size n < buf \/ buf + n <= out ->
    (Z.to_nat (n / 3) <= fuel)%nat ->
    exists m1 m2,
      fio_base64_encode_internal cs fuel m buf buf n tbl
        = Some (m1, encoded_size n) /\
      fio_base64_encode_internal cs fuel m out buf n tbl
        = Some (m2, encoded_size n) /\
      forall i, 0 <= i < encoded_size n ->
                load8 m1 (buf + i) = load8 m2 (out + i).
Proof.
  intros cs fuel m buf out n tbl H0 Hs Hd Hf.
  rewrite !encode_internal_unfold by assumption.
  pose proof (encoded_size_split n H0) as Hsz.
  assert (Hg : Z.of_nat (Z.to_nat (n / 3)) = n / 3)
    by (apply Z2Nat.id; Z.to_euclidean_division_equations; lia).
  assert (Hgm : Z.of_nat (Z.to_nat (n / 3)) <= INT_MAX)
    by (rewrite Hg; destruct (n mod 3 =? 0); lia).
  assert (Hn : n = 3 * (n / 3) + n mod 3)
    by (Z.to_euclidean_division_equations; lia).
  assert (Hmd : n mod 3 = 0 \/ n mod 3 = 1 \/ n mod 3 = 2)
    by (Z.to_euclidean_division_equations; lia).
  unfold encode_partial.
  destruct Hmd as [E | [E | E]]; rewrite E in *; cbn [Z.eqb Pos.eqb] in *.
  - (* whole groups only *)
    replace (buf + n - 1) with (buf + 3 * (n / 3) - 1) by lia.
    replace (buf + encoded_size n - 1) with (buf + 4 * (n / 3) - 1) by lia.
    replace (out + encoded_size n - 1) with (out + 4 * (n / 3) - 1) by lia.
    rewrite <- Hg.
    destruct (encode_groups_sim cs tbl (Z.to_nat (n / 3)) fuel
                (store8 m (buf + encoded_size n) 0)
                (store8 m (out + encoded_size n) 0) buf out)
      as (mA & mB & EA & EB & FA & FB & S); [assumption|assumption|lia| |].
    { intros j Hj. cells; reflexivity. }
    rewrite EA, EB. exists mA, mB. repeat (split; [reflexivity|]).
    intros i Hi. apply S. lia.
  - (* one byte left over *)
    replace (buf + n - 1 - 1) with (buf + 3 * (n / 3) - 1) by lia.
    replace (buf + encoded_size n - 1 - 4) with (buf + 4 * (n / 3) - 1) by lia.
    replace (out + encoded_size n - 1 - 4) with (out + 4 * (n / 3) - 1) by lia.
    assert (L1 : load_char cs (store8 m (buf + encoded_size n) 0) (buf + n - 1)
                 = load_char cs (store8 m (out + encoded_size n) 0)
                             (buf + n - 1))
      by (apply load_char_ext; cells; reflexivity).
    rewrite L1. rewrite <- Hg.
    match goal with
    | |- context [encode_groups cs fuel tbl ?a _ _ (buf + _ - 1)] =>
        match goal with
        | |- context [encode_groups cs fuel tbl ?b _ _ (out + _ - 1)] =>
            destruct (encode_groups_sim cs tbl (Z.to_nat (n / 3)) fuel
                        a b buf out)
              as (mA & mB & EA & EB & FA & FB & S);
              [assumption|assumption|lia| |]
        end
    end.
    { intros j Hj. cells; reflexivity. }
    rewrite EA, EB. exists mA, mB. repeat (split; [reflexivity|]).
    intros i Hi.
    destruct (Z_lt_ge_dec i (4 * Z.of_nat (Z.to_nat (n / 3)))) as [L|L];
      [apply S; lia|].
    unfold load8. rewrite FA, FB by lia. cells; reflexivity.
  - (* two bytes left over *)
    replace (buf + n - 1 - 2) with (buf + 3 * (n / 3) - 1) by lia.
    replace (buf + encoded_size n - 1 - 4) with (buf + 4 * (n / 3) - 1) by lia.
    replace (out + encoded_size n - 1 - 4) with (out + 4 * (n / 3) - 1) by lia.
    assert (L2 : load_char cs (store8 m (buf + encoded_size n) 0) (buf + n - 1)
                 = load_char cs (store8 m (out + encoded_size n) 0)
                             (buf + n - 1))
      by (apply load_char_ext; cells; reflexivity).
    assert (L1 : load_char cs (store8 m (buf + encoded_size n) 0)
                           (buf + n - 1 - 1)
                 = load_char cs (store8 m (out + encoded_size n) 0)
                             (buf + n - 1 - 1))
      by (apply load_char_ext; cells; reflexivity).
    rewrite L1, L2. rewrite <- Hg.
    match goal with
    | |- context [encode_groups cs fuel tbl ?a _ _ (buf + _ - 1)] =>
        match goal with
        | |- context [encode_groups cs fuel tbl ?b _ _ (out + _ - 1)] =>
            destruct (encode_groups_sim cs tbl (Z.to_nat (n / 3)) fuel
                        a b buf out)
              as (mA & mB & EA & EB & FA & FB & S);
              [assumption|assumption|lia| |]
        end
    end.
    { intros j Hj. cells; reflexivity. }
    rewrite EA, EB. exists mA, mB. repeat (split; [reflexivity|]).
    intros i Hi.
    destruct (Z_lt_ge_dec i (4 * Z.of_nat (Z.to_nat (n / 3)))) as [L|L];
      [apply S; lia|].
    unfold load8. rewrite FA, FB by lia. cells; reflexivity.
Qed.

Lemma encode_in_place_equiv_witness :
  0 <= 3 /\ encoded_size 3 <= INT_MAX
  /\ (at_text + encoded_size 3 < at_data \/ at_data + 3 <= at_text)
  /\ (Z.to_nat (3 / 3) <= 1)%nat
  /\ exists m1 m2,
      fio_base64_encode_internal true 1 (with_text at_data "foo")
                                 at_data at_data 3 base64_encodes_original
        = Some (m1, encoded_size 3) /\
      fio_base64_encode_internal true 1 (with_text at_data "foo")
                                 at_text at_data 3 base64_encodes_original
        = Some (m2, encoded_size 3) /\
      forall i, 0 <= i < encoded_size 3 ->
                load8 m1 (at_data + i) = load8 m2 (at_text + i).
Proof.
  assert (H1 : 0 <= 3) by lia.
  assert (H2 : encoded_size 3 <= INT_MAX) by (vm_compute; discriminate).
  assert (H3 : at_text + encoded_size 3 < at_data \/ at_data + 3 <= at_text)
    by (right; vm_compute; discriminate).
  assert (H4 : (Z.to_nat (3 / 3) <= 1)%nat) by (vm_compute; lia).
  repeat (split; [assumption|]).
  exact (encode_in_place_equiv true 1 (with_text at_data "foo")
           at_data at_text 3 base64_encodes_original H1 H2 H3 H4).
Defined.

(** C8, at an input where the two runs differ.  The separate target is
    the four bytes right in front of the data: it does not overlap the
    three bytes of "foo", yet the zero the encoder stores behind its
    output lands on the first of them before it is read, and the run
    yields "AG9v" where the run in place yields "Zm9v". *)
Theorem encode_adjacent_target_differs :
  (at_data - 4) + encoded_size 3 <= at_data
  /\ observe 4 at_data
             (fio_base64_encode true 1 (with_text at_data "foo")
                                at_data at_data 3)
     = Some (4, bytes_of_string "Zm9v")
  /\ observe 4 (at_data - 4)
             (fio_base64_encode true 1 (with_text at_data "foo")
                                (at_data - 4) at_data 3)
     = Some (4, bytes_of_string "AG9v")
  /\ bytes_of_string "Zm9v" <> bytes_of_string "AG9v".
Proof.
  split; [vm_compute; discriminate|].
  split; [vm_compute; reflexivity|].
  split; [vm_compute; reflexivity|].
  vm_compute. discriminate.
Qed.

(** C9, amended.  The backward table sends 'A' to 0, as it does every
    byte outside both alphabets other than '=' and ','; it sends 'a' to
    26, not to 0.  In consequence the skip condition holds at an 'A' (and
    never at an 'a'): for every text of length at least 1 that starts
    with 'A', the first skip loop counts the whole length away and the
    decoder goes straight to its padding test and terminator, the 'A' is
    not consumed as the symbol of index 0 and nothing is decoded. *)
Theorem skip_conflates_symbol_A :
  forall (cs : bool) (oob : Z -> Z) (fuel : nat) (m : mem)
         (target encoded len : Z),
    1 <= len <= INT_MAX ->
    load8 m encoded = ch_A ->
    (Z.to_nat len <= fuel)%nat ->
    decodes_at oob ch_A = 0
    /\ decodes_at oob ch_a = 26
    /\ (forall c, 0 <= c < 256 -> in_alphabets c = false ->
                  c <> ch_eq -> c <> ch_comma ->
                  decodes_at oob c = decodes_at oob ch_A)
    /\ skip_test oob m len encoded = true
    /\ (forall m' l e, load8 m' e = ch_a -> skip_test oob m' l e = false)
    /\ skip_at_start oob fuel m len encoded = Some (0, encoded)
    /\ fio_base64_decode cs oob fuel m target encoded len
       = Some (decode_finish cs m (if target =? 0 then encoded else target)
                             encoded 0).
Proof.
  intros cs oob fuel m target encoded len Hl HA Hf.
  assert (Hz : decodes_at oob (load8 m encoded) = 0) by (rewrite HA; reflexivity).
  split; [reflexivity|]. split; [reflexivity|]. split.
  { intros c Hc Hin Hne Hnc. change (decodes_at oob ch_A) with 0.
    apply Z.eqb_eq. rewrite zero_valued_bytes by assumption.
    unfold zero_valued. rewrite Hin.
    destruct (Z.eqb_spec c ch_eq); [contradiction|].
    destruct (Z.eqb_spec c ch_comma); [contradiction|].
    apply orb_true_r. }
  split; [apply skip_test_zero_valued; [lia|assumption]|]. split.
  { intros m' l e He. unfold skip_test. rewrite He.
    change (decodes_at oob ch_a =? 0) with false. apply andb_false_r. }
  split; [apply skip_at_start_exhausts; (assumption || lia)|].
  apply decode_leading_zero_valued; assumption.
Qed.

Lemma skip_conflates_symbol_A_witness :
  1 <= 4 <= INT_MAX
  /\ load8 (with_text at_text "AAAA") at_text = ch_A
  /\ (Z.to_nat 4 <= 4)%nat
  /\ (decodes_at no_oob ch_A = 0
      /\ decodes_at no_oob ch_a = 26
      /\ (forall c, 0 <= c < 256 -> in_alphabets c = false ->
                    c <> ch_eq -> c <> ch_comma ->
                    decodes_at no_oob c = decodes_at no_oob ch_A)
      /\ skip_test no_oob (with_text at_text "AAAA") 4 at_text = true
      /\ (forall m' l e, load8 m' e = ch_a -> skip_test no_oob m' l e = false)
      /\ skip_at_start no_oob 4 (with_text at_text "AAAA") 4 at_text
         = Some (0, at_text)
      /\ fio_base64_decode true no_oob 4 (with_text at_text "AAAA")
                           at_out at_text 4
         = Some (decode_finish true (with_text at_text "AAAA")
                               (if at_out =? 0 then at_text else at_out)
                               at_text 0)).
Proof.
  assert (H1 : 1 <= 4 <= INT_MAX) by (unfold INT_MAX; lia).
  assert (H2 : load8 (with_text at_text "AAAA") at_text = ch_A)
    by (vm_compute; reflexivity).
  assert (H3 : (Z.to_nat 4 <= 4)%nat) by (vm_compute; lia).
  repeat (split; [assumption|]).
  exact (skip_conflates_symbol_A true no_oob 4 (with_text at_text "AAAA")
           at_out at_text 4 H1 H2 H3).
Defined.

(** C9 as stated fails at 'a': the table value of 'a' is 26, so the
    table does not send both 'A' and 'a' to 0. *)
Lemma lowercase_a_has_value_26 :
  nth (Z.to_nat ch_a) base64_decodes 0 = 26
  /\ ~ (decodes_at no_oob ch_A = 0 /\ decodes_at no_oob ch_a = 0).
Proof.
  split; [reflexivity|]. intros [_ H]. vm_compute in H. discriminate.
Qed.

(** C10, amended.  The bytes of table value 0 are ['A'] and the bytes
    outside both alphabets other than ['='] and [','].  For every text of
    length [len >= 1] whose first byte is one of them, the first skip
    loop ends with the remaining length 0 and the read cursor where it
    was; the decoder then stores nothing but the terminator ([k] cells
    in front of the target, [k] being the number of '=' the padding
    test finds in front of the text) and returns [- k]: no byte of the
    text is decoded, whatever follows the first byte. *)
Theorem leading_zero_value_decodes_nothing :
  forall (cs : bool) (oob : Z -> Z) (fuel : nat) (m : mem)
         (target encoded len : Z),
    1 <= len <= INT_MAX ->
    zero_valued (load8 m encoded) = true ->
    (Z.to_nat len <= fuel)%nat ->
    (forall c, 0 <= c < 256 ->
               (decodes_at oob c = 0 <-> zero_valued c = true))
    /\ decodes_at oob (load8 m encoded) = 0
    /\ skip_at_start oob fuel m len encoded = Some (0, encoded)
    /\ exists k, 0 <= k <= 2 /\
         fio_base64_decode cs oob fuel m target encoded len
         = Some (store8 m ((if target =? 0 then encoded else target) - k) 0,
                 - k).
Proof.
  intros cs oob fuel m target encoded len Hl Hz Hf.
  assert (Hgloss : forall c, 0 <= c < 256 ->
                     (decodes_at oob c = 0 <-> zero_valued c = true)).
  { intros c Hc. rewrite <- (zero_valued_bytes oob c Hc). symmetry.
    apply Z.eqb_eq. }
  assert (H0 : decodes_at oob (load8 m encoded) = 0)
    by (apply Hgloss; [apply load8_range|exact Hz]).
  split; [exact Hgloss|]. split; [exact H0|]. split.
  - apply skip_at_start_exhausts; (assumption || lia).
  - rewrite decode_leading_zero_valued by assumption.
    destruct (decode_finish_shape cs m (if target =? 0 then encoded else target)
                                  encoded) as (k & Hk & E).
    exists k. split; [exact Hk|]. rewrite E. reflexivity.
Qed.

Lemma leading_zero_value_decodes_nothing_witness :
  1 <= 5 <= INT_MAX
  /\ zero_valued
       (load8 (place scratch at_text (ch_nl :: bytes_of_string "Zm9v"))
              at_text) = true
  /\ (Z.to_nat 5 <= 5)%nat
  /\ (forall c, 0 <= c < 256 ->
                (decodes_at no_oob c = 0 <-> zero_valued c = true))
  /\ decodes_at no_oob
       (load8 (place scratch at_text (ch_nl :: bytes_of_string "Zm9v"))
              at_text) = 0
  /\ skip_at_start no_oob 5
       (place scratch at_text (ch_nl :: bytes_of_string "Zm9v")) 5 at_text
     = Some (0, at_text)
  /\ exists k, 0 <= k <= 2 /\
       fio_base64_decode true no_oob 5
         (place scratch at_text (ch_nl :: bytes_of_string "Zm9v"))
         at_out at_text 5
       = Some (store8
                 (place scratch at_text (ch_nl :: bytes_of_string "Zm9v"))
                 ((if at_out =? 0 then at_text else at_out) - k) 0,
               - k).
Proof.
  assert (H1 : 1 <= 5 <= INT_MAX) by (unfold INT_MAX; lia).
  assert (H2 : zero_valued
                 (load8 (place scratch at_text
                               (ch_nl :: bytes_of_string "Zm9v")) at_text)
               = true)
    by (vm_compute; reflexivity).
  assert (H3 : (Z.to_nat 5 <= 5)%nat) by (vm_compute; lia).
  repeat (split; [assumption|]).
  exact (leading_zero_value_decodes_nothing true no_oob 5
           (place scratch at_text (ch_nl :: bytes_of_string "Zm9v"))
           at_out at_text 5 H1 H2 H3).
Defined.

(** C10 as stated fails at a first byte that lies outside both
    alphabets and yet has a table value: [','] has 63 and ['='] has 64.
    The skip loop stops at them at once, and ",m9v" and "=m9v" are
    decoded to three bytes each. *)
Lemma comma_or_pad_in_front_is_decoded :
  in_alphabets ch_comma = false /\ in_alphabets ch_eq = false
  /\ decodes_at no_oob ch_comma = 63 /\ decodes_at no_oob ch_eq = 64
  /\ observe 4 at_out (decode_text true (bytes_of_string ",m9v") at_out)
     = Some (3, [254; 111; 111; 0])
  /\ observe 4 at_out (decode_text true (bytes_of_string "=m9v") at_out)
     = Some (3, [2; 111; 111; 0]).
Proof. repeat split; vm_compute; reflexivity. Qed.
(* ------------------------------------------------------------------ *)
(** ** The decoder on texts of any length, in place or not *)

Section Behind.
Variable cs : bool.
Variable oob : Z -> Z.

(** One turn of the loop when the write cursor is not in front of the
    read cursor: the three bytes land on cells already read. *)
Lemma decode_groups_behind fuel sf m t e written x1 J1 x2 J2 x3 J3 x4 J4 tl :
  text_at m e (x1 :: J1 ++ x2 :: J2 ++ x3 :: J3 ++ x4 :: J4 ++ tl) ->
  symbol_byte oob x1 -> symbol_byte oob x2 ->
  symbol_byte oob x3 -> symbol_byte oob x4 ->
  Forall (junk_byte oob) J1 -> Forall (junk_byte oob) J2 ->
  Forall (junk_byte oob) J3 -> Forall (junk_byte oob) J4 ->
  (tl = [] \/ exists y tl', tl = y :: tl' /\ symbol_byte oob y) ->
  len_of (x1 :: J1 ++ x2 :: J2 ++ x3 :: J3 ++ x4 :: J4 ++ tl) <= INT_MAX ->
  (List.length (x1 :: J1 ++ x2 :: J2 ++ x3 :: J3 ++ x4 :: J4 ++ tl) <= sf)%nat ->
  0 <= written <= INT_MAX - 3 ->
  t <= e \/
  e + len_of (x1 :: J1 ++ x2 :: J2 ++ x3 :: J3 ++ x4 :: J4 ++ tl) <= t ->
  exists m2,
    decode_groups cs oob (S fuel) sf m t e
      (len_of (x1 :: J1 ++ x2 :: J2 ++ x3 :: J3 ++ x4 :: J4 ++ tl)) written
    = decode_groups cs oob fuel sf m2 (t + 3)
        (e + len_of (x1 :: J1 ++ x2 :: J2 ++ x3 :: J3 ++ x4 :: J4) )
        (len_of tl) (written + 3)
    /\ text_at m2 t (decoded_group cs oob x1 x2 x3 x4)
    /\ (forall a, a < t \/ t + 3 <= a -> m2 a = m a).
Proof.
  intros Ht S1 S2 S3 S4 HJ1 HJ2 HJ3 HJ4 Htl Hmax Hsf Hw Hd.
  unfold len_of in *.
  repeat (cbn [text_at] in Ht || rewrite text_at_app in Ht).
  unfold len_of in Ht.
  destruct Ht as (L1 & T1 & L2 & T2 & L3 & T3 & L4 & T4 & Ttl).
  repeat (rewrite ?length_app in * || cbn [List.length] in * ).
  set (n1 := List.length J1) in *. set (n2 := List.length J2) in *.
  set (n3 := List.length J3) in *. set (n4 := List.length J4) in *.
  set (nt := List.length tl) in *.
  eexists. split; [|split].
  - cbn [decode_groups].
    match goal with |- context [4 <=? ?l] =>
      destruct (Z.leb_spec 4 l); [|lia] end.
    rewrite skip_unknown_stop
      by (apply skip_test_symbol; rewrite L1; apply S1).
    match goal with |- context [?l =? 0] =>
      destruct (Z.eqb_spec l 0); [lia|] end.
    rewrite (load_char_of cs _ _ _ L1).
    rewrite (skip_unknown_junk oob J1); try assumption;
      [|unfold len_of; fold n1; lia|fold n1; lia
       |right; unfold len_of; fold n1; rewrite L2; apply S2].
    unfold len_of; fold n1.
    match goal with |- context [?l =? 0] =>
      destruct (Z.eqb_spec l 0); [lia|] end.
    rewrite (load_char_of cs _ _ _ L2).
    rewrite (skip_unknown_junk oob J2); try assumption;
      [|unfold len_of; fold n2; lia|fold n2; lia
       |right; unfold len_of; fold n2; rewrite L3; apply S3].
    unfold len_of; fold n2.
    match goal with |- context [?l =? 0] =>
      destruct (Z.eqb_spec l 0); [lia|] end.
    rewrite (load_char_of cs _ _ _ L3).
    rewrite (skip_unknown_junk oob J3); try assumption;
      [|unfold len_of; fold n3; lia|fold n3; lia
       |right; unfold len_of; fold n3; rewrite L4; apply S4].
    unfold len_of; fold n3.
    match goal with |- context [?l =? 0] =>
      destruct (Z.eqb_spec l 0); [lia|] end.
    rewrite (load_char_of cs _ _ _ L4).
    unfold int_sub, int_add.
    rewrite !wrap_int_id by (unfold INT_MIN, INT_MAX in *; lia).
    rewrite (skip_unknown_junk oob J4).
    + unfold len_of; fold n4. f_equal; lia.
    + assumption.
    + eapply text_at_frame; [|exact T4]. intros x Hx. unfold len_of in Hx.
      fold n4 in Hx. cells; reflexivity.
    + unfold len_of; fold n4. lia.
    + fold n4. lia.
    + unfold len_of; fold n4.
      destruct Htl as [-> | (y & tl' & -> & Sy)].
      * left. subst nt. cbn [List.length]. lia.
      * right. cbn [text_at] in Ttl. destruct Ttl as [Ly _].
        match goal with
        | |- decodes_at oob (load8 ?mm ?a) <> 0 =>
            replace (load8 mm a) with y; [apply Sy|]
        end.
        rewrite <- Ly. subst nt. cbn [List.length] in *.
        cells; f_equal; lia.
  - cbn [text_at decoded_group]. unfold sextet.
    repeat split; cells; apply Z.mod_mod; lia.
  - intros a Ha. cells; reflexivity.
Qed.

End Behind.

Lemma flatten_cons x J its : flatten ((x, J) :: its) = x :: J ++ flatten its.
Proof. reflexivity. Qed.

Lemma len_of_app (l1 l2 : list Z) : len_of (l1 ++ l2) = len_of l1 + len_of l2.
Proof. unfold len_of. rewrite length_app. lia. Qed.

Lemma len_of_cons (x : Z) l : len_of (x :: l) = 1 + len_of l.
Proof. unfold len_of. cbn [List.length]. lia. Qed.

Lemma len_of_nonneg (l : list Z) : 0 <= len_of l.
Proof. unfold len_of. lia. Qed.

Lemma length_flatten its :
  (List.length its <= List.length (flatten its))%nat.
Proof.
  induction its as [|[x J] its IH]; [cbn; lia|].
  rewrite flatten_cons. cbn [List.length]. rewrite length_app. lia.
Qed.

Section Run2.
Variable cs : bool.
Variable oob : Z -> Z.

(** The loop over [4 * k] symbols, with junk between them, that are
    followed by the bytes [tl]: the groups are decoded and the loop goes
    on at [tl] with the length of [tl].  The target may be the text
    itself. *)
Lemma decode_groups_run : forall (k : nat) its tl fuel sf m t e written,
  List.length its = (4 * k)%nat ->
  Forall (well_formed oob) its ->
  (tl = [] \/ exists y tl', tl = y :: tl' /\ symbol_byte oob y) ->
  text_at m e (flatten its ++ tl) ->
  len_of (flatten its ++ tl) <= INT_MAX ->
  (List.length (flatten its ++ tl) <= sf)%nat ->
  0 <= written -> written + 3 * Z.of_nat k <= INT_MAX ->
  t <= e \/ e + len_of (flatten its ++ tl) <= t ->
  exists m',
    decode_groups cs oob (k + fuel) sf m t e (len_of (flatten its ++ tl))
                  written
    = decode_groups cs oob fuel sf m' (t + 3 * Z.of_nat k)
                    (e + len_of (flatten its)) (len_of tl)
                    (written + 3 * Z.of_nat k)
    /\ text_at m' t (decoded cs oob (symbols_of its))
    /\ (forall a, a < t \/ t + 3 * Z.of_nat k <= a -> m' a = m a).
Proof.
  induction k as [|k IH]; intros its tl fuel sf m t e written Hlen Hwf Htl Ht
                                Hmax Hsf Hw0 Hw Hd.
  - destruct its; [|discriminate]. exists m.
    cbn [flatten flat_map app symbols_of map decoded text_at Nat.add].
    change (len_of []) with 0. rewrite !Z.add_0_r.
    repeat split; reflexivity.
  - destruct its as [|[x1 J1] [|[x2 J2] [|[x3 J3] [|[x4 J4] rest]]]];
      try (cbn in Hlen; lia).
    inversion Hwf as [|? ? [S1 HJ1] Hwf1]; subst.
    inversion Hwf1 as [|? ? [S2 HJ2] Hwf2]; subst.
    inversion Hwf2 as [|? ? [S3 HJ3] Hwf3]; subst.
    inversion Hwf3 as [|? ? [S4 HJ4] Hwf4]; subst.
    cbn [fst snd] in *.
    assert (Hfl : flatten ((x1, J1) :: (x2, J2) :: (x3, J3) :: (x4, J4) :: rest)
                  ++ tl
                  = x1 :: J1 ++ x2 :: J2 ++ x3 :: J3 ++ x4 :: J4
                       ++ (flatten rest ++ tl)).
    { rewrite !flatten_cons. cbn [app].
      repeat (rewrite <- ?app_comm_cons; rewrite <- ?app_assoc). reflexivity. }
    assert (Hfl' : flatten ((x1, J1) :: (x2, J2) :: (x3, J3) :: (x4, J4) :: rest)
                  = (x1 :: J1 ++ x2 :: J2 ++ x3 :: J3 ++ x4 :: J4)
                      ++ flatten rest).
    { rewrite !flatten_cons. cbn [app].
      repeat (rewrite <- ?app_comm_cons; rewrite <- ?app_assoc). reflexivity. }
    rewrite Hfl in *. rewrite Hfl'.
    set (grp := x1 :: J1 ++ x2 :: J2 ++ x3 :: J3 ++ x4 :: J4) in *.
    assert (Hsplit : len_of (x1 :: J1 ++ x2 :: J2 ++ x3 :: J3 ++ x4 :: J4
                                ++ (flatten rest ++ tl))
                     = len_of grp + len_of (flatten rest ++ tl)).
    { unfold len_of, grp.
      repeat (rewrite ?length_app || cbn [List.length]). lia. }
    assert (Hg4 : 4 <= len_of grp).
    { unfold len_of, grp.
      repeat (rewrite ?length_app || cbn [List.length]). lia. }
    assert (Hr0 := len_of_nonneg (flatten rest ++ tl)).
    destruct (decode_groups_behind cs oob (k + fuel) sf m t e written
                x1 J1 x2 J2 x3 J3 x4 J4 (flatten rest ++ tl))
      as (m2 & E & G & F); try assumption.
    { destruct (flatten_head oob rest Hwf4) as [-> | (y & tl' & -> & Sy)].
      - exact Htl.
      - right. exists y, (tl' ++ tl). split; [reflexivity|exact Sy]. }
    { lia. }
    change (S k + fuel)%nat with (S (k + fuel)). rewrite E.
    assert (Ttl : text_at m (e + len_of grp) (flatten rest ++ tl)).
    { replace (x1 :: J1 ++ x2 :: J2 ++ x3 :: J3 ++ x4 :: J4
                  ++ (flatten rest ++ tl))
        with (grp ++ (flatten rest ++ tl)) in Ht.
      - apply text_at_app in Ht. apply Ht.
      - unfold grp. cbn [app].
        repeat (rewrite <- ?app_comm_cons; rewrite <- ?app_assoc).
        reflexivity. }
    destruct (IH rest tl fuel sf m2 (t + 3) (e + len_of grp) (written + 3))
      as (m' & E' & D & F'); try assumption; try lia.
    { cbn [List.length] in Hlen. lia. }
    { eapply text_at_frame; [|exact Ttl]. intros a Ha. apply F. lia. }
    { unfold len_of in *. lia. }
    fold grp. rewrite E'. exists m'. split; [|split].
    + rewrite len_of_app. f_equal; lia.
    + cbn [symbols_of map fst decoded]. apply text_at_app. split.
      * eapply text_at_frame; [|exact G]. intros a Ha.
        unfold len_of, decoded_group in Ha. cbn [List.length] in Ha.
        apply F'. lia.
      * unfold len_of, decoded_group. cbn [List.length]. exact D.
    + intros a Ha. rewrite F' by lia. apply F. lia.
Qed.

End Run2.

Section Whole.
Variable cs : bool.
Variable oob : Z -> Z.

(** The [switch] behind the loop, on the one to three bytes left. *)
Lemma decode_tail_text m t e tl written :
  (List.length tl < 4)%nat -> text_at m e tl ->
  0 <= written <= INT_MAX - 3 ->
  exists m1,
    decode_tail cs oob m t e (len_of tl) written
    = (m1, t + len_of tl, e + len_of tl, written + len_of tl)
    /\ text_at m1 t (decoded_tail cs oob tl)
    /\ (forall a, a < t \/ t + len_of tl <= a -> m1 a = m a).
Proof.
  intros Hl Ht Hw.
  assert (Hwr : forall n, 0 <= n <= 3 -> int_add written n = written + n).
  { intros n Hn. unfold int_add. apply wrap_int_id.
    unfold INT_MIN, INT_MAX in *. lia. }
  destruct tl as [|x1 [|x2 [|x3 [|x4 tl]]]]; cbn [List.length] in Hl; try lia;
    cbn [text_at] in Ht; unfold decode_tail; cbn [len_of List.length Z.of_nat
      Pos.of_succ_nat Pos.succ Z.eqb Pos.eqb].
  - exists m. rewrite !Z.add_0_r. repeat split; reflexivity.
  - destruct Ht as (L1 & _). exists (store8 m t (sextet cs oob x1)).
    unfold sextet. rewrite <- L1. rewrite Hwr by lia.
    split; [reflexivity|]. split.
    + cbn [decoded_tail text_at]. split; [|exact I].
      unfold sextet. cells; apply Z.mod_mod; lia.
    + intros a Ha. cells; reflexivity.
  - destruct Ht as (L1 & L2 & _).
    eexists. rewrite Hwr by lia. split; [reflexivity|]. split.
    + cbn [decoded_tail text_at]. unfold sextet, load_char.
      rewrite L1, L2. repeat split; cells; apply Z.mod_mod; lia.
    + intros a Ha. cells; reflexivity.
  - destruct Ht as (L1 & L2 & L3 & _).
    eexists. rewrite Hwr by lia. split; [reflexivity|]. split.
    + cbn [decoded_tail text_at]. unfold sextet, load_char.
      replace (e + 2) with (e + 1 + 1) by lia.
      rewrite L1, L2, L3. repeat split; cells; apply Z.mod_mod; lia.
    + intros a Ha. cells; reflexivity.
Qed.

Lemma length_decoded_tail tl :
  (List.length tl < 4)%nat -> len_of (decoded_tail cs oob tl) = len_of tl.
Proof.
  destruct tl as [|x1 [|x2 [|x3 [|x4 tl]]]]; cbn [List.length]; intros H;
    try lia; reflexivity.
Qed.

(** A whole call on a text whose symbols, with junk between them, come
    in [k] groups of four and at most three bytes more.  The target is a
    buffer behind the text, or the text itself (or a part in front of
    it) when the padding test still finds the last two bytes of the
    text as they were. *)
Lemma decode_run fuel m target e its tl (k : nat) :
  List.length its = (4 * k)%nat ->
  Forall (well_formed oob) its ->
  (List.length tl < 4)%nat ->
  (tl = [] \/ exists y tl', tl = y :: tl' /\ symbol_byte oob y) ->
  (2 <= List.length (flatten its ++ tl))%nat ->
  text_at m e (flatten its ++ tl) ->
  len_of (flatten its ++ tl) <= INT_MAX ->
  (List.length (flatten its ++ tl) <= fuel)%nat ->
  (let t := if target =? 0 then e else target in
   (t <= e
    /\ t + 3 * Z.of_nat k + len_of tl + 2 <= e + len_of (flatten its ++ tl))
   \/ e + len_of (flatten its ++ tl) <= t) ->
  exists m',
    fio_base64_decode cs oob fuel m target e (len_of (flatten its ++ tl))
    = Some (store8 m' ((if target =? 0 then e else target)
                       + 3 * Z.of_nat k + len_of tl
                       - pads_of (flatten its ++ tl)) 0,
            3 * Z.of_nat k + len_of tl - pads_of (flatten its ++ tl))
    /\ text_at m' (if target =? 0 then e else target)
               (decoded cs oob (symbols_of its) ++ decoded_tail cs oob tl)
    /\ (forall a, a < (if target =? 0 then e else target)
                  \/ (if target =? 0 then e else target)
                     + 3 * Z.of_nat k + len_of tl <= a -> m' a = m a).
Proof.
  intros Hlen Hwf Hl Htl H2 Ht Hmax Hf Hd.
  set (t := if target =? 0 then e else target) in *. cbn zeta in Hd.
  set (txt := flatten its ++ tl) in *.
  assert (Hn : (4 * k <= List.length (flatten its))%nat).
  { rewrite <- Hlen. apply length_flatten. }
  assert (Hlt : len_of txt = len_of (flatten its) + len_of tl)
    by apply len_of_app.
  assert (Hnz : 4 * Z.of_nat k <= len_of (flatten its))
    by (unfold len_of; lia).
  assert (Ht0 := len_of_nonneg tl).
  assert (Hkf : (k <= fuel)%nat).
  { assert (Hc := Hlt). unfold len_of in Hc. lia. }
  assert (Htl3 : len_of tl <= 3) by (unfold len_of; lia).
  (* the text starts with a symbol *)
  assert (Hhd : decodes_at oob (load8 m e) <> 0).
  { destruct its as [|[x J] its'].
    - destruct Htl as [E | (y & tl' & E & Sy)].
      + subst tl. cbn in H2. lia.
      + subst txt. rewrite E in Ht. cbn [flatten flat_map app text_at] in Ht.
        destruct Ht as [L _]. rewrite L. apply Sy.
    - inversion Hwf as [|? ? [Sx _] _]; subst. subst txt.
      rewrite flatten_cons in Ht. cbn [app text_at] in Ht.
      destruct Ht as [L _]. rewrite L. apply Sx. }
  destruct (decode_groups_run cs oob k its tl (fuel - k) fuel m t e 0)
    as (m1 & E1 & D1 & F1); try assumption; try lia.
  { fold txt. lia. }
  assert (Tt : text_at m1 (e + len_of (flatten its)) tl).
  { subst txt. apply text_at_app in Ht. destruct Ht as [_ Ht].
    eapply text_at_frame; [|exact Ht]. intros a Ha. apply F1. lia. }
  destruct (decode_tail_text m1 (t + 3 * Z.of_nat k)
              (e + len_of (flatten its)) tl (0 + 3 * Z.of_nat k) Hl Tt)
    as (m2 & E2 & D2 & F2).
  { unfold INT_MAX in *. lia. }
  (* the last two bytes of the text, still in place at the end *)
  destruct (two_last txt H2) as (l' & y & x & Exy).
  assert (Hlast : text_at m2 (e + len_of txt - len_of [y; x]) [y; x]).
  { assert (T0 : text_at m (e + len_of l') [y; x]).
    { rewrite Exy in Ht. apply text_at_app in Ht. apply Ht. }
    assert (Hll : len_of txt = len_of l' + 2).
    { rewrite Exy, len_of_app. reflexivity. }
    change (len_of [y; x]) with 2.
    replace (e + len_of txt - 2) with (e + len_of l') by lia.
    eapply text_at_frame; [|exact T0]. intros a Ha.
    change (len_of [y; x]) with 2 in Ha.
    rewrite F2 by lia. apply F1. lia. }
  assert (Hp : pads_of txt = pads_of [y; x]).
  { rewrite Exy, pads_of_two_last. exact (eq_sym (pads_of_two_last [] y x)). }
  assert (Hpr := pads_of_range txt).
  exists m2. split; [|split].
  - unfold fio_base64_decode. fold t.
    destruct (Z.leb_spec (len_of txt) 0); [unfold len_of in *; lia|].
    rewrite skip_at_start_stop by (apply skip_test_symbol; exact Hhd).
    replace fuel with (k + (fuel - k))%nat at 1 by lia.
    fold txt in E1. rewrite E1.
    rewrite decode_groups_short by lia.
    rewrite E2.
    rewrite (decode_finish_text cs m2 _ _ [y; x]).
    + rewrite <- Hp, Z.add_0_l. reflexivity.
    + cbn. lia.
    + replace (e + len_of (flatten its) + len_of tl) with (e + len_of txt)
        by lia. exact Hlast.
    + unfold INT_MIN, INT_MAX in *. lia.
  - apply text_at_app. split.
    + eapply text_at_frame; [|exact D1]. intros a Ha. apply F2.
      assert (Hld : len_of (decoded cs oob (symbols_of its))
                    = 3 * Z.of_nat k).
      { unfold len_of. rewrite (length_decoded cs oob k).
        - lia.
        - unfold symbols_of. rewrite length_map. exact Hlen. }
      lia.
    + assert (Hld : len_of (decoded cs oob (symbols_of its))
                    = 3 * Z.of_nat k).
      { unfold len_of. rewrite (length_decoded cs oob k).
        - lia.
        - unfold symbols_of. rewrite length_map. exact Hlen. }
      rewrite Hld. exact D2.
  - intros a Ha. rewrite F2 by lia. apply F1. lia.
Qed.

End Whole.

(* ------------------------------------------------------------------ *)
(** ** The decoder beyond whole groups *)

Lemma sextet_range cs oob x : 0 <= sextet cs oob x < 64.
Proof. unfold sextet, BITVAL. apply land63. Qed.

(** X1.  What [fio_base64_decode] returns and stores for a text of at
    least two bytes whose symbols, with junk only behind symbols, come
    in [k] groups of four followed by [r <= 3] more bytes (the first of
    them a symbol), when the target is a buffer of its own: the value
    returned is
    [3 * k + r] less the number of ['='] among the last two bytes of the
    text; the bytes in front of that index are those of the groups,
    then those of the tail; a zero stands at that index; and no cell
    outside the [3 * k + r + 1] cells from the target on is changed. *)
Theorem decode_groups_then_tail :
  forall (cs : bool) (oob : Z -> Z) (fuel : nat) (m : mem) (target e : Z)
         (its : list (Z * list Z)) (tl : list Z) (k : nat),
    List.length its = (4 * k)%nat ->
    Forall (well_formed oob) its ->
    (List.length tl < 4)%nat ->
    (tl = [] \/ exists y tl', tl = y :: tl' /\ symbol_byte oob y) ->
    (2 <= List.length (flatten its ++ tl))%nat ->
    text_at m e (flatten its ++ tl) ->
    len_of (flatten its ++ tl) <= INT_MAX ->
    (List.length (flatten its ++ tl) <= fuel)%nat ->
    target <> 0 ->
    target + 3 * Z.of_nat k + len_of tl < e
    \/ e + len_of (flatten its ++ tl) <= target ->
    exists m',
      fio_base64_decode cs oob fuel m target e (len_of (flatten its ++ tl))
      = Some (m', 3 * Z.of_nat k + len_of tl - pads_of (flatten its ++ tl))
      /\ (forall i,
            0 <= i < 3 * Z.of_nat k + len_of tl - pads_of (flatten its ++ tl) ->
            load8 m' (target + i)
            = nth (Z.to_nat i)
                  (decoded cs oob (symbols_of its) ++ decoded_tail cs oob tl) 0)
      /\ load8 m' (target + 3 * Z.of_nat k + len_of tl
                   - pads_of (flatten its ++ tl)) = 0
      /\ (forall a, a < target \/ target + 3 * Z.of_nat k + len_of tl < a ->
                    m' a = m a).
Proof.
  intros cs oob fuel m target e its tl k Hlen Hwf Hl Htl H2 Ht Hmax Hf Hn Hd.
  assert (Hp := pads_of_range (flatten its ++ tl)).
  assert (H2' : 2 <= len_of (flatten its ++ tl)) by (unfold len_of; lia).
  assert (Hr := len_of_nonneg tl).
  assert (Hge : 2 <= 3 * Z.of_nat k + len_of tl).
  { destruct k as [|k]; [|lia].
    destruct its; [|discriminate]. exact H2'. }
  destruct (decode_run cs oob fuel m target e its tl k)
    as (m1 & E & D & F); try assumption.
  { cbn zeta. destruct (Z.eqb_spec target 0); [contradiction|]. lia. }
  destruct (Z.eqb_spec target 0); [contradiction|].
  eexists. split; [exact E|]. split; [|split].
  - intros i Hi. rewrite load8_store8.
    destruct (Z.eqb_spec (target + i)
                (target + 3 * Z.of_nat k + len_of tl
                 - pads_of (flatten its ++ tl))); [lia|].
    apply text_at_nth; [exact D|].
    rewrite len_of_app, length_decoded_tail by assumption.
    unfold len_of at 1. rewrite (length_decoded cs oob k)
      by (unfold symbols_of; rewrite length_map; exact Hlen). lia.
  - rewrite load8_store8, Z.eqb_refl. reflexivity.
  - intros a Ha. unfold store8.
    destruct (Z.eqb_spec a (target + 3 * Z.of_nat k + len_of tl
                            - pads_of (flatten its ++ tl))); [lia|].
    apply F. lia.
Qed.

Lemma decode_groups_then_tail_witness :
  List.length fooba_groups = (4 * 1)%nat
  /\ Forall (well_formed no_oob) fooba_groups
  /\ (List.length fooba_rest < 4)%nat
  /\ (fooba_rest = []
      \/ exists y tl', fooba_rest = y :: tl' /\ symbol_byte no_oob y)
  /\ (2 <= List.length (flatten fooba_groups ++ fooba_rest))%nat
  /\ text_at (place scratch at_text (flatten fooba_groups ++ fooba_rest))
             at_text (flatten fooba_groups ++ fooba_rest)
  /\ len_of (flatten fooba_groups ++ fooba_rest) <= INT_MAX
  /\ (List.length (flatten fooba_groups ++ fooba_rest) <= 7)%nat
  /\ at_out <> 0
  /\ (at_out + 3 * Z.of_nat 1 + len_of fooba_rest < at_text
      \/ at_text + len_of (flatten fooba_groups ++ fooba_rest) <= at_out)
  /\ exists m',
      fio_base64_decode true no_oob 7
        (place scratch at_text (flatten fooba_groups ++ fooba_rest))
        at_out at_text (len_of (flatten fooba_groups ++ fooba_rest))
      = Some (m', 3 * Z.of_nat 1 + len_of fooba_rest
                  - pads_of (flatten fooba_groups ++ fooba_rest))
      /\ (forall i,
            0 <= i < 3 * Z.of_nat 1 + len_of fooba_rest
                     - pads_of (flatten fooba_groups ++ fooba_rest) ->
            load8 m' (at_out + i)
            = nth (Z.to_nat i)
                  (decoded true no_oob (symbols_of fooba_groups)
                   ++ decoded_tail true no_oob fooba_rest) 0)
      /\ load8 m' (at_out + 3 * Z.of_nat 1 + len_of fooba_rest
                   - pads_of (flatten fooba_groups ++ fooba_rest)) = 0
      /\ (forall a, a < at_out
                    \/ at_out + 3 * Z.of_nat 1 + len_of fooba_rest < a ->
                    m' a
                    = place scratch at_text
                            (flatten fooba_groups ++ fooba_rest) a).
Proof.
  assert (H1 : List.length fooba_groups = (4 * 1)%nat) by reflexivity.
  assert (H2 : Forall (well_formed no_oob) fooba_groups).
  { unfold fooba_groups, well_formed, symbol_byte.
    repeat constructor; cbn [fst snd]; try lia; vm_compute; discriminate. }
  assert (H3 : (List.length fooba_rest < 4)%nat) by (vm_compute; lia).
  assert (H4 : fooba_rest = []
               \/ exists y tl', fooba_rest = y :: tl' /\ symbol_byte no_oob y).
  { right. exists 89, [109; 69]. split; [reflexivity|].
    split; [lia|vm_compute; discriminate]. }
  assert (H5 : (2 <= List.length (flatten fooba_groups ++ fooba_rest))%nat)
    by (vm_compute; lia).
  assert (H6 : text_at (place scratch at_text
                              (flatten fooba_groups ++ fooba_rest))
                       at_text (flatten fooba_groups ++ fooba_rest))
    by (vm_compute; repeat split).
  assert (H7 : len_of (flatten fooba_groups ++ fooba_rest) <= INT_MAX)
    by (vm_compute; discriminate).
  assert (H8 : (List.length (flatten fooba_groups ++ fooba_rest) <= 7)%nat)
    by (vm_compute; lia).
  assert (H9 : at_out <> 0) by (vm_compute; discriminate).
  assert (H10 : at_out + 3 * Z.of_nat 1 + len_of fooba_rest < at_text
                \/ at_text + len_of (flatten fooba_groups ++ fooba_rest)
                   <= at_out)
    by (right; vm_compute; discriminate).
  repeat (split; [assumption|]).
  exact (decode_groups_then_tail true no_oob 7 _ at_out at_text
           fooba_groups fooba_rest 1 H1 H2 H3 H4 H5 H6 H7 H8 H9 H10).
Defined.

(** X2.  Decoding in place.  With a null target the decoder writes over
    the text it reads.  For a text as in X1 that is at least two bytes
    longer than what is decoded from it (every text of eight or more
    bytes is), the value returned and the bytes stored, terminator
    included, are those of a run into a buffer of its own. *)
Theorem decode_in_place_equiv :
  forall (cs : bool) (oob : Z -> Z) (fuel : nat) (m : mem) (out e : Z)
         (its : list (Z * list Z)) (tl : list Z) (k : nat),
    List.length its = (4 * k)%nat ->
    Forall (well_formed oob) its ->
    (List.length tl < 4)%nat ->
    (tl = [] \/ exists y tl', tl = y :: tl' /\ symbol_byte oob y) ->
    text_at m e (flatten its ++ tl) ->
    len_of (flatten its ++ tl) <= INT_MAX ->
    (List.length (flatten its ++ tl) <= fuel)%nat ->
    3 * Z.of_nat k + len_of tl + 2 <= len_of (flatten its ++ tl) ->
    out <> 0 ->
    out + 3 * Z.of_nat k + len_of tl < e
    \/ e + len_of (flatten its ++ tl) <= out ->
    exists m1 m2 w,
      fio_base64_decode cs oob fuel m 0 e (len_of (flatten its ++ tl))
        = Some (m1, w) /\
      fio_base64_decode cs oob fuel m out e (len_of (flatten its ++ tl))
        = Some (m2, w) /\
      forall i, 0 <= i <= w -> load8 m1 (e + i) = load8 m2 (out + i).
Proof.
  intros cs oob fuel m out e its tl k Hlen Hwf Hl Htl Ht Hmax Hf Hroom Hn Hd.
  assert (Hp := pads_of_range (flatten its ++ tl)).
  assert (Hr := len_of_nonneg tl).
  assert (H2 : (2 <= List.length (flatten its ++ tl))%nat)
    by (unfold len_of in *; lia).
  destruct (decode_run cs oob fuel m 0 e its tl k)
    as (m1 & E1 & D1 & _); try assumption.
  { cbn zeta. cbn [Z.eqb]. left. lia. }
  destruct (decode_run cs oob fuel m out e its tl k)
    as (m2 & E2 & D2 & _); try assumption.
  { cbn zeta. destruct (Z.eqb_spec out 0); [contradiction|].
    unfold len_of in *. lia. }
  cbn [Z.eqb] in E1, D1.
  destruct (Z.eqb_spec out 0); [contradiction|].
  assert (Hld : len_of (decoded cs oob (symbols_of its)
                        ++ decoded_tail cs oob tl)
                = 3 * Z.of_nat k + len_of tl).
  { rewrite len_of_app, length_decoded_tail by assumption.
    unfold len_of at 1. rewrite (length_decoded cs oob k)
      by (unfold symbols_of; rewrite length_map; exact Hlen). lia. }
  do 3 eexists. split; [exact E1|]. split; [exact E2|].
  intros i Hi. rewrite !load8_store8.
  destruct (Z.eqb_spec (e + i)
              (e + 3 * Z.of_nat k + len_of tl - pads_of (flatten its ++ tl)));
    destruct (Z.eqb_spec (out + i)
                (out + 3 * Z.of_nat k + len_of tl
                 - pads_of (flatten its ++ tl))); try lia.
  rewrite (text_at_nth _ _ _ _ D1), (text_at_nth _ _ _ _ D2) by lia.
  reflexivity.
Qed.

Lemma decode_in_place_equiv_witness :
  List.length foob_with_breaks = (4 * 2)%nat
  /\ Forall (well_formed no_oob) foob_with_breaks
  /\ (List.length (@nil Z) < 4)%nat
  /\ (@nil Z = []
      \/ exists y tl', @nil Z = y :: tl' /\ symbol_byte no_oob y)
  /\ text_at (place scratch at_text (flatten foob_with_breaks ++ []))
             at_text (flatten foob_with_breaks ++ [])
  /\ len_of (flatten foob_with_breaks ++ []) <= INT_MAX
  /\ (List.length (flatten foob_with_breaks ++ []) <= 9)%nat
  /\ 3 * Z.of_nat 2 + len_of [] + 2 <= len_of (flatten foob_with_breaks ++ [])
  /\ at_out <> 0
  /\ (at_out + 3 * Z.of_nat 2 + len_of [] < at_text
      \/ at_text + len_of (flatten foob_with_breaks ++ []) <= at_out)
  /\ exists m1 m2 w,
      fio_base64_decode true no_oob 9
        (place scratch at_text (flatten foob_with_breaks ++ []))
        0 at_text (len_of (flatten foob_with_breaks ++ []))
        = Some (m1, w) /\
      fio_base64_decode true no_oob 9
        (place scratch at_text (flatten foob_with_breaks ++ []))
        at_out at_text (len_of (flatten foob_with_breaks ++ []))
        = Some (m2, w) /\
      forall i, 0 <= i <= w -> load8 m1 (at_text + i) = load8 m2 (at_out + i).
Proof.
  assert (H1 : List.length foob_with_breaks = (4 * 2)%nat) by reflexivity.
  assert (H2 : Forall (well_formed no_oob) foob_with_breaks).
  { unfold foob_with_breaks, well_formed, symbol_byte, junk_byte.
    repeat constructor; cbn [fst snd]; try lia;
      try (vm_compute; discriminate); vm_compute; reflexivity. }
  assert (H3 : (List.length (@nil Z) < 4)%nat) by (vm_compute; lia).
  assert (H4 : @nil Z = []
               \/ exists y tl', @nil Z = y :: tl' /\ symbol_byte no_oob y)
    by (left; reflexivity).
  assert (H5 : text_at (place scratch at_text (flatten foob_with_breaks ++ []))
                       at_text (flatten foob_with_breaks ++ []))
    by (vm_compute; repeat split).
  assert (H6 : len_of (flatten foob_with_breaks ++ []) <= INT_MAX)
    by (vm_compute; discriminate).
  assert (H7 : (List.length (flatten foob_with_breaks ++ []) <= 9)%nat)
    by (vm_compute; lia).
  assert (H8 : 3 * Z.of_nat 2 + len_of [] + 2
               <= len_of (flatten foob_with_breaks ++ []))
    by (vm_compute; discriminate).
  assert (H9 : at_out <> 0) by (vm_compute; discriminate).
  assert (H10 : at_out + 3 * Z.of_nat 2 + len_of [] < at_text
                \/ at_text + len_of (flatten foob_with_breaks ++ []) <= at_out)
    by (right; vm_compute; discriminate).
  repeat (split; [assumption|]).
  exact (decode_in_place_equiv true no_oob 9 _ at_out at_text
           foob_with_breaks [] 2 H1 H2 H3 H4 H5 H6 H7 H8 H9 H10).
Defined.







(** X5.  An early exit, in general.  A text of one symbol followed by
    three or more bytes of junk enters the loop; the skip loop behind
    the symbol still has one unit of length left when the junk is used
    up, so it reads the byte behind the text as well.  When that byte is
    junk too (the zero that ends a C string is), the decoder leaves
    through [oops1]: it returns 1 and stores the value of the symbol at
    the target, and nothing else, no terminator. *)
Theorem decode_symbol_then_junk_exits_early :
  forall (cs : bool) (oob : Z -> Z) (fuel : nat) (m : mem) (target e x1 y : Z)
         (J : list Z),
    symbol_byte oob x1 -> Forall (junk_byte oob) J -> junk_byte oob y ->
    (3 <= List.length J)%nat ->
    text_at m e (x1 :: J ++ [y]) ->
    len_of (x1 :: J) <= INT_MAX ->
    (List.length (x1 :: J) <= fuel)%nat ->
    exists m',
      fio_base64_decode cs oob fuel m target e (len_of (x1 :: J))
      = Some (m', 1)
      /\ load8 m' (if target =? 0 then e else target) = sextet cs oob x1
      /\ forall a, a <> (if target =? 0 then e else target) -> m' a = m a.
Proof.
  intros cs oob fuel m target e x1 y J S1 HJ Hy H3 Ht Hmax Hf.
  set (t := if target =? 0 then e else target).
  cbn [text_at] in Ht. destruct Ht as [L1 TJ].
  assert (HJy : Forall (junk_byte oob) (J ++ [y])).
  { apply Forall_app. split; [exact HJ|].
    apply Forall_cons; [exact Hy|apply Forall_nil]. }
  assert (Hlen : len_of (x1 :: J) = len_of (J ++ [y])).
  { unfold len_of. rewrite length_app. cbn [List.length]. lia. }
  assert (Hl4 : 4 <= len_of (x1 :: J))
    by (unfold len_of; cbn [List.length]; lia).
  exists (store8 m t (sextet cs oob x1)). split; [|split].
  - unfold fio_base64_decode. fold t.
    destruct (Z.leb_spec (len_of (x1 :: J)) 0); [lia|].
    rewrite skip_at_start_stop
      by (apply skip_test_symbol; rewrite L1; apply S1).
    destruct fuel as [|fuel]; [cbn in Hf; lia|].
    cbn [decode_groups].
    destruct (Z.leb_spec 4 (len_of (x1 :: J))); [|lia].
    rewrite skip_unknown_stop
      by (apply skip_test_symbol; rewrite L1; apply S1).
    destruct (Z.eqb_spec (len_of (x1 :: J)) 0); [lia|].
    rewrite (skip_unknown_junk oob (J ++ [y]));
      [|exact HJy|exact TJ|lia
       |rewrite length_app; cbn [List.length] in *; lia
       |left; exact Hlen].
    rewrite Hlen, Z.sub_diag. cbn [Z.eqb].
    unfold oops1, sextet. rewrite (load_char_of cs _ _ _ L1).
    reflexivity.
  - rewrite load8_store8, Z.eqb_refl.
    pose proof (sextet_range cs oob x1). apply Z.mod_small. lia.
  - intros a Ha. unfold store8.
    destruct (Z.eqb_spec a t); [contradiction|reflexivity].
Qed.

Lemma decode_symbol_then_junk_exits_early_witness :
  symbol_byte no_oob 66
  /\ Forall (junk_byte no_oob) [ch_nl; ch_nl; ch_nl]
  /\ junk_byte no_oob 0
  /\ (3 <= List.length [ch_nl; ch_nl; ch_nl])%nat
  /\ text_at (place scratch at_text [66; ch_nl; ch_nl; ch_nl; 0]) at_text
             (66 :: [ch_nl; ch_nl; ch_nl] ++ [0])
  /\ len_of (66 :: [ch_nl; ch_nl; ch_nl]) <= INT_MAX
  /\ (List.length (66%Z :: [ch_nl; ch_nl; ch_nl]) <= 4)%nat
  /\ exists m',
      fio_base64_decode true no_oob 4
        (place scratch at_text [66; ch_nl; ch_nl; ch_nl; 0]) at_out at_text
        (len_of (66 :: [ch_nl; ch_nl; ch_nl]))
      = Some (m', 1)
      /\ load8 m' (if at_out =? 0 then at_text else at_out)
         = sextet true no_oob 66
      /\ forall a, a <> (if at_out =? 0 then at_text else at_out) ->
                   m' a = place scratch at_text [66; ch_nl; ch_nl; ch_nl; 0] a.
Proof.
  assert (H1 : symbol_byte no_oob 66)
    by (split; [lia|vm_compute; discriminate]).
  assert (Hj : junk_byte no_oob ch_nl)
    by (split; [unfold ch_nl; lia|vm_compute; reflexivity]).
  assert (H2 : Forall (junk_byte no_oob) [ch_nl; ch_nl; ch_nl])
    by (repeat (apply Forall_cons; [exact Hj|]); apply Forall_nil).
  assert (H3 : junk_byte no_oob 0)
    by (split; [lia|vm_compute; reflexivity]).
  assert (H4 : (3 <= List.length [ch_nl; ch_nl; ch_nl])%nat)
    by (vm_compute; lia).
  assert (H5 : text_at (place scratch at_text [66; ch_nl; ch_nl; ch_nl; 0])
                       at_text (66 :: [ch_nl; ch_nl; ch_nl] ++ [0]))
    by (vm_compute; repeat split).
  assert (H6 : len_of (66 :: [ch_nl; ch_nl; ch_nl]) <= INT_MAX)
    by (vm_compute; discriminate).
  assert (H7 : (List.length (66%Z :: [ch_nl; ch_nl; ch_nl]) <= 4)%nat)
    by (vm_compute; lia).
  repeat (split; [assumption|]).
  exact (decode_symbol_then_junk_exits_early true no_oob 4 _ at_out at_text
           66 0 [ch_nl; ch_nl; ch_nl] H1 H2 H3 H4 H5 H6 H7).
Defined.

(* ------------------------------------------------------------------ *)
(** ** Where the decoder writes, for any input *)

Section Window.
Variable cs : bool.
Variable oob : Z -> Z.

(** A skip loop only counts down, stops at zero when it starts above it,
    and takes one unit of fuel for every step. *)
Lemma skip_unknown_bounds : forall (sf : nat) m bl e bl' e',
  skip_unknown oob sf m bl e = Some (bl', e') ->
  INT_MIN + Z.of_nat sf <= bl <= INT_MAX ->
  bl' <= bl /\ (0 <= bl -> 0 <= bl') /\ bl - Z.of_nat sf <= bl'.
Proof.
  induction sf as [|sf IH]; intros m bl e bl' e' E Hb; cbn [skip_unknown] in E.
  - destruct (skip_test oob m bl e); [discriminate|].
    injection E as <- <-. lia.
  - destruct (skip_test oob m bl e) eqn:Et.
    + unfold skip_test in Et. apply andb_true_iff in Et. destruct Et as [Hn _].
      apply negb_true_iff in Hn. apply Z.eqb_neq in Hn.
      unfold int_sub in E.
      rewrite wrap_int_id in E by (unfold INT_MIN, INT_MAX in *; lia).
      apply IH in E; [|lia]. lia.
    + injection E as <- <-. lia.
Qed.

Lemma skip_at_start_bounds : forall (sf : nat) m bl e bl' e',
  skip_at_start oob sf m bl e = Some (bl', e') ->
  0 <= bl <= INT_MAX -> 0 <= bl' <= bl.
Proof.
  induction sf as [|sf IH]; intros m bl e bl' e' E Hb; cbn [skip_at_start] in E.
  - destruct (skip_test oob m bl e); [discriminate|].
    injection E as <- <-. lia.
  - destruct (skip_test oob m bl e) eqn:Et.
    + unfold skip_test in Et. apply andb_true_iff in Et. destruct Et as [Hn _].
      apply negb_true_iff in Hn. apply Z.eqb_neq in Hn.
      unfold int_sub in E.
      rewrite wrap_int_id in E by (unfold INT_MIN, INT_MAX in *; lia).
      apply IH in E; lia.
    + injection E as <- <-. lia.
Qed.

(** What a run of the loop has done when it is left: [groups bl] bounds
    the number of its turns. *)
Definition groups_left (bl : Z) : Z := Z.max bl 0 / 4.

Definition loop_window (m : mem) (t bl w : Z) (ex : loop_exit) : Prop :=
  match ex with
  | Returned m' w' =>
      (forall a, a < t \/ t + 3 * groups_left bl <= a -> m' a = m a)
      /\ w <= w' <= w + 3 * groups_left bl
  | Tail m' t' e' bl' w' =>
      (forall a, a < t \/ t + 3 * groups_left bl <= a -> m' a = m a)
      /\ bl' < 4
      /\ t' - t = w' - w
      /\ w <= w' <= w + 3 * groups_left bl
  end.

Lemma groups_left_step bl bl' :
  4 <= bl -> bl' <= bl - 4 -> 1 + groups_left bl' <= groups_left bl.
Proof.
  unfold groups_left. intros H4 Hb.
  destruct (Z.max_spec bl 0) as [[? ->]|[? ->]]; [lia|].
  destruct (Z.max_spec bl' 0) as [[? ->]|[? ->]];
    Z.to_euclidean_division_equations; lia.
Qed.

Lemma groups_left_pos bl : 4 <= bl -> 1 <= groups_left bl.
Proof.
  unfold groups_left. intros H4.
  destruct (Z.max_spec bl 0) as [[? ->]|[? ->]]; [lia|].
  Z.to_euclidean_division_equations; lia.
Qed.

Lemma decode_groups_window (sf : nat) :
  Z.of_nat sf <= INT_MAX - 8 ->
  forall (fuel : nat) m t e bl w ex,
    decode_groups cs oob fuel sf m t e bl w = Some ex ->
    bl <= INT_MAX -> 0 <= w -> w + 3 * groups_left bl <= INT_MAX - 8 ->
    loop_window m t bl w ex.
Proof.
  intros Hsf. induction fuel as [|fuel IH]; intros m t e bl w ex E Hbl Hw0 Hw;
    cbn [decode_groups] in E.
  - destruct (Z.leb_spec 4 bl); [discriminate|]. injection E as <-.
    cbn [loop_window]. unfold groups_left.
    repeat split; try lia; Z.to_euclidean_division_equations; lia.
  - destruct (Z.leb_spec 4 bl) as [H4|H4].
    2:{ injection E as <-. cbn [loop_window]. unfold groups_left.
        repeat split; try lia; Z.to_euclidean_division_equations; lia. }
    assert (Hg := groups_left_pos bl H4).
    assert (Hwr : forall n, 0 <= n <= 3 -> int_add w n = w + n).
    { intros n Hn. unfold int_add. apply wrap_int_id.
      unfold INT_MIN, INT_MAX in *. lia. }
    assert (Hrange : INT_MIN + Z.of_nat sf <= -3)
      by (unfold INT_MIN, INT_MAX in *; lia).
    destruct (skip_unknown oob sf m bl e) as [[l1 e1]|] eqn:E1; [|discriminate].
    apply skip_unknown_bounds in E1; [|lia].
    destruct (Z.eqb_spec l1 0).
    { injection E as <-. cbn [loop_window]. repeat split; try lia. }
    destruct (skip_unknown oob sf m l1 (e1 + 1)) as [[l2 e2]|] eqn:E2;
      [|discriminate].
    apply skip_unknown_bounds in E2; [|lia].
    destruct (Z.eqb_spec l2 0).
    { unfold oops1 in E. rewrite Hwr in E by lia. injection E as <-.
      cbn [loop_window]. split; [|lia].
      intros a Ha. cells; reflexivity. }
    destruct (skip_unknown oob sf m l2 (e2 + 1)) as [[l3 e3]|] eqn:E3;
      [|discriminate].
    apply skip_unknown_bounds in E3; [|lia].
    destruct (Z.eqb_spec l3 0).
    { unfold oops2 in E. rewrite Hwr in E by lia. injection E as <-.
      cbn [loop_window]. split; [|lia].
      intros a Ha. cells; reflexivity. }
    destruct (skip_unknown oob sf m l3 (e3 + 1)) as [[l4 e4]|] eqn:E4;
      [|discriminate].
    apply skip_unknown_bounds in E4; [|lia].
    destruct (Z.eqb_spec l4 0).
    { unfold oops3 in E. rewrite Hwr in E by lia. injection E as <-.
      cbn [loop_window]. split; [|lia].
      intros a Ha. cells; reflexivity. }
    rewrite Hwr in E by lia. unfold int_sub in E.
    rewrite wrap_int_id in E by (unfold INT_MIN, INT_MAX in *; lia).
    match type of E with
    | context [skip_unknown oob sf ?mm ?l ?a] =>
        destruct (skip_unknown oob sf mm l a) as [[l5 e5]|] eqn:E5;
        [|discriminate]
    end.
    apply skip_unknown_bounds in E5; [|lia].
    assert (Hstep := groups_left_step bl l5 H4 ltac:(lia)).
    apply IH in E; try lia.
    destruct ex as [m' w'|m' t' e' bl' w']; cbn [loop_window] in *.
    + destruct E as (F & Hw'). split; [|lia].
      intros a Ha. rewrite F by lia. cells; reflexivity.
    + destruct E as (F & Hb' & Ht' & Hw'). repeat split; try lia.
      intros a Ha. rewrite F by lia. cells; reflexivity.
Qed.

(** The [switch] behind the loop stores at most three bytes. *)
Lemma decode_tail_window m t e bl w m' t' e' w' :
  decode_tail cs oob m t e bl w = (m', t', e', w') ->
  0 <= w <= INT_MAX - 8 ->
  (forall a, a < t \/ t + 3 <= a -> m' a = m a)
  /\ t' - t = w' - w /\ 0 <= w' - w <= 3.
Proof.
  intros E Hw.
  assert (Hwr : forall n, 0 <= n <= 3 -> int_add w n = w + n).
  { intros n Hn. unfold int_add. apply wrap_int_id.
    unfold INT_MIN, INT_MAX in *. lia. }
  unfold decode_tail in E. rewrite !Hwr in E by lia.
  destruct (bl =? 1); [|destruct (bl =? 2); [|destruct (bl =? 3)]];
    injection E as <- <- <- <-;
    (split; [intros a Ha; cells; reflexivity|lia]).
Qed.

(** The padding test moves the terminator back by at most two cells. *)
Lemma decode_finish_window m t e w m' w' :
  decode_finish cs m t e w = (m', w') ->
  0 <= w <= INT_MAX ->
  exists p, 0 <= p <= 2 /\ w' = w - p /\ m' = store8 m (t - p) 0.
Proof.
  unfold decode_finish. intros E Hw. unfold int_sub in E.
  rewrite (wrap_int_id (w - 1)) in E by (unfold INT_MIN, INT_MAX in *; lia).
  rewrite (wrap_int_id (w - 1 - 1)) in E
    by (unfold INT_MIN, INT_MAX in *; lia).
  destruct (load_char cs m (e - 1) =? ch_eq);
    [destruct (load_char cs m (e - 2) =? ch_eq)|]; injection E as <- <-.
  - exists 2. repeat split; try lia.
  - exists 1. repeat split; try lia.
  - exists 0. rewrite !Z.sub_0_r. repeat split; try lia.
Qed.

End Window.

(** X6.  Where the decoder writes, whatever it is given.  For every
    memory, every text and every length from 0 to [INT_MAX], junk,
    early exits and reads past the text included: when the call
    returns and none of its loops has made more than [INT_MAX - 8]
    turns (past that the length counter of a skip loop that runs
    beyond the text wraps around), no cell has changed but the two in
    front of the target and the [3 * (len / 4) + 4] from the target on,
    and the value returned lies between -2 and [3 * (len / 4) + 3].  A
    target of [len / 4 * 3 + 4] bytes is then enough behind the
    pointer, one more than the source documents; the two cells in front
    are touched only by the padding test. *)
Theorem decode_writes_stay_in_window :
  forall (cs : bool) (oob : Z -> Z) (fuel : nat) (m : mem)
         (target e len : Z) (m' : mem) (w : Z),
    0 <= len <= INT_MAX ->
    Z.of_nat fuel <= INT_MAX - 8 ->
    fio_base64_decode cs oob fuel m target e len = Some (m', w) ->
    (forall a, a < (if target =? 0 then e else target) - 2
               \/ (if target =? 0 then e else target) + 3 * (len / 4) + 3 < a ->
               m' a = m a)
    /\ -2 <= w <= 3 * (len / 4) + 3.
Proof.
  intros cs oob fuel m target e len m' w Hl Hf E.
  unfold fio_base64_decode in E.
  set (t := if target =? 0 then e else target) in *.
  assert (Hq : 0 <= len / 4) by (Z.to_euclidean_division_equations; lia).
  destruct (Z.leb_spec len 0).
  { injection E as <- <-. split; [|lia].
    intros a Ha. cells; reflexivity. }
  destruct (skip_at_start oob fuel m len e) as [[l0 e0]|] eqn:E0;
    [|discriminate].
  apply skip_at_start_bounds in E0; [|lia].
  assert (Hg : groups_left l0 <= len / 4).
  { unfold groups_left. rewrite Z.max_l by lia.
    Z.to_euclidean_division_equations; lia. }
  assert (Hg0 : 0 <= groups_left l0).
  { unfold groups_left. rewrite Z.max_l by lia.
    Z.to_euclidean_division_equations; lia. }
  assert (Hmax : 3 * (len / 4) <= INT_MAX - 16).
  { unfold INT_MAX in *. Z.to_euclidean_division_equations; lia. }
  destruct (decode_groups cs oob fuel fuel m t e0 l0 0) as [ex|] eqn:E1;
    [|discriminate].
  apply (decode_groups_window cs oob fuel Hf) in E1; try lia.
  destruct ex as [m1 w1|m1 t1 e1 l1 w1]; cbn [loop_window] in E1.
  - injection E as <- <-. destruct E1 as (F & Hw). split; [|lia].
    intros a Ha. apply F. lia.
  - destruct E1 as (F & Hl1 & Ht1 & Hw1).
    destruct (decode_tail cs oob m1 t1 e1 l1 w1) as [[[m2 t2] e2] w2] eqn:E2.
    apply decode_tail_window in E2; [|lia].
    destruct E2 as (F2 & Ht2 & Hw2).
    destruct (decode_finish cs m2 t2 e2 w2) as [m3 w3] eqn:E3.
    apply decode_finish_window in E3; [|lia].
    destruct E3 as (p & Hp & -> & ->).
    injection E as <- <-. split; [|lia].
    intros a Ha. unfold store8.
    destruct (Z.eqb_spec a (t2 - p)); [lia|].
    rewrite F2 by lia. apply F. lia.
Qed.

Lemma decode_writes_stay_in_window_witness :
  0 <= 4 <= INT_MAX
  /\ Z.of_nat 8 <= INT_MAX - 8
  /\ fio_base64_decode true no_oob 8
       (place scratch at_text [66; ch_nl; ch_nl; ch_nl; 0]) at_out at_text 4
     = Some (store8 (place scratch at_text [66; ch_nl; ch_nl; ch_nl; 0])
                    at_out 1, 1)
  /\ (forall a, a < (if at_out =? 0 then at_text else at_out) - 2
                \/ (if at_out =? 0 then at_text else at_out)
                   + 3 * (4 / 4) + 3 < a ->
                store8 (place scratch at_text [66; ch_nl; ch_nl; ch_nl; 0])
                       at_out 1 a
                = place scratch at_text [66; ch_nl; ch_nl; ch_nl; 0] a)
  /\ -2 <= 1 <= 3 * (4 / 4) + 3.
Proof.
  assert (H1 : 0 <= 4 <= INT_MAX) by (vm_compute; split; discriminate).
  assert (H2 : Z.of_nat 8 <= INT_MAX - 8) by (vm_compute; discriminate).
  assert (H3 : fio_base64_decode true no_oob 8
                 (place scratch at_text [66; ch_nl; ch_nl; ch_nl; 0])
                 at_out at_text 4
               = Some (store8 (place scratch at_text
                                     [66; ch_nl; ch_nl; ch_nl; 0])
                              at_out 1, 1))
    by (vm_compute; reflexivity).
  repeat (split; [assumption|]).
  exact (decode_writes_stay_in_window true no_oob 8 _ at_out at_text 4
           _ 1 H1 H2 H3).
Defined.

(* ------------------------------------------------------------------ *)
(** ** The encoder against the arithmetic of RFC 4648 *)

Section Sextets.
Variable cs : bool.

(** The four table indices the encoder computes with shifts and masks
    on [char] values are the four six-bit digits of the three bytes. *)
Lemma index_first b1 :
  0 <= b1 < 256 -> Z.land (Z.shiftr (to_char cs b1) 2) 63 = b1 / 4.
Proof.
  intros H.
  assert (Hall : forallb (fun b => Z.land (Z.shiftr (to_char cs b) 2) 63
                                   =? b / 4)
                         (map Z.of_nat (seq 0 256)) = true)
    by (destruct cs; vm_compute; reflexivity).
  apply Z.eqb_eq. exact (check_below 256 _ Hall b1 H).
Qed.

Lemma index_low_pair b : 0 <= b < 256 -> Z.land (to_char cs b) 3 = b mod 4.
Proof.
  intros H.
  assert (Hall : forallb (fun b => Z.land (to_char cs b) 3 =? b mod 4)
                         (map Z.of_nat (seq 0 256)) = true)
    by (destruct cs; vm_compute; reflexivity).
  apply Z.eqb_eq. exact (check_below 256 _ Hall b H).
Qed.

Lemma index_high_nibble b :
  0 <= b < 256 -> Z.land (Z.shiftr (to_char cs b) 4) 15 = b / 16.
Proof.
  intros H.
  assert (Hall : forallb (fun b => Z.land (Z.shiftr (to_char cs b) 4) 15
                                   =? b / 16)
                         (map Z.of_nat (seq 0 256)) = true)
    by (destruct cs; vm_compute; reflexivity).
  apply Z.eqb_eq. exact (check_below 256 _ Hall b H).
Qed.

Lemma index_low_nibble b : 0 <= b < 256 -> Z.land (to_char cs b) 15 = b mod 16.
Proof.
  intros H.
  assert (Hall : forallb (fun b => Z.land (to_char cs b) 15 =? b mod 16)
                         (map Z.of_nat (seq 0 256)) = true)
    by (destruct cs; vm_compute; reflexivity).
  apply Z.eqb_eq. exact (check_below 256 _ Hall b H).
Qed.

Lemma index_high_pair b :
  0 <= b < 256 -> Z.land (Z.shiftr (to_char cs b) 6) 3 = b / 64.
Proof.
  intros H.
  assert (Hall : forallb (fun b => Z.land (Z.shiftr (to_char cs b) 6) 3
                                   =? b / 64)
                         (map Z.of_nat (seq 0 256)) = true)
    by (destruct cs; vm_compute; reflexivity).
  apply Z.eqb_eq. exact (check_below 256 _ Hall b H).
Qed.

Lemma index_last b : 0 <= b < 256 -> Z.land (to_char cs b) 63 = b mod 64.
Proof.
  intros H.
  assert (Hall : forallb (fun b => Z.land (to_char cs b) 63 =? b mod 64)
                         (map Z.of_nat (seq 0 256)) = true)
    by (destruct cs; vm_compute; reflexivity).
  apply Z.eqb_eq. exact (check_below 256 _ Hall b H).
Qed.

End Sextets.

(** Joining a high and a low part that do not overlap is adding them. *)
Lemma lor_shifted4 h l :
  0 <= h < 4 -> 0 <= l < 16 -> Z.lor (Z.shiftl h 4) l = h * 16 + l.
Proof.
  intros Hh Hl.
  assert (Hall : forallb (fun h => forallb (fun l => Z.lor (Z.shiftl h 4) l
                                                     =? h * 16 + l)
                                           (map Z.of_nat (seq 0 16)))
                         (map Z.of_nat (seq 0 4)) = true)
    by (vm_compute; reflexivity).
  apply Z.eqb_eq. exact (check_below2 4 16 _ Hall h l Hh Hl).
Qed.

Lemma lor_shifted2 h l :
  0 <= h < 16 -> 0 <= l < 4 -> Z.lor (Z.shiftl h 2) l = h * 4 + l.
Proof.
  intros Hh Hl.
  assert (Hall : forallb (fun h => forallb (fun l => Z.lor (Z.shiftl h 2) l
                                                     =? h * 4 + l)
                                           (map Z.of_nat (seq 0 4)))
                         (map Z.of_nat (seq 0 16)) = true)
    by (vm_compute; reflexivity).
  apply Z.eqb_eq. exact (check_below2 16 4 _ Hall h l Hh Hl).
Qed.

Section Rfc.
Variable cs : bool.
Variable tbl : list Z.
Hypothesis Htbl : tbl = base64_encodes_original \/ tbl = base64_encodes_url.

(** The characters of both tables are bytes as they stand. *)
Lemma table_char_byte i : 0 <= i < 64 -> char_at tbl i mod 256 = char_at tbl i.
Proof.
  intros Hi.
  assert (Hall : forallb (fun i => char_at tbl i mod 256 =? char_at tbl i)
                         (map Z.of_nat (seq 0 64)) = true)
    by (destruct Htbl as [-> | ->]; vm_compute; reflexivity).
  apply Z.eqb_eq. exact (check_below 64 _ Hall i Hi).
Qed.

Lemma encoded_group_rfc b1 b2 b3 :
  0 <= b1 < 256 -> 0 <= b2 < 256 -> 0 <= b3 < 256 ->
  encoded_group cs tbl b1 b2 b3 = rfc_group tbl b1 b2 b3.
Proof.
  intros H1 H2 H3. unfold encoded_group, rfc_group. cbn zeta.
  rewrite !index_first, !index_low_pair, !index_high_nibble,
    !index_low_nibble, !index_high_pair, !index_last by assumption.
  rewrite (lor_shifted4 (b1 mod 4) (b2 / 16))
    by (Z.to_euclidean_division_equations; lia).
  rewrite (lor_shifted2 (b2 mod 16) (b3 / 64))
    by (Z.to_euclidean_division_equations; lia).
  rewrite !table_char_byte
    by (Z.to_euclidean_division_equations; lia).
  replace ((b1 * 65536 + b2 * 256 + b3) / 262144) with (b1 / 4)
    by (Z.to_euclidean_division_equations; lia).
  replace (((b1 * 65536 + b2 * 256 + b3) / 4096) mod 64)
    with (b1 mod 4 * 16 + b2 / 16)
    by (Z.to_euclidean_division_equations; lia).
  replace (((b1 * 65536 + b2 * 256 + b3) / 64) mod 64)
    with (b2 mod 16 * 4 + b3 / 64)
    by (Z.to_euclidean_division_equations; lia).
  replace ((b1 * 65536 + b2 * 256 + b3) mod 64) with (b3 mod 64)
    by (Z.to_euclidean_division_equations; lia).
  reflexivity.
Qed.

Lemma encoded_tail_rfc bs :
  Forall (fun b => 0 <= b < 256) bs -> (List.length bs < 3)%nat ->
  encoded_tail cs tbl bs = rfc_base64 tbl bs.
Proof.
  intros Hb Hl. destruct bs as [|b1 [|b2 [|b3 bs]]];
    cbn [List.length] in Hl; try lia; [reflexivity| |].
  - inversion Hb as [|? ? H1 _]; subst.
    unfold encoded_tail, rfc_base64, rfc_group. cbn zeta. cbn [firstn app].
    rewrite !index_first, !index_low_pair by assumption.
    rewrite Z.shiftl_mul_pow2 by lia. change (2 ^ 4) with 16.
    rewrite !table_char_byte
      by (Z.to_euclidean_division_equations; lia).
    replace ((b1 * 65536 + 0 * 256 + 0) / 262144) with (b1 / 4)
      by (Z.to_euclidean_division_equations; lia).
    replace (((b1 * 65536 + 0 * 256 + 0) / 4096) mod 64)
      with (b1 mod 4 * 16)
      by (Z.to_euclidean_division_equations; lia).
    reflexivity.
  - inversion Hb as [|? ? H1 Hb']; subst. inversion Hb' as [|? ? H2 _]; subst.
    unfold encoded_tail, rfc_base64, rfc_group. cbn zeta. cbn [firstn app].
    rewrite !index_first, !index_low_pair, !index_high_nibble,
      !index_low_nibble by assumption.
    rewrite (lor_shifted4 (b1 mod 4) (b2 / 16))
      by (Z.to_euclidean_division_equations; lia).
    rewrite Z.shiftl_mul_pow2 by lia. change (2 ^ 2) with 4.
    rewrite !table_char_byte
      by (Z.to_euclidean_division_equations; lia).
    replace ((b1 * 65536 + b2 * 256 + 0) / 262144) with (b1 / 4)
      by (Z.to_euclidean_division_equations; lia).
    replace (((b1 * 65536 + b2 * 256 + 0) / 4096) mod 64)
      with (b1 mod 4 * 16 + b2 / 16)
      by (Z.to_euclidean_division_equations; lia).
    replace (((b1 * 65536 + b2 * 256 + 0) / 64) mod 64)
      with (b2 mod 16 * 4)
      by (Z.to_euclidean_division_equations; lia).
    reflexivity.
Qed.

Lemma encoded_rfc : forall (n : nat) bs,
  (List.length bs <= n)%nat ->
  Forall (fun b => 0 <= b < 256) bs ->
  encoded cs tbl bs = rfc_base64 tbl bs.
Proof.
  induction n as [|n IH]; intros bs Hn Hb.
  - destruct bs; [reflexivity|cbn in Hn; lia].
  - destruct bs as [|b1 [|b2 [|b3 bs]]];
      try (apply encoded_tail_rfc; [assumption|cbn; lia]).
    inversion Hb as [|? ? H1 Hb1]; subst.
    inversion Hb1 as [|? ? H2 Hb2]; subst.
    inversion Hb2 as [|? ? H3 Hb3]; subst.
    cbn [encoded rfc_base64]. rewrite encoded_group_rfc by assumption.
    rewrite (IH bs); [reflexivity|cbn in Hn; lia|assumption].
Qed.

End Rfc.

(* ------------------------------------------------------------------ *)
(** ** The encoder *)

(** X7.  The encoder computes the Base64 of RFC 4648.  For every byte
    sequence at [data] whose encoded size fits an [int] and a target
    that does not overlap it (the cell behind the output counted in), with
    either table and whether [char] is signed or not, the characters
    written are those the RFC's arithmetic on the byte values gives, and
    the value returned is their number. *)
Theorem encode_is_rfc4648 :
  forall (cs : bool) (fuel : nat) (m : mem) (data target : Z) (bs : list Z)
         (tbl : list Z),
    tbl = base64_encodes_original \/ tbl = base64_encodes_url ->
    text_at m data bs ->
    encoded_size (len_of bs) <= INT_MAX ->
    target + encoded_size (len_of bs) < data \/ data + len_of bs <= target ->
    (List.length bs <= fuel)%nat ->
    exists m',
      fio_base64_encode_internal cs fuel m target data (len_of bs) tbl
      = Some (m', len_of (rfc_base64 tbl bs))
      /\ text_at m' target (rfc_base64 tbl bs).
Proof.
  intros cs fuel m data target bs tbl Htbl Ht Hs Hd Hf.
  destruct (encode_text cs tbl fuel m data target bs Ht Hs Hd Hf)
    as (m' & E & T & _).
  assert (Hb := text_at_bytes m bs data Ht).
  rewrite (encoded_rfc cs tbl Htbl (List.length bs) bs (le_n _) Hb) in T.
  exists m'. split; [|exact T].
  rewrite E. f_equal. f_equal.
  rewrite <- (encoded_rfc cs tbl Htbl (List.length bs) bs (le_n _) Hb).
  symmetry. apply length_encoded.
Qed.

Lemma encode_is_rfc4648_witness :
  (base64_encodes_url = base64_encodes_original
   \/ base64_encodes_url = base64_encodes_url)
  /\ text_at (place scratch at_data high_bytes) at_data
             high_bytes
  /\ encoded_size (len_of high_bytes) <= INT_MAX
  /\ (at_text + encoded_size (len_of high_bytes) < at_data
      \/ at_data + len_of high_bytes <= at_text)
  /\ (List.length high_bytes <= 4)%nat
  /\ exists m',
      fio_base64_encode_internal true 4
        (place scratch at_data high_bytes) at_text at_data
        (len_of high_bytes) base64_encodes_url
      = Some (m', len_of (rfc_base64 base64_encodes_url high_bytes))
      /\ text_at m' at_text
                 (rfc_base64 base64_encodes_url high_bytes).
Proof.
  assert (H1 : base64_encodes_url = base64_encodes_original
               \/ base64_encodes_url = base64_encodes_url)
    by (right; reflexivity).
  assert (H2 : text_at (place scratch at_data high_bytes) at_data
                       high_bytes)
    by (vm_compute; repeat split).
  assert (H3 : encoded_size (len_of high_bytes) <= INT_MAX)
    by (vm_compute; discriminate).
  assert (H4 : at_text + encoded_size (len_of high_bytes) < at_data
               \/ at_data + len_of high_bytes <= at_text)
    by (right; vm_compute; discriminate).
  assert (H5 : (List.length high_bytes <= 4)%nat)
    by (vm_compute; lia).
  repeat (split; [assumption|]).
  exact (encode_is_rfc4648 true 4 _ at_data at_text high_bytes
           base64_encodes_url H1 H2 H3 H4 H5).
Defined.

(** X8.  What the encoder touches.  For every length [len >= 0] whose
    encoded size fits an [int], wherever data and target lie, the call
    returns [4 * ceil(len / 3)], leaves a zero in the cell behind the
    characters it returns, and changes no cell in front of the target
    or further behind: the target needs one byte more than the value
    returned, and never more. *)
Theorem encode_footprint :
  forall (cs : bool) (fuel : nat) (m : mem) (target data len : Z)
         (tbl : list Z),
    tbl = base64_encodes_original \/ tbl = base64_encodes_url ->
    0 <= len -> encoded_size len <= INT_MAX ->
    (Z.to_nat (len / 3) <= fuel)%nat ->
    exists m',
      fio_base64_encode_internal cs fuel m target data len tbl
        = Some (m', encoded_size len) /\
      load8 m' (target + encoded_size len) = 0 /\
      (forall a, a < target \/ target + encoded_size len < a -> m' a = m a).
Proof.
  intros cs fuel m target data len tbl Htbl Hl Hs Hf.
  destruct (encode_internal_layout cs fuel m target data len tbl Htbl Hl Hs Hf)
    as (m' & E & _ & _ & Z0 & F).
  exists m'. repeat split; assumption.
Qed.

Lemma encode_footprint_witness :
  (base64_encodes_original = base64_encodes_original
   \/ base64_encodes_original = base64_encodes_url)
  /\ 0 <= 5 /\ encoded_size 5 <= INT_MAX /\ (Z.to_nat (5 / 3) <= 1)%nat
  /\ exists m',
      fio_base64_encode_internal false 1 (with_text at_data "fooba")
                                 at_data at_data 5 base64_encodes_original
        = Some (m', encoded_size 5) /\
      load8 m' (at_data + encoded_size 5) = 0 /\
      (forall a, a < at_data \/ at_data + encoded_size 5 < a ->
                 m' a = with_text at_data "fooba" a).
Proof.
  assert (H1 : base64_encodes_original = base64_encodes_original
               \/ base64_encodes_original = base64_encodes_url)
    by (left; reflexivity).
  assert (H2 : 0 <= 5) by lia.
  assert (H3 : encoded_size 5 <= INT_MAX) by (vm_compute; discriminate).
  assert (H4 : (Z.to_nat (5 / 3) <= 1)%nat) by (vm_compute; lia).
  repeat (split; [assumption|]).
  exact (encode_footprint false 1 (with_text at_data "fooba")
           at_data at_data 5 base64_encodes_original H1 H2 H3 H4).
Defined.

(* ------------------------------------------------------------------ *)
(** ** Entry points and edges *)

Lemma url_table_is_renamed i :
  0 <= i < 64 ->
  char_at base64_encodes_url i = url_of (char_at base64_encodes_original i).
Proof.
  intros Hi.
  assert (Hall : forallb (fun i => char_at base64_encodes_url i
                                   =? url_of (char_at base64_encodes_original i))
                         (map Z.of_nat (seq 0 64)) = true)
    by (vm_compute; reflexivity).
  apply Z.eqb_eq. exact (check_below 64 _ Hall i Hi).
Qed.

Lemma rfc_group_url b1 b2 b3 :
  0 <= b1 < 256 -> 0 <= b2 < 256 -> 0 <= b3 < 256 ->
  rfc_group base64_encodes_url b1 b2 b3
  = map url_of (rfc_group base64_encodes_original b1 b2 b3).
Proof.
  intros H1 H2 H3. unfold rfc_group. cbn zeta. cbn [map].
  rewrite !url_table_is_renamed
    by (Z.to_euclidean_division_equations; lia).
  reflexivity.
Qed.

Lemma rfc_base64_url : forall (n : nat) bs,
  (List.length bs <= n)%nat ->
  Forall (fun b => 0 <= b < 256) bs ->
  rfc_base64 base64_encodes_url bs
  = map url_of (rfc_base64 base64_encodes_original bs).
Proof.
  induction n as [|n IH]; intros bs Hn Hb.
  - destruct bs; [reflexivity|cbn in Hn; lia].
  - destruct bs as [|b1 [|b2 [|b3 bs]]]; [reflexivity| | |].
    + inversion Hb as [|? ? H1 _]; subst. cbn [rfc_base64].
      rewrite rfc_group_url by (assumption || lia). reflexivity.
    + inversion Hb as [|? ? H1 Hb1]; subst.
      inversion Hb1 as [|? ? H2 _]; subst. cbn [rfc_base64].
      rewrite rfc_group_url by (assumption || lia). reflexivity.
    + inversion Hb as [|? ? H1 Hb1]; subst.
      inversion Hb1 as [|? ? H2 Hb2]; subst.
      inversion Hb2 as [|? ? H3 Hb3]; subst.
      cbn [rfc_base64]. rewrite map_app.
      rewrite rfc_group_url by assumption.
      rewrite (IH bs); [reflexivity|cbn in Hn; lia|assumption].
Qed.

(** X9.  The two entry points differ by two characters.  For the same
    bytes, when their encoded size fits an [int] and the target (the
    cell behind the output counted in) does not overlap them,
    [fio_base64url_encode] returns what [fio_base64_encode]
    returns and writes the same characters, but ['-'] where that one
    writes ['+'] and ['_'] where it writes ['/']; the padding is the
    same. *)
Theorem url_encode_renames_two_symbols :
  forall (cs : bool) (fuel : nat) (m : mem) (data target : Z) (bs : list Z),
    text_at m data bs ->
    encoded_size (len_of bs) <= INT_MAX ->
    target + encoded_size (len_of bs) < data \/ data + len_of bs <= target ->
    (List.length bs <= fuel)%nat ->
    exists m1 m2 n,
      fio_base64_encode cs fuel m target data (len_of bs) = Some (m1, n)
      /\ fio_base64url_encode cs fuel m target data (len_of bs) = Some (m2, n)
      /\ forall i, 0 <= i < n ->
                   load8 m2 (target + i) = url_of (load8 m1 (target + i)).
Proof.
  intros cs fuel m data target bs Ht Hs Hd Hf.
  assert (Hb := text_at_bytes m bs data Ht).
  destruct (encode_text cs base64_encodes_original fuel m data target bs
              Ht Hs Hd Hf) as (m1 & E1 & T1 & _).
  destruct (encode_text cs base64_encodes_url fuel m data target bs
              Ht Hs Hd Hf) as (m2 & E2 & T2 & _).
  rewrite (encoded_rfc cs _ (or_introl eq_refl) (List.length bs) bs
             (le_n _) Hb) in T1.
  rewrite (encoded_rfc cs _ (or_intror eq_refl) (List.length bs) bs
             (le_n _) Hb) in T2.
  rewrite (rfc_base64_url (List.length bs) bs (le_n _) Hb) in T2.
  assert (Hlen : len_of (rfc_base64 base64_encodes_original bs)
                 = encoded_size (len_of bs)).
  { rewrite <- (encoded_rfc cs _ (or_introl eq_refl) (List.length bs) bs
                  (le_n _) Hb). apply length_encoded. }
  exists m1, m2, (encoded_size (len_of bs)).
  split; [exact E1|]. split; [exact E2|].
  intros i Hi.
  rewrite (text_at_nth _ _ _ _ T1) by lia.
  rewrite (text_at_nth _ _ _ _ T2)
    by (unfold len_of in *; rewrite length_map; lia).
  rewrite <- (map_nth url_of). reflexivity.
Qed.

Lemma url_encode_renames_two_symbols_witness :
  text_at (place scratch at_data high_bytes) at_data high_bytes
  /\ encoded_size (len_of high_bytes) <= INT_MAX
  /\ (at_text + encoded_size (len_of high_bytes) < at_data
      \/ at_data + len_of high_bytes <= at_text)
  /\ (List.length high_bytes <= 4)%nat
  /\ exists m1 m2 n,
      fio_base64_encode false 4 (place scratch at_data high_bytes)
                        at_text at_data (len_of high_bytes) = Some (m1, n)
      /\ fio_base64url_encode false 4 (place scratch at_data high_bytes)
                              at_text at_data (len_of high_bytes)
         = Some (m2, n)
      /\ forall i, 0 <= i < n ->
                   load8 m2 (at_text + i) = url_of (load8 m1 (at_text + i)).
Proof.
  assert (H1 : text_at (place scratch at_data high_bytes) at_data high_bytes)
    by (vm_compute; repeat split).
  assert (H2 : encoded_size (len_of high_bytes) <= INT_MAX)
    by (vm_compute; discriminate).
  assert (H3 : at_text + encoded_size (len_of high_bytes) < at_data
               \/ at_data + len_of high_bytes <= at_text)
    by (right; vm_compute; discriminate).
  assert (H4 : (List.length high_bytes <= 4)%nat) by (vm_compute; lia).
  repeat (split; [assumption|]).
  exact (url_encode_renames_two_symbols false 4 _ at_data at_text high_bytes
           H1 H2 H3 H4).
Defined.

(** X10.  A negative length is not refused.  For a length of -1 or -2
    the encoder finds no group and no case of its [switch], yet counts
    one group for the remainder: it returns 4, stores a zero at
    [target[4]] and writes none of the four characters it reports. *)
Theorem encode_negative_length_reports_four :
  forall (cs : bool) (fuel : nat) (m : mem) (target data len : Z)
         (tbl : list Z),
    len = -1 \/ len = -2 ->
    exists m',
      fio_base64_encode_internal cs fuel m target data len tbl = Some (m', 4)
      /\ load8 m' (target + 4) = 0
      /\ forall a, a <> target + 4 -> m' a = m a.
Proof.
  intros cs fuel m target data len tbl Hl.
  exists (store8 m (target + 4) 0).
  split; [|split].
  - unfold fio_base64_encode_internal.
    destruct Hl as [-> | ->]; cbn zeta;
      (replace (target + _ - 1 + 1) with (target + 4)
         by (vm_compute wrap_int; cbn; lia));
      unfold encode_partial;
      cbn [Z.quot Z.quotrem int_mul int_sub int_add Z.mul Z.sub Z.add Z.opp
           Z.eqb wrap_int];
      destruct fuel; reflexivity.
  - rewrite load8_store8, Z.eqb_refl. reflexivity.
  - intros a Ha. unfold store8.
    destruct (Z.eqb_spec a (target + 4)); [contradiction|reflexivity].
Qed.

Lemma encode_negative_length_reports_four_witness :
  (-1 = -1 \/ -1 = -2)
  /\ exists m',
      fio_base64_encode_internal true 0 scratch at_text at_data (-1)
                                 base64_encodes_original
      = Some (m', 4)
      /\ load8 m' (at_text + 4) = 0
      /\ forall a, a <> at_text + 4 -> m' a = scratch a.
Proof.
  assert (H1 : -1 = -1 \/ -1 = -2) by (left; reflexivity).
  split; [exact H1|].
  exact (encode_negative_length_reports_four true 0 scratch at_text at_data
           (-1) base64_encodes_original H1).
Defined.

(** X11.  The round trip, where it holds.  For every byte sequence
    whose encoded size fits an [int] and whose Base64 text holds no
    ['A'], with buffers that do not overlap, either table and whether
    [char] is signed or not, encoding into a buffer and decoding that
    buffer into a third one returns the length of the sequence and
    gives its bytes back, with a zero behind them. *)
Theorem round_trip_when_no_A :
  forall (cs : bool) (oob : Z -> Z) (tbl : list Z) (fuel : nat) (m : mem)
         (data buffer out : Z) (bs : list Z),
    tbl = base64_encodes_original \/ tbl = base64_encodes_url ->
    text_at m data bs ->
    encoded_size (len_of bs) <= INT_MAX ->
    Forall (fun c => c <> ch_A) (rfc_base64 tbl bs) ->
    buffer + encoded_size (len_of bs) < data \/ data + len_of bs <= buffer ->
    out <> 0 ->
    out + 3 * (encoded_size (len_of bs) / 4) <= buffer
    \/ buffer + encoded_size (len_of bs) <= out ->
    (Z.to_nat (encoded_size (len_of bs)) <= fuel)%nat ->
    exists m1 m2,
      fio_base64_encode_internal cs fuel m buffer data (len_of bs) tbl
      = Some (m1, encoded_size (len_of bs))
      /\ fio_base64_decode cs oob fuel m1 out buffer (encoded_size (len_of bs))
         = Some (m2, len_of bs)
      /\ text_at m2 out bs
      /\ load8 m2 (out + len_of bs) = 0.
Proof.
  intros cs oob tbl fuel m data buffer out bs Htbl Ht Hs HA Hd Hn Hdo Hf.
  apply (round_trip_without_A cs oob tbl Htbl fuel m data buffer out bs);
    try assumption.
  rewrite (encoded_rfc cs tbl Htbl (List.length bs) bs (le_n _)
             (text_at_bytes m bs data Ht)).
  exact HA.
Qed.

Lemma round_trip_when_no_A_witness :
  (base64_encodes_url = base64_encodes_original
   \/ base64_encodes_url = base64_encodes_url)
  /\ text_at (place scratch at_data high_bytes) at_data
             high_bytes
  /\ encoded_size (len_of high_bytes) <= INT_MAX
  /\ Forall (fun c => c <> ch_A)
            (rfc_base64 base64_encodes_url high_bytes)
  /\ (at_text + encoded_size (len_of high_bytes) < at_data
      \/ at_data + len_of high_bytes <= at_text)
  /\ at_out <> 0
  /\ (at_out + 3 * (encoded_size (len_of high_bytes) / 4) <= at_text
      \/ at_text + encoded_size (len_of high_bytes) <= at_out)
  /\ (Z.to_nat (encoded_size (len_of high_bytes)) <= 8)%nat
  /\ exists m1 m2,
      fio_base64_encode_internal true 8
        (place scratch at_data high_bytes) at_text at_data
        (len_of high_bytes) base64_encodes_url
      = Some (m1, encoded_size (len_of high_bytes))
      /\ fio_base64_decode true no_oob 8 m1 at_out at_text
                           (encoded_size (len_of high_bytes))
         = Some (m2, len_of high_bytes)
      /\ text_at m2 at_out high_bytes
      /\ load8 m2 (at_out + len_of high_bytes) = 0.
Proof.
  assert (H1 : base64_encodes_url = base64_encodes_original
               \/ base64_encodes_url = base64_encodes_url)
    by (right; reflexivity).
  assert (H2 : text_at (place scratch at_data high_bytes) at_data
                       high_bytes)
    by (vm_compute; repeat split).
  assert (H3 : encoded_size (len_of high_bytes) <= INT_MAX)
    by (vm_compute; discriminate).
  assert (H4 : Forall (fun c => c <> ch_A)
                      (rfc_base64 base64_encodes_url high_bytes)).
  { vm_compute. repeat (apply Forall_cons; [discriminate|]).
    apply Forall_nil. }
  assert (H5 : at_text + encoded_size (len_of high_bytes) < at_data
               \/ at_data + len_of high_bytes <= at_text)
    by (right; vm_compute; discriminate).
  assert (H6 : at_out <> 0) by (vm_compute; discriminate).
  assert (H7 : at_out + 3 * (encoded_size (len_of high_bytes) / 4)
               <= at_text
               \/ at_text + encoded_size (len_of high_bytes)
                  <= at_out)
    by (right; vm_compute; discriminate).
  assert (H8 : (Z.to_nat (encoded_size (len_of high_bytes)) <= 8)%nat)
    by (vm_compute; lia).
  repeat (split; [assumption|]).
  exact (round_trip_when_no_A true no_oob base64_encodes_url 8 _
           at_data at_text at_out high_bytes
           H1 H2 H3 H4 H5 H6 H7 H8).
Defined.

(* ------------------------------------------------------------------ *)
(** ** The tables *)

(** X12.  The backward table undoes both forward tables: the character
    either alphabet has at index [i < 64] is read back as [i], by the
    table itself and by [BITVAL] on the [char] the decoder holds it in,
    whether [char] is signed or not.  At index 0 that value is the one
    the table keeps for unknown bytes. *)
Theorem backward_table_inverts_alphabets :
  forall (cs : bool) (oob : Z -> Z) (tbl : list Z) (i : Z),
    tbl = base64_encodes_original \/ tbl = base64_encodes_url ->
    0 <= i < 64 ->
    decodes_at oob (char_at tbl i) = i
    /\ sextet cs oob (char_at tbl i) = i.
Proof.
  intros cs oob tbl i Htbl Hi.
  assert (Hall : forallb (fun i => (decodes_at oob (char_at tbl i) =? i)
                                   && (sextet cs oob (char_at tbl i) =? i))
                         (map Z.of_nat (seq 0 64)) = true)
    by (destruct Htbl as [-> | ->]; destruct cs; vm_compute; reflexivity).
  pose proof (check_below 64 _ Hall i Hi) as H.
  apply andb_true_iff in H. destruct H as [H1 H2].
  split; apply Z.eqb_eq; assumption.
Qed.

Lemma backward_table_inverts_alphabets_witness :
  (base64_encodes_url = base64_encodes_original
   \/ base64_encodes_url = base64_encodes_url)
  /\ 0 <= 63 < 64
  /\ decodes_at no_oob (char_at base64_encodes_url 63) = 63
  /\ sextet true no_oob (char_at base64_encodes_url 63) = 63.
Proof.
  assert (H1 : base64_encodes_url = base64_encodes_original
               \/ base64_encodes_url = base64_encodes_url)
    by (right; reflexivity).
  assert (H2 : 0 <= 63 < 64) by lia.
  repeat (split; [assumption|]).
  exact (backward_table_inverts_alphabets true no_oob base64_encodes_url 63
           H1 H2).
Defined.

(** X13.  The backward table is the one its generation script yields:
    running the script of the source comment over its three alphabets
    (the standard one with ['='], the one with ["+,"] and the URL-safe
    one) gives the 256 entries of [base64_decodes]. *)
Theorem backward_table_is_generated : base64_decodes = script_table.
Proof. vm_compute. reflexivity. Qed.

(* ------------------------------------------------------------------ *)
(** ** Which table entries are read *)

Section EncoderReads.
Variable cs : bool.
Variables tbl1 tbl2 : list Z.
Hypothesis Hagree : forall i, 0 <= i < 64 -> char_at tbl1 i = char_at tbl2 i.

Lemma encode_group_tables m r w :
  encode_group cs tbl1 m r w = encode_group cs tbl2 m r w.
Proof.
  unfold encode_group. cbn zeta.
  rewrite (Hagree _ (land63 _)), (Hagree _ (idx_mid2 _ _)),
    (Hagree _ (idx_mid1 _ _)), (Hagree _ (idx_hi _)).
  reflexivity.
Qed.

Lemma encode_partial_tables m md r w :
  encode_partial cs tbl1 m md r w = encode_partial cs tbl2 m md r w.
Proof.
  unfold encode_partial. cbn zeta.
  rewrite (Hagree _ (idx_pad2 _)), (Hagree _ (idx_mid1 _ _)),
    !(Hagree _ (idx_hi _)), (Hagree _ (idx_pad1 _)).
  reflexivity.
Qed.

Lemma encode_groups_tables : forall (fuel : nat) m g r w,
  encode_groups cs fuel tbl1 m g r w = encode_groups cs fuel tbl2 m g r w.
Proof.
  induction fuel as [|fuel IH]; intros m g r w; cbn [encode_groups];
    [reflexivity|].
  destruct (g =? 0); [reflexivity|].
  rewrite encode_group_tables. apply IH.
Qed.

End EncoderReads.

Section DecoderReads.
Variables oob1 oob2 : Z -> Z.

Lemma decodes_at_in_table x :
  0 <= x < 256 -> decodes_at oob1 x = decodes_at oob2 x.
Proof. intros H. rewrite !decodes_at_byte by assumption. reflexivity. Qed.

Lemma skip_test_in_table m len e :
  skip_test oob1 m len e = skip_test oob2 m len e.
Proof.
  unfold skip_test. rewrite (decodes_at_in_table _ (load8_range m e)).
  reflexivity.
Qed.

Lemma skip_at_start_in_table : forall (fuel : nat) m len e,
  skip_at_start oob1 fuel m len e = skip_at_start oob2 fuel m len e.
Proof.
  induction fuel as [|fuel IH]; intros m len e; cbn [skip_at_start];
    rewrite skip_test_in_table; [reflexivity|].
  destruct (skip_test oob2 m len e); [apply IH|reflexivity].
Qed.

Lemma skip_unknown_in_table : forall (fuel : nat) m len e,
  skip_unknown oob1 fuel m len e = skip_unknown oob2 fuel m len e.
Proof.
  induction fuel as [|fuel IH]; intros m len e; cbn [skip_unknown];
    rewrite skip_test_in_table; [reflexivity|].
  destruct (skip_test oob2 m len e); [apply IH|reflexivity].
Qed.

(** With an unsigned [char] the index [(size_t)tmp] is the byte. *)
Lemma bitval_unsigned m a :
  BITVAL oob1 (size_t_of (load_char false m a))
  = BITVAL oob2 (size_t_of (load_char false m a)).
Proof.
  unfold BITVAL, load_char, to_char, size_t_of. cbn [andb].
  pose proof (load8_range m a).
  rewrite Z.mod_small by lia.
  rewrite (decodes_at_in_table _ H). reflexivity.
Qed.

Lemma decode_groups_unsigned : forall (fuel sf : nat) m t e len w,
  decode_groups false oob1 fuel sf m t e len w
  = decode_groups false oob2 fuel sf m t e len w.
Proof.
  induction fuel as [|fuel IH]; intros sf m t e len w; cbn [decode_groups];
    [reflexivity|].
  destruct (4 <=? len); [|reflexivity].
  rewrite skip_unknown_in_table.
  destruct (skip_unknown oob2 sf m len e) as [[l1 e1]|]; [|reflexivity].
  destruct (l1 =? 0); [reflexivity|].
  rewrite skip_unknown_in_table.
  destruct (skip_unknown oob2 sf m l1 (e1 + 1)) as [[l2 e2]|]; [|reflexivity].
  destruct (l2 =? 0).
  { unfold oops1. rewrite bitval_unsigned. reflexivity. }
  rewrite skip_unknown_in_table.
  destruct (skip_unknown oob2 sf m l2 (e2 + 1)) as [[l3 e3]|]; [|reflexivity].
  destruct (l3 =? 0).
  { unfold oops2. rewrite !(bitval_unsigned m e1), !(bitval_unsigned m e2).
    reflexivity. }
  rewrite skip_unknown_in_table.
  destruct (skip_unknown oob2 sf m l3 (e3 + 1)) as [[l4 e4]|]; [|reflexivity].
  destruct (l4 =? 0).
  { unfold oops3. rewrite !(bitval_unsigned m e1), !(bitval_unsigned m e2),
      !(bitval_unsigned m e3). reflexivity. }
  rewrite !(bitval_unsigned m e1), !(bitval_unsigned m e2),
    !(bitval_unsigned m e3), !(bitval_unsigned m e4).
  rewrite skip_unknown_in_table.
  match goal with
  | |- context [skip_unknown oob2 sf ?mm ?l ?a] =>
      destruct (skip_unknown oob2 sf mm l a) as [[l5 e5]|]; [|reflexivity]
  end.
  apply IH.
Qed.

Lemma decode_tail_unsigned m t e len w :
  decode_tail false oob1 m t e len w = decode_tail false oob2 m t e len w.
Proof.
  unfold decode_tail.
  rewrite !(bitval_unsigned m e), !(bitval_unsigned m (e + 1)),
    !(bitval_unsigned m (e + 2)).
  reflexivity.
Qed.

End DecoderReads.

(** X14.  The encoder reads its table at the indices 0 to 63 only: two
    tables that agree there give the same run, whatever the data, the
    length and the layout.  The 65th character of the tables of the
    source, ['='], is never looked up; the pad is written as a
    literal. *)
Theorem encode_reads_table_below_64 :
  forall (cs : bool) (tbl1 tbl2 : list Z) (fuel : nat) (m : mem)
         (target data len : Z),
    (forall i, 0 <= i < 64 -> char_at tbl1 i = char_at tbl2 i) ->
    fio_base64_encode_internal cs fuel m target data len tbl1
    = fio_base64_encode_internal cs fuel m target data len tbl2.
Proof.
  intros cs tbl1 tbl2 fuel m target data len Hagree.
  unfold fio_base64_encode_internal. cbn zeta.
  rewrite (encode_partial_tables cs tbl1 tbl2 Hagree).
  destruct (encode_partial cs tbl2 _ _ _ _) as [[m1 r] w].
  rewrite (encode_groups_tables cs tbl1 tbl2 Hagree). reflexivity.
Qed.

Lemma encode_reads_table_below_64_witness :
  (forall i, 0 <= i < 64 ->
             char_at base64_encodes_original i
             = char_at (firstn 64 base64_encodes_original) i)
  /\ fio_base64_encode_internal true 1 (with_text at_data "foob")
                                at_text at_data 4 base64_encodes_original
     = fio_base64_encode_internal true 1 (with_text at_data "foob")
                                  at_text at_data 4
                                  (firstn 64 base64_encodes_original).
Proof.
  assert (H1 : forall i, 0 <= i < 64 ->
                 char_at base64_encodes_original i
                 = char_at (firstn 64 base64_encodes_original) i).
  { intros i Hi.
    assert (Hall : forallb (fun i => char_at base64_encodes_original i
                                     =? char_at (firstn 64
                                                   base64_encodes_original) i)
                           (map Z.of_nat (seq 0 64)) = true)
      by (vm_compute; reflexivity).
    apply Z.eqb_eq. exact (check_below 64 _ Hall i Hi). }
  split; [exact H1|].
  exact (encode_reads_table_below_64 true base64_encodes_original
           (firstn 64 base64_encodes_original) 1
           (with_text at_data "foob") at_text at_data 4 H1).
Defined.

(** X15.  Where [char] is unsigned the decoder never reads
    [base64_decodes] outside its 256 entries: whatever lies around the
    table, the run is the same, for every memory, target, text and
    length. *)
Theorem decode_unsigned_reads_inside_table :
  forall (oob1 oob2 : Z -> Z) (fuel : nat) (m : mem)
         (target encoded base64_len : Z),
    fio_base64_decode false oob1 fuel m target encoded base64_len
    = fio_base64_decode false oob2 fuel m target encoded base64_len.
Proof.
  intros oob1 oob2 fuel m target encoded base64_len.
  unfold fio_base64_decode.
  destruct (base64_len <=? 0); [reflexivity|].
  rewrite (skip_at_start_in_table oob1 oob2).
  destruct (skip_at_start oob2 fuel m base64_len encoded) as [[l e]|];
    [|reflexivity].
  rewrite (decode_groups_unsigned oob1 oob2).
  destruct (decode_groups false oob2 fuel fuel m _ e l 0) as [[m1 w|m1 t e1 l1 w]|];
    try reflexivity.
  rewrite (decode_tail_unsigned oob1 oob2). reflexivity.
Qed.

Lemma decodes_at_outside oob i : 256 <= i -> decodes_at oob i = oob i.
Proof.
  intros H. unfold decodes_at.
  destruct (Z.ltb_spec i 256); [lia|]. rewrite andb_false_r. reflexivity.
Qed.

Lemma signed_index b :
  128 <= b < 256 -> size_t_of (to_char true b) = 2 ^ 64 - 256 + b.
Proof.
  intros H. unfold size_t_of, to_char.
  destruct (Z.leb_spec 128 b); [|lia]. cbn [andb].
  change (2 ^ 64) with 18446744073709551616.
  Z.to_euclidean_division_equations; lia.
Qed.

(** X16.  Where [char] is signed the decoder can read
    [base64_decodes] far outside its entries.  The [switch] behind the
    loop takes the characters left over as they come; a second byte [b]
    of 0x80 or more is a negative [char], [(size_t)tmp2] is
    [2^64 - 256 + b], and the byte stored for it is made of whatever
    lies at that index. *)
Theorem decode_signed_tail_reads_outside_table :
  forall (oob : Z -> Z) (fuel : nat) (m : mem) (target e x1 b : Z),
    symbol_byte oob x1 -> 128 <= b < 256 ->
    text_at m e [x1; b] ->
    (2 <= fuel)%nat ->
    target <> 0 -> target + 2 < e \/ e + 2 <= target ->
    exists m',
      fio_base64_decode true oob fuel m target e 2 = Some (m', 2)
      /\ load8 m' (target + 1)
         = Z.shiftl (Z.land (oob (2 ^ 64 - 256 + b)) 63) 4 mod 256.
Proof.
  intros oob fuel m target e x1 b S1 Hb Ht Hf Hn Hd.
  assert (Htl : [x1; b] = []
                \/ exists y tl', [x1; b] = y :: tl' /\ symbol_byte oob y).
  { right. exists x1, [b]. split; [reflexivity|exact S1]. }
  assert (Hsep : let t := if target =? 0 then e else target in
                 (t <= e
                  /\ t + 3 * Z.of_nat 0 + len_of [x1; b] + 2
                     <= e + len_of (flatten [] ++ [x1; b]))
                 \/ e + len_of (flatten [] ++ [x1; b]) <= t).
  { cbn zeta. destruct (Z.eqb_spec target 0); [contradiction|].
    change (len_of (flatten [] ++ [x1; b])) with 2.
    change (len_of [x1; b]) with 2. lia. }
  destruct (decode_run true oob fuel m target e [] [x1; b] 0
              eq_refl (Forall_nil _) ltac:(cbn; lia) Htl ltac:(cbn; lia) Ht
              ltac:(cbn; unfold INT_MAX; lia) ltac:(cbn; lia) Hsep)
    as (m1 & E & D & _).
  destruct (Z.eqb_spec target 0); [contradiction|].
  change (len_of (flatten [] ++ [x1; b])) with 2 in E.
  change (len_of [x1; b]) with 2 in E.
  change (flatten [] ++ [x1; b]) with ([] ++ [x1; b]) in E.
  rewrite pads_of_two_last in E.
  destruct (Z.eqb_spec b ch_eq) as [Eb|_]; [unfold ch_eq in Eb; lia|].
  cbn [Z.of_nat] in E.
  replace (3 * 0 + 2 - 0) with 2 in E by lia.
  replace (target + 3 * 0 + 2 - 0) with (target + 2) in E by lia.
  eexists. split; [exact E|].
  rewrite load8_store8.
  destruct (Z.eqb_spec (target + 1) (target + 2)); [lia|].
  cbn [symbols_of map decoded app decoded_tail text_at] in D.
  destruct D as (_ & B2 & _). rewrite B2.
  unfold sextet, BITVAL. rewrite signed_index by assumption.
  rewrite decodes_at_outside
    by (change (2 ^ 64) with 18446744073709551616; lia).
  reflexivity.
Qed.

Lemma decode_signed_tail_reads_outside_table_witness :
  symbol_byte (fun i => i) 66 /\ 128 <= 200 < 256
  /\ text_at (place scratch at_text [66; 200]) at_text [66; 200]
  /\ (2 <= 2)%nat
  /\ at_out <> 0 /\ (at_out + 2 < at_text \/ at_text + 2 <= at_out)
  /\ exists m',
      fio_base64_decode true (fun i => i) 2 (place scratch at_text [66; 200])
                        at_out at_text 2
      = Some (m', 2)
      /\ load8 m' (at_out + 1)
         = Z.shiftl (Z.land ((fun i => i) (2 ^ 64 - 256 + 200)) 63) 4 mod 256.
Proof.
  assert (H1 : symbol_byte (fun i => i) 66)
    by (split; [lia|vm_compute; discriminate]).
  assert (H2 : 128 <= 200 < 256) by lia.
  assert (H3 : text_at (place scratch at_text [66; 200]) at_text [66; 200])
    by (vm_compute; repeat split).
  assert (H4 : (2 <= 2)%nat) by lia.
  assert (H5 : at_out <> 0) by (vm_compute; discriminate).
  assert (H6 : at_out + 2 < at_text \/ at_text + 2 <= at_out)
    by (right; vm_compute; discriminate).
  repeat (split; [assumption|]).
  exact (decode_signed_tail_reads_outside_table (fun i => i) 2 _ at_out at_text
           66 200 H1 H2 H3 H4 H5 H6).
Defined.

(* ------------------------------------------------------------------ *)
(** ** More fuel changes no result *)

Lemma strlen_more : forall (f f' : nat) m s r,
  strlen f m s = Some r -> (f <= f')%nat -> strlen f' m s = Some r.
Proof.
  induction f as [|f IH]; intros f' m s r E Hf; cbn [strlen] in E.
  - destruct f'; cbn [strlen]; destruct (load8 m s =? 0);
      congruence.
  - destruct f' as [|f']; [lia|]. cbn [strlen].
    destruct (load8 m s =? 0); [exact E|].
    destruct (strlen f m (s + 1)) as [n|] eqn:E1; [|discriminate].
    rewrite (IH f' m (s + 1) n E1) by lia. exact E.
Qed.

Lemma strcmp_more : forall (f f' : nat) m a b r,
  strcmp f m a b = Some r -> (f <= f')%nat -> strcmp f' m a b = Some r.
Proof.
  induction f as [|f IH]; intros f' m a b r E Hf; cbn [strcmp] in E.
  - destruct f'; cbn [strcmp];
      destruct (negb (load8 m a =? load8 m b)); try exact E;
      destruct (load8 m a =? 0); congruence.
  - destruct f' as [|f']; [lia|]. cbn [strcmp].
    destruct (negb (load8 m a =? load8 m b)); [exact E|].
    destruct (load8 m a =? 0); [exact E|].
    apply IH; [exact E|lia].
Qed.

Section More.
Variable cs : bool.
Variable oob : Z -> Z.

Lemma encode_groups_more tbl : forall (f f' : nat) m g r w res,
  encode_groups cs f tbl m g r w = Some res -> (f <= f')%nat ->
  encode_groups cs f' tbl m g r w = Some res.
Proof.
  induction f as [|f IH]; intros f' m g r w res E Hf; cbn [encode_groups] in E.
  - destruct f'; cbn [encode_groups]; destruct (g =? 0); congruence.
  - destruct f' as [|f']; [lia|]. cbn [encode_groups].
    destruct (g =? 0); [exact E|]. apply IH; [exact E|lia].
Qed.

Lemma encode_more tbl (f f' : nat) m target data len res :
  fio_base64_encode_internal cs f m target data len tbl = Some res ->
  (f <= f')%nat ->
  fio_base64_encode_internal cs f' m target data len tbl = Some res.
Proof.
  unfold fio_base64_encode_internal. cbn zeta.
  destruct (encode_partial cs tbl _ _ _ _) as [[m1 r] w].
  intros E Hf.
  destruct (encode_groups cs f tbl m1 _ r w) as [m2|] eqn:E1; [|discriminate].
  rewrite (encode_groups_more tbl f f' _ _ _ _ _ E1 Hf). exact E.
Qed.

Lemma skip_at_start_more : forall (f f' : nat) m len e res,
  skip_at_start oob f m len e = Some res -> (f <= f')%nat ->
  skip_at_start oob f' m len e = Some res.
Proof.
  induction f as [|f IH]; intros f' m len e res E Hf; cbn [skip_at_start] in E.
  - destruct f'; cbn [skip_at_start]; destruct (skip_test oob m len e);
      congruence.
  - destruct f' as [|f']; [lia|]. cbn [skip_at_start].
    destruct (skip_test oob m len e); [|exact E]. apply IH; [exact E|lia].
Qed.

Lemma skip_unknown_more : forall (f f' : nat) m len e res,
  skip_unknown oob f m len e = Some res -> (f <= f')%nat ->
  skip_unknown oob f' m len e = Some res.
Proof.
  induction f as [|f IH]; intros f' m len e res E Hf; cbn [skip_unknown] in E.
  - destruct f'; cbn [skip_unknown]; destruct (skip_test oob m len e);
      congruence.
  - destruct f' as [|f']; [lia|]. cbn [skip_unknown].
    destruct (skip_test oob m len e); [|exact E]. apply IH; [exact E|lia].
Qed.

Ltac skip_more sf sf' Hsf :=
  match goal with
  | E : context [skip_unknown oob sf ?m ?l ?a] |- _ =>
      let E1 := fresh "E" in
      destruct (skip_unknown oob sf m l a) as [[? ?]|] eqn:E1;
      [rewrite (skip_unknown_more sf sf' _ _ _ _ E1 Hsf)|discriminate]
  end.

Lemma decode_groups_more : forall (f f' sf sf' : nat) m t e len w res,
  decode_groups cs oob f sf m t e len w = Some res ->
  (f <= f')%nat -> (sf <= sf')%nat ->
  decode_groups cs oob f' sf' m t e len w = Some res.
Proof.
  induction f as [|f IH]; intros f' sf sf' m t e len w res E Hf Hsf;
    cbn [decode_groups] in E.
  - destruct f'; cbn [decode_groups]; destruct (4 <=? len); congruence.
  - destruct f' as [|f']; [lia|]. cbn [decode_groups].
    destruct (4 <=? len); [|exact E].
    skip_more sf sf' Hsf. destruct (_ =? 0); [exact E|].
    skip_more sf sf' Hsf. destruct (_ =? 0); [exact E|].
    skip_more sf sf' Hsf. destruct (_ =? 0); [exact E|].
    skip_more sf sf' Hsf. destruct (_ =? 0); [exact E|].
    skip_more sf sf' Hsf.
    apply (IH f' sf sf'); [exact E|lia|exact Hsf].
Qed.

Lemma decode_more (f f' : nat) m target e len res :
  fio_base64_decode cs oob f m target e len = Some res -> (f <= f')%nat ->
  fio_base64_decode cs oob f' m target e len = Some res.
Proof.
  unfold fio_base64_decode. intros E Hf.
  destruct (len <=? 0); [exact E|].
  destruct (skip_at_start oob f m len e) as [[l1 e1]|] eqn:E1; [|discriminate].
  rewrite (skip_at_start_more f f' _ _ _ _ E1 Hf).
  destruct (decode_groups cs oob f f m _ e1 l1 0) as [ex|] eqn:E2;
    [|discriminate].
  rewrite (decode_groups_more f f' f f' _ _ _ _ _ _ E2 Hf Hf). exact E.
Qed.

Lemma test_encode_sets_more (f f' : nat) : forall sets m i res,
  test_encode_sets cs f m sets i = Some res -> (f <= f')%nat ->
  test_encode_sets cs f' m sets i = Some res.
Proof.
  induction sets as [|[str b64] rest IH]; intros m i res E Hf;
    cbn [test_encode_sets] in *; [exact E|].
  destruct (strlen f m str) as [n|] eqn:E1; [|discriminate].
  rewrite (strlen_more f f' _ _ _ E1 Hf).
  destruct (fio_base64_encode cs f m at_buffer str n) as [[m1 r]|] eqn:E2;
    [|discriminate].
  unfold fio_base64_encode in *. rewrite (encode_more _ f f' _ _ _ _ _ E2 Hf).
  destruct (strcmp f m1 at_buffer b64) as [c|] eqn:E3; [|discriminate].
  rewrite (strcmp_more f f' _ _ _ _ E3 Hf).
  destruct (negb (c =? 0)); [exact E|]. apply IH; assumption.
Qed.

Lemma test_decode_sets_more (f f' : nat) : forall sets m i res,
  test_decode_sets cs oob f m sets i = Some res -> (f <= f')%nat ->
  test_decode_sets cs oob f' m sets i = Some res.
Proof.
  induction sets as [|[str b64] rest IH]; intros m i res E Hf;
    cbn [test_decode_sets] in *; [exact E|].
  destruct (strlen f m b64) as [n|] eqn:E1; [|discriminate].
  rewrite (strlen_more f f' _ _ _ E1 Hf).
  destruct (fio_base64_decode cs oob f m at_buffer b64 n) as [[m1 r]|] eqn:E2;
    [|discriminate].
  rewrite (decode_more f f' _ _ _ _ _ E2 Hf).
  destruct (strcmp f m1 at_buffer str) as [c|] eqn:E3; [|discriminate].
  rewrite (strcmp_more f f' _ _ _ _ E3 Hf).
  destruct (negb (c =? 0)); [exact E|]. apply IH; assumption.
Qed.

Lemma test_sets_more (f f' : nat) m sets res :
  test_sets cs oob f m sets = Some res -> (f <= f')%nat ->
  test_sets cs oob f' m sets = Some res.
Proof.
  unfold test_sets. cbn zeta. intros E Hf.
  destruct (test_encode_sets cs f m sets 0) as [[m1 b1]|] eqn:E1;
    [|discriminate].
  rewrite (test_encode_sets_more f f' _ _ _ _ E1 Hf).
  destruct (test_decode_sets cs oob f m1 sets 0) as [[m2 b2]|] eqn:E2;
    [|discriminate].
  rewrite (test_decode_sets_more f f' _ _ _ _ E2 Hf). exact E.
Qed.

End More.

(* ------------------------------------------------------------------ *)
(** ** The self-test *)

Lemma text_at_place : forall l m a,
  Forall (fun b => 0 <= b < 256) l -> text_at (place m a l) a l.
Proof.
  assert (Hframe : forall l m a x, x < a -> place m a l x = m x).
  { induction l as [|b l IH]; intros m a x Hx; cbn [place]; [reflexivity|].
    rewrite IH by lia. unfold store8.
    destruct (Z.eqb_spec x a); [lia|reflexivity]. }
  induction l as [|b l IH]; intros m a Hb; cbn [place text_at]; [exact I|].
  inversion Hb as [|? ? Hb0 Hb']; subst. split; [|apply IH; exact Hb'].
  unfold load8. rewrite Hframe by lia. unfold store8. rewrite Z.eqb_refl.
  rewrite Z.mod_mod by lia. apply Z.mod_small. exact Hb0.
Qed.

Lemma bytes_of_string_range s :
  Forall (fun b => 0 <= b < 256) (bytes_of_string s).
Proof.
  unfold bytes_of_string. apply Forall_map. apply Forall_forall.
  intros c _. pose proof (N_ascii_bounded c). lia.
Qed.

Section Rounds.
Variable cs : bool.
Variable oob : Z -> Z.

(** Every turn of the timing loop finds in [buff_b64] the twenty bytes
    it started from and leaves them there. *)
Lemma test_rounds_keep (fuel : nat) : forall (n : nat) m,
  (28 <= fuel)%nat ->
  text_at m at_buff_b64 (bytes_of_string "any carnal pleasure.") ->
  exists m',
    test_rounds cs oob fuel n m = Some m'
    /\ text_at m' at_buff_b64 (bytes_of_string "any carnal pleasure.").
Proof.
  intros n m Hf. revert m.
  induction n as [|n IH]; intros m Ht; cbn [test_rounds].
  - exists m. split; [reflexivity|exact Ht].
  - destruct (round_trip_without_A cs oob base64_encodes_original
                (or_introl eq_refl) fuel m at_buff_b64 at_buffer at_buff_b64
                (bytes_of_string "any carnal pleasure.") Ht)
      as (m1 & m2 & E1 & E2 & T2 & _).
    + vm_compute. discriminate.
    + destruct cs; vm_compute;
        repeat (apply Forall_cons; [discriminate|]); apply Forall_nil.
    + left. vm_compute. reflexivity.
    + vm_compute. discriminate.
    + right. vm_compute. discriminate.
    + vm_compute in Hf |- *. lia.
    + unfold fio_base64_encode.
      change (len_of (bytes_of_string "any carnal pleasure.")) with 20 in E1, E2.
      rewrite E1. rewrite E2. apply IH. exact T2.
Qed.

End Rounds.

(** X17.  The self-test passes.  Whatever the memory holds when
    [fio_base64_test] is entered (its [buffer] is not initialised),
    whether [char] is signed or not and whatever lies around the
    backward table, the function prints the two lines that report
    success, each behind its ["+ fio"], runs the hundred thousand turns
    of its timing loop to the end and prints the time.  None of its
    vectors holds an ['A'] in its Base64 text. *)
Theorem fio_base64_test_passes :
  forall (cs : bool) (oob : Z -> Z) (fuel : nat) (m : mem),
    (400 <= fuel)%nat ->
    fio_base64_test cs oob fuel m
    = Some [ Say "+ fio";
             Say (String.append " Base64 encode passed." newline);
             Say "+ fio";
             Say (String.append " Base64 decode passed." newline);
             Timing ].
Proof.
  intros cs oob fuel m Hf. unfold fio_base64_test.
  destruct (lay_out m at_literals test_vectors) as [m0 sets] eqn:EL.
  destruct (test_sets cs oob 400 m0 sets) as [[[m2 out] go]|] eqn:E.
  - rewrite (test_sets_more cs oob 400 fuel m0 sets _ E Hf).
    assert (Hout : out = [ Say "+ fio";
                           Say (String.append " Base64 encode passed." newline);
                           Say "+ fio";
                           Say (String.append " Base64 decode passed." newline) ]
                   /\ go = true).
    { clear Hf. vm_compute in EL. injection EL as <- <-.
      destruct cs; vm_compute in E; injection E as _ <- <-;
        split; reflexivity. }
    destruct Hout as [-> ->].
    destruct (test_rounds_keep cs oob fuel (Z.to_nat 100000)
                (place m2 at_buff_b64
                       (bytes_of_string "any carnal pleasure." ++ [0])))
      as (m3 & E3 & _); [lia| |].
    + assert (T := text_at_place
                     (bytes_of_string "any carnal pleasure." ++ [0])
                     m2 at_buff_b64).
      apply text_at_app in T; [apply T|].
      apply Forall_app. split; [apply bytes_of_string_range|].
      apply Forall_cons; [lia|apply Forall_nil].
    + rewrite E3. reflexivity.
  - exfalso. clear Hf. vm_compute in EL. injection EL as <- <-.
    destruct cs; vm_compute in E; discriminate E.
Qed.

Lemma fio_base64_test_passes_witness :
  (400 <= 400)%nat
  /\ fio_base64_test true no_oob 400 scratch
     = Some [ Say "+ fio";
              Say (String.append " Base64 encode passed." newline);
              Say "+ fio";
              Say (String.append " Base64 decode passed." newline);
              Timing ].
Proof.
  assert (H1 : (400 <= 400)%nat) by lia.
  split; [exact H1|].
  exact (fio_base64_test_passes true no_oob 400 scratch H1).
Defined.

